(** * code-review-agent: the unified-diff decomposition engine

    A shallow embedding of [CodeAnalyzer] (parseGitDiff, parseFileInfo,
    extractLineNumbers) and of the per-file loop of [PRReviewService]
    (reviewPR, reviewFile, parseAnalysisToComments), with the properties of
    the specification stated over it.

    Conventions of the embedding.
    - A JavaScript string is a sequence of code units; a Rocq [string] stands
      for a string all of whose code units are below 256.
    - A JavaScript number that the code only ever uses as an integer (line
      numbers, counters, indices) is a [Z]; this is exact as long as the
      values stay below 2^53.
    - [forEach] over an array is a [fold_left] over the list of its elements,
      the mutated locals being the accumulator; [push] appends at the end. *)

From Stdlib Require Import String Ascii List ZArith Lia Bool Arith.
From Stdlib Require Import DecimalString.
From Stdlib Require Import Sorted.
From Stdlib Require DecimalNat DecimalFacts.
Import ListNotations.

Local Open Scope string_scope.
Local Open Scope Z_scope.

(* ================================================================== *)
(** * JavaScript string primitives *)
(* ================================================================== *)

Module JS.

(** [s.startsWith(p)] *)
Definition startsWith (s p : string) : bool := String.prefix p s.

(** [s.includes(p)]: [p] occurs somewhere in [s]. *)
Fixpoint includes (s p : string) : bool :=
  startsWith s p ||
  match s with
  | EmptyString => false
  | String _ s' => includes s' p
  end.

(** The line feed, the separator of [split('\n')] and [join('\n')]. *)
Definition LF : ascii := "010"%char.
Definition CR : ascii := "013"%char.

(** [s.split('\n')]: the pieces between the line feeds; the empty string
    splits into one empty piece. *)
Fixpoint split_lines (s : string) : list string :=
  match s with
  | EmptyString => [EmptyString]
  | String c s' =>
      if Ascii.eqb c LF then EmptyString :: split_lines s'
      else match split_lines s' with
           | [] => [String c EmptyString]
           | l :: ls => String c l :: ls
           end
  end.

(** [ls.join('\n')] *)
Definition join_lines (ls : list string) : string :=
  String.concat (String LF EmptyString) ls.

(** White space and line terminators, as [trim] strips them (the code points
    below 256: TAB, LF, VT, FF, CR, SP, NBSP). *)
Definition isWhiteSpace (c : ascii) : bool :=
  let n := nat_of_ascii c in
  ((9 <=? n) && (n <=? 13) || (n =? 32) || (n =? 160))%nat.

Fixpoint trimStart (s : string) : string :=
  match s with
  | EmptyString => EmptyString
  | String c s' => if isWhiteSpace c then trimStart s' else s
  end.

Fixpoint trimEnd (s : string) : string :=
  match s with
  | EmptyString => EmptyString
  | String c s' =>
      match trimEnd s' with
      | EmptyString => if isWhiteSpace c then EmptyString
                       else String c EmptyString
      | t => String c t
      end
  end.

(** [s.trim()] *)
Definition trim (s : string) : string := trimEnd (trimStart s).

(** Truthiness of a string: only the empty string is falsy. *)
Definition truthy (s : string) : bool :=
  match s with EmptyString => false | _ => true end.

(** [\d] *)
Definition isDigit (c : ascii) : bool :=
  let n := nat_of_ascii c in ((48 <=? n) && (n <=? 57))%nat.

(** Line terminators below 256, which [.] does not match and after which a
    multiline [^] matches. *)
Definition isLineTerminator (c : ascii) : bool :=
  Ascii.eqb c LF || Ascii.eqb c CR.

(** [parseInt(s)] on a string of decimal digits (all the code passes to it:
    the capture of [(\d+)]); anything else stops the number. *)
Fixpoint parseInt_go (acc : Z) (s : string) : Z :=
  match s with
  | EmptyString => acc
  | String c s' =>
      if isDigit c
      then parseInt_go (10 * acc + Z.of_nat (nat_of_ascii c - 48)) s'
      else acc
  end.

Definition parseInt (s : string) : Z := parseInt_go 0 s.

End JS.

(* ================================================================== *)
(** * Regular expressions: a backtracking matcher *)
(* ================================================================== *)

(** The fragment of the pattern language the three patterns of the source
    use, matched as ECMAScript does: a matcher takes a state and a
    continuation, and a quantifier tries the longest repetition first and
    gives characters back when the continuation fails. *)

Module Regex.

Inductive regex : Type :=
| Eps                             (* the empty pattern *)
| Chr (c : ascii)                 (* a literal character *)
| Digit                           (* \d *)
| Dot                             (* . *)
| Bol                             (* ^ *)
| Cat (r1 r2 : regex)             (* r1 r2 *)
| Opt (r : regex)                 (* r? *)
| Star (r : regex)                (* r* *)
| Plus (r : regex)                (* r+ *)
| Group (n : nat) (r : regex).    (* the n-th capturing group *)

(** A literal word, and a sequence of patterns. *)
Fixpoint Lit (s : string) : regex :=
  match s with
  | EmptyString => Eps
  | String c EmptyString => Chr c
  | String c s' => Cat (Chr c) (Lit s')
  end.

Fixpoint Seq (rs : list regex) : regex :=
  match rs with
  | [] => Eps
  | [r] => r
  | r :: rs' => Cat r (Seq rs')
  end.

(** The state of a match: the character before the current position
    ([None] at the start of the input), the input still to read, and the
    captures made so far. *)
Record mstate : Type := MState {
  prev : option ascii;
  rest : string;
  caps : list (nat * string)
}.

Definition cont : Type := mstate -> option mstate.
Definition matcher : Type := mstate -> cont -> option mstate.

(** Consume one character satisfying [p]. *)
Definition char_matcher (p : ascii -> bool) : matcher := fun st k =>
  match rest st with
  | String c s' => if p c then k (MState (Some c) s' (caps st)) else None
  | EmptyString => None
  end.

(** The first [n] characters of [s]. *)
Fixpoint take (n : nat) (s : string) : string :=
  match n, s with
  | S n', String c s' => String c (take n' s')
  | _, _ => EmptyString
  end.

(** Greedy repetition of [m]: one more round of [m] first, the continuation
    when that fails. A round that reads nothing is rejected, so that
    [fuel], the length of the input left, is never exhausted early. *)
Fixpoint repeat_matcher (m : matcher) (k : cont) (fuel : nat) (st : mstate)
  : option mstate :=
  match fuel with
  | O => k st
  | S fuel' =>
      match m st (fun st' =>
                    if (String.length (rest st') <? String.length (rest st))%nat
                    then repeat_matcher m k fuel' st' else None) with
      | Some res => Some res
      | None => k st
      end
  end.

Section Matcher.

(** The [m] flag of the pattern. *)
Variable multiline : bool.

Fixpoint run (r : regex) : matcher :=
  match r with
  | Eps => fun st k => k st
  | Chr c => char_matcher (Ascii.eqb c)
  | Digit => char_matcher JS.isDigit
  | Dot => char_matcher (fun c => negb (JS.isLineTerminator c))
  | Bol => fun st k =>
      match prev st with
      | None => k st
      | Some c => if multiline && JS.isLineTerminator c then k st else None
      end
  | Cat r1 r2 => fun st k => run r1 st (fun st' => run r2 st' k)
  | Opt r' => fun st k =>
      match run r' st k with
      | Some res => Some res
      | None => k st
      end
  | Star r' => fun st k =>
      repeat_matcher (run r') k (String.length (rest st)) st
  | Plus r' => fun st k =>
      run r' st (fun st1 =>
        repeat_matcher (run r') k (String.length (rest st1)) st1)
  | Group n r' => fun st k =>
      run r' st (fun st' =>
        let len := (String.length (rest st) - String.length (rest st'))%nat in
        k (MState (prev st') (rest st')
                  ((n, take len (rest st)) :: caps st')))
  end.

(** One attempt, at the current position. *)
Definition match_here (r : regex) (p : option ascii) (s : string)
  : option mstate :=
  run r (MState p s []) (fun st => Some st).

(** [r.exec(s)]: the first position, from the left, where [r] matches. *)
Fixpoint exec_from (r : regex) (p : option ascii) (s : string)
  : option mstate :=
  match match_here r p s with
  | Some st => Some st
  | None =>
      match s with
      | EmptyString => None
      | String c s' => exec_from r (Some c) s'
      end
  end.

Definition exec (r : regex) (s : string) : option mstate :=
  exec_from r None s.

(** [s.split(r)], for a pattern without capturing groups. The walk keeps the
    piece being built ([acc], from the end of the last separator to the
    current position) and [skip], the number of characters of a matched
    separator still to pass over. A match that ends where the current piece
    starts is not a separator. *)
Fixpoint split_go (r : regex) (p : option ascii) (s : string)
                  (skip : nat) (acc : string) : list string :=
  match s with
  | EmptyString => [acc]
  | String c s' =>
      match skip with
      | S skip' => split_go r (Some c) s' skip' acc
      | O =>
          match match_here r p s with
          | None => split_go r (Some c) s' O (acc ++ String c EmptyString)
          | Some st =>
              let len := (String.length s - String.length (rest st))%nat in
              match len, acc with
              | O, EmptyString =>
                  split_go r (Some c) s' O (String c EmptyString)
              | O, _ => acc :: split_go r (Some c) s' O (String c EmptyString)
              | S len', _ => acc :: split_go r (Some c) s' len' EmptyString
              end
          end
      end
  end.

Definition split (r : regex) (s : string) : list string :=
  match s with
  | EmptyString =>
      match match_here r None s with Some _ => [] | None => [s] end
  | _ => split_go r None s O EmptyString
  end.

End Matcher.

(** The [n]-th capture of a match result. *)
Fixpoint capture (n : nat) (cs : list (nat * string)) : option string :=
  match cs with
  | [] => None
  | (m, s) :: cs' => if Nat.eqb m n then Some s else capture n cs'
  end.

End Regex.

(* ================================================================== *)
(** * CodeAnalyzer *)
(* ================================================================== *)

Module CodeAnalyzer.

Import Regex.

Inductive Status : Type := modified | added | deleted | renamed.

(** The object [parseFileInfo] builds and returns. *)
Record FileInfo : Type := mkFileInfo {
  filename : string;
  status : Status;
  additions : Z;
  deletions : Z;
  patch : string
}.

Definition set_filename (fi : FileInfo) (v : string) : FileInfo :=
  mkFileInfo v (status fi) (additions fi) (deletions fi) (patch fi).
Definition set_status (fi : FileInfo) (v : Status) : FileInfo :=
  mkFileInfo (filename fi) v (additions fi) (deletions fi) (patch fi).
Definition set_additions (fi : FileInfo) (v : Z) : FileInfo :=
  mkFileInfo (filename fi) (status fi) v (deletions fi) (patch fi).
Definition set_deletions (fi : FileInfo) (v : Z) : FileInfo :=
  mkFileInfo (filename fi) (status fi) (additions fi) v (patch fi).
Definition set_patch (fi : FileInfo) (v : string) : FileInfo :=
  mkFileInfo (filename fi) (status fi) (additions fi) (deletions fi) v.

(** [/^diff --git/m] *)
Definition diffGitRe : regex := Seq [Bol; Lit "diff --git"].

(** [/a\/(.+) b\/(.+)/] *)
Definition filenameRe : regex :=
  Seq [Lit "a/"; Group 1 (Plus Dot); Lit " b/"; Group 2 (Plus Dot)].

(** [/^@@ -\d+,?\d* \+(\d+),?\d* @@/] *)
Definition hunkHeaderRe : regex :=
  Seq [Bol; Lit "@@ -"; Plus Digit; Opt (Chr ","); Star Digit;
       Lit " +"; Group 1 (Plus Digit); Opt (Chr ","); Star Digit;
       Lit " @@"].

(** ** parseFileInfo *)

(** One round of the scanning loop, before its test for the patch start:
    the filename and the status are updated from [line]. *)
Definition headerStep (fileInfo : FileInfo) (line : string) : FileInfo :=
  let fileInfo :=
    if JS.startsWith line " a/" && JS.includes line " b/" then
      match exec false filenameRe line with
      | Some m =>
          match capture 2 (caps m) with
          | Some g => set_filename fileInfo g
          | None => fileInfo                     (* group 2 always takes part *)
          end
      | None => fileInfo
      end
    else fileInfo in
  if JS.startsWith line "new file mode" then set_status fileInfo added
  else if JS.startsWith line "deleted file mode" then set_status fileInfo deleted
  else if JS.startsWith line "rename from" then set_status fileInfo renamed
  else fileInfo.

(** The [for] loop with its [break]: [i] is the index of the head of
    [lines]; the result carries [patchStartIndex], [-1] when the loop ran to
    the end. *)
Fixpoint scanHeader (lines : list string) (i : Z) (fileInfo : FileInfo)
  : FileInfo * Z :=
  match lines with
  | [] => (fileInfo, -1)
  | line :: lines' =>
      let fileInfo := headerStep fileInfo line in
      if JS.startsWith line "@@" then (fileInfo, i)
      else scanHeader lines' (i + 1) fileInfo
  end.

(** The body of [patchLines.forEach]. *)
Definition countStep (fileInfo : FileInfo) (line : string) : FileInfo :=
  if JS.startsWith line "+" && negb (JS.startsWith line "+++")
  then set_additions fileInfo (additions fileInfo + 1)
  else if JS.startsWith line "-" && negb (JS.startsWith line "---")
  then set_deletions fileInfo (deletions fileInfo + 1)
  else fileInfo.

(** [lines.slice(start)] for [0 <= start]. *)
Definition slice (lines : list string) (start : Z) : list string :=
  skipn (Z.to_nat start) lines.

Definition emptyFileInfo : FileInfo := mkFileInfo "" modified 0 0 "".

(** [parseFileInfo] up to its [return]: the [fileInfo] object as it stands
    when the function decides what to return. *)
Definition buildFileInfo (lines : list string) : FileInfo :=
  let '(fileInfo, patchStartIndex) := scanHeader lines 0 emptyFileInfo in
  if 0 <=? patchStartIndex then
    let patchLines := slice lines patchStartIndex in
    let fileInfo := set_patch fileInfo (JS.join_lines patchLines) in
    fold_left countStep patchLines fileInfo
  else fileInfo.

(** [return fileInfo.filename ? fileInfo : null] *)
Definition parseFileInfo (lines : list string) : option FileInfo :=
  let fileInfo := buildFileInfo lines in
  if JS.truthy (filename fileInfo) then Some fileInfo else None.

(** ** parseGitDiff *)

(** The body of [fileSections.forEach]; [files] is the array being filled. *)
Definition sectionStep (files : list FileInfo) (section : string)
  : list FileInfo :=
  if negb (JS.truthy (JS.trim section)) then files
  else
    let lines := JS.split_lines section in
    match parseFileInfo lines with
    | Some fileInfo => (files ++ [fileInfo])%list
    | None => files
    end.

Definition fileSections (diff : string) : list string :=
  split true diffGitRe diff.

Definition parseGitDiff (diff : string) : list FileInfo :=
  fold_left sectionStep (fileSections diff) [].

(** ** extractLineNumbers *)

(** The body of the [forEach]: the locals are [currentLine] and
    [lineNumbers]. *)
Definition lineStep (st : Z * list Z) (line : string) : Z * list Z :=
  let '(currentLine, lineNumbers) := st in
  match exec false hunkHeaderRe line with
  | Some hunkHeader =>
      match capture 1 (caps hunkHeader) with
      | Some g => (JS.parseInt g, lineNumbers)
      | None => (currentLine, lineNumbers)       (* group 1 always takes part *)
      end
  | None =>
      if JS.startsWith line "+" && negb (JS.startsWith line "+++")
      then (currentLine + 1, (lineNumbers ++ [currentLine])%list)
      else if negb (JS.startsWith line "-") && negb (JS.startsWith line "---")
      then (currentLine + 1, lineNumbers)
      else (currentLine, lineNumbers)
  end.

Definition extractLineNumbers (patch : string) : list Z :=
  let lines := JS.split_lines patch in
  snd (fold_left lineStep lines (1, [])).

End CodeAnalyzer.

(* ================================================================== *)
(** * PRReviewService *)
(* ================================================================== *)

(** JavaScript values, as far as the fields of an issue record need them.
    [JNumber] holds the integer-valued numbers ([0] and [-0] alike),
    [JObject] any object or array. *)
Inductive JSValue : Type :=
| JUndefined
| JNull
| JBool (b : bool)
| JNumber (n : Z)
| JNaN
| JString (s : string)
| JObject.

(** The truthiness of a value. *)
Definition ToBoolean (v : JSValue) : bool :=
  match v with
  | JUndefined | JNull | JNaN => false
  | JBool b => b
  | JNumber n => negb (n =? 0)
  | JString s => JS.truthy s
  | JObject => true
  end.

(** [a || b] *)
Definition js_or (a b : JSValue) : JSValue := if ToBoolean a then a else b.

(** An issue record of the issue finder; a property that is absent reads as
    [JUndefined]. *)
Module Issue.
Record t : Type := mk {
  line : JSValue;
  title : JSValue;
  description : JSValue;
  severity : JSValue;
  suggestion : JSValue;
  example : JSValue;
  language : JSValue
}.
End Issue.

(** The result of the issue finder: [issues] is [None] when the property is
    absent or falsy, and the array otherwise. *)
Module Analysis.
Record t : Type := mk { issues : option (list Issue.t) }.
End Analysis.

Module Comment.
Record t : Type := mk {
  path : string;
  line : JSValue;
  body : string;
  severity : JSValue
}.
End Comment.

Module Review.
Record t : Type := mk {
  filename : string;
  comments : list Comment.t;
  analysis : Analysis.t
}.
End Review.

Module PRDetails.
Record t : Type := mk {
  title : string;
  body : option string          (* [None] is [null] *)
}.
End PRDetails.

Module Context.
Record t : Type := mk {
  filename : string;
  language : string;
  prTitle : string;
  prDescription : string;
  isAngularProject : bool;
  isDotNetProject : bool
}.
End Context.

(** A thrown value whose message can be read: an error object with its
    message. What else a rejection can carry, [null] and [undefined], is
    added by [Thrown] below. *)
Record Error : Type := mkError { message : string }.

(** What the spinner and the logger are told, in order. *)
Inductive Event : Type :=
| SpinnerStart (msg : string)
| SpinnerSucceed (msg : string)
| SpinnerInfo (msg : string)
| SpinnerFail (msg : string)
| LoggerWarn (msg : string)
| LoggerError (msg : string) (error : Error).

Module PRReviewService.

(** ** Pure helpers *)

(** [c.toLowerCase()] on one code unit below 256. *)
Definition toLowerChar (c : ascii) : ascii :=
  let n := nat_of_ascii c in
  if ((65 <=? n) && (n <=? 90) ||
      (192 <=? n) && (n <=? 222) && negb (n =? 215))%nat
  then ascii_of_nat (n + 32) else c.

Fixpoint toLowerCase (s : string) : string :=
  match s with
  | EmptyString => EmptyString
  | String c s' => String (toLowerChar c) (toLowerCase s')
  end.

(** [s.split('.').pop()]: what follows the last dot; [acc] is the piece
    being read. *)
Fixpoint lastPiece (s acc : string) : string :=
  match s with
  | EmptyString => acc
  | String c s' =>
      if Ascii.eqb c "." then lastPiece s' EmptyString
      else lastPiece s' (acc ++ String c EmptyString)
  end.

Definition getFileExtension (filename : string) : string :=
  "." ++ lastPiece filename EmptyString.

Definition relevantExtensions : list string :=
  [".ts"; ".js"; ".tsx"; ".jsx"; ".html"; ".scss"; ".css";
   ".cs"; ".vb"; ".fs"; ".razor"; ".cshtml";
   ".json"; ".xml"; ".yml"; ".yaml"].

Definition isRelevantFile (language extension : string) : bool :=
  existsb (String.eqb (toLowerCase extension)) relevantExtensions.

(** The keys looked up in the map are extensions as [getFileExtension]
    yields them, which begin with a dot; no property an object literal
    inherits has such a name, so the entries written in it are all that
    such a key can find. *)
Definition languageMap : list (string * string) :=
  [(".ts", "typescript"); (".tsx", "typescript"); (".js", "javascript");
   (".jsx", "javascript"); (".html", "html"); (".scss", "scss");
   (".css", "css"); (".cs", "csharp"); (".vb", "vb.net"); (".fs", "fsharp");
   (".razor", "razor"); (".cshtml", "razor"); (".json", "json");
   (".xml", "xml"); (".yml", "yaml"); (".yaml", "yaml")].

Fixpoint lookup (key : string) (m : list (string * string)) : option string :=
  match m with
  | [] => None
  | (k, v) :: m' => if String.eqb k key then Some v else lookup key m'
  end.

Definition detectLanguage (extension : string) : string :=
  match lookup (toLowerCase extension) languageMap with
  | Some l => l
  | None => "text"
  end.

Definition filterRelevantFiles (files : list CodeAnalyzer.FileInfo)
  : list CodeAnalyzer.FileInfo :=
  filter (fun file =>
            let extension := getFileExtension (CodeAnalyzer.filename file) in
            isRelevantFile (detectLanguage extension) extension) files.

(** [prDetails.title + ' ' + prDetails.body], lower-cased. *)
Definition content (prDetails : PRDetails.t) : string :=
  toLowerCase (PRDetails.title prDetails ++ " " ++
               match PRDetails.body prDetails with
               | Some b => b
               | None => "null"
               end).

Definition isAngularProject (prDetails : PRDetails.t) : bool :=
  existsb (JS.includes (content prDetails))
    ["angular"; "@angular"; "ng-"; "angular.json"; "package.json";
     "component.ts"; "service.ts"; "module.ts"].

Definition isDotNetProject (prDetails : PRDetails.t) : bool :=
  existsb (JS.includes (content prDetails))
    [".net"; "dotnet"; "csharp"; "c#"; ".cs"; ".csproj";
     "asp.net"; "blazor"; "razor"; "entity framework"].

(** A number in a template string. *)
Definition showNat (n : nat) : string :=
  NilEmpty.string_of_uint (Nat.to_uint n).

Section Service.

(** The collaborators left outside: the state of the world the issue finder
    lives in, the issue finder itself (it returns or throws, and the world
    moves on), the text of a comment, and the configured size cap. *)
Variable World : Type.
Variable analyzeCode :
  string -> Context.t -> World -> (Error + Analysis.t) * World.
Variable formatComment : Issue.t -> string.
Variable maxDiffSize : Z.

(** ** parseAnalysisToComments *)

Definition commentOf (file : CodeAnalyzer.FileInfo) (issue : Issue.t)
  : Comment.t :=
  Comment.mk (CodeAnalyzer.filename file)
             (js_or (Issue.line issue) (JNumber 1))
             (formatComment issue)
             (js_or (Issue.severity issue) (JString "info")).

Definition parseAnalysisToComments (analysis : Analysis.t)
           (file : CodeAnalyzer.FileInfo) : list Comment.t :=
  match Analysis.issues analysis with
  | Some issues =>
      fold_left (fun comments issue => (comments ++ [commentOf file issue])%list)
                issues []
  | None => []
  end.

(** ** The effects of a review *)

(** The state a review runs in, and a computation that returns or throws. *)
Record State : Type := mkState { world : World; trace : list Event }.

Definition M (A : Type) : Type := State -> (Error + A) * State.

Definition ret {A : Type} (a : A) : M A := fun st => (inr a, st).

Definition bind {A B : Type} (c : M A) (f : A -> M B) : M B := fun st =>
  match c st with
  | (inr a, st') => f a st'
  | (inl e, st') => (inl e, st')
  end.

Definition throw {A : Type} (e : Error) : M A := fun st => (inl e, st).

(** [try { c } catch (error) { handler error }] *)
Definition try_catch {A : Type} (c : M A) (handler : Error -> M A) : M A :=
  fun st =>
    match c st with
    | (inr a, st') => (inr a, st')
    | (inl e, st') => handler e st'
    end.

(** A call of the spinner or of the logger. *)
Definition emit (ev : Event) : M unit := fun st =>
  (inr tt, mkState (world st) (trace st ++ [ev])%list).

(** [await this.openaiService.analyzeCode(diff, context)] *)
Definition await_analyzeCode (diff : string) (context : Context.t)
  : M Analysis.t := fun st =>
  let '(r, w) := analyzeCode diff context (world st) in
  (r, mkState w (trace st)).

Notation "x <- c ;; k" := (bind c (fun x => k))
  (at level 61, c at next level, right associativity).
Notation "c ;; k" := (bind c (fun _ => k))
  (at level 61, right associativity).

(** ** reviewFile *)

Definition reviewFile (file : CodeAnalyzer.FileInfo) (prDetails : PRDetails.t)
  : M (option Review.t) :=
  let fileExtension := getFileExtension (CodeAnalyzer.filename file) in
  let language := detectLanguage fileExtension in
  if negb (isRelevantFile language fileExtension) then ret None
  else
    let diff := CodeAnalyzer.patch file in
    if negb (JS.truthy diff) || (maxDiffSize <? Z.of_nat (String.length diff))
    then
      emit (LoggerWarn ("Skipping " ++ CodeAnalyzer.filename file ++
                        ": diff too large or empty")) ;;
      ret None
    else
      let context :=
        Context.mk (CodeAnalyzer.filename file) language
                   (PRDetails.title prDetails)
                   (match PRDetails.body prDetails with
                    | Some b => b          (* the empty body is falsy too *)
                    | None => ""
                    end)
                   (isAngularProject prDetails)
                   (isDotNetProject prDetails) in
      analysis <- await_analyzeCode diff context ;;
      let comments := parseAnalysisToComments analysis file in
      ret (Some (Review.mk (CodeAnalyzer.filename file) comments analysis)).

(** ** The per-file loop of reviewPR *)

(** One round: [reviews] is the array being filled. *)
Definition reviewStep (prDetails : PRDetails.t) (reviews : list Review.t)
           (file : CodeAnalyzer.FileInfo) : M (list Review.t) :=
  emit (SpinnerStart ("Reviewing " ++ CodeAnalyzer.filename file ++ "...")) ;;
  try_catch
    (review <- reviewFile file prDetails ;;
     match review with
     | Some r =>
         if (0 <? length (Review.comments r))%nat then
           emit (SpinnerSucceed
                   ("Reviewed " ++ CodeAnalyzer.filename file ++ " (" ++
                    showNat (length (Review.comments r)) ++ " comments)")) ;;
           ret (reviews ++ [r])%list
         else
           emit (SpinnerInfo
                   ("No issues found in " ++ CodeAnalyzer.filename file)) ;;
           ret reviews
     | None =>
         emit (SpinnerInfo
                 ("No issues found in " ++ CodeAnalyzer.filename file)) ;;
         ret reviews
     end)
    (fun error =>
       emit (SpinnerFail ("Failed to review " ++ CodeAnalyzer.filename file ++
                          ": " ++ message error)) ;;
       emit (LoggerError ("Error reviewing file " ++
                          CodeAnalyzer.filename file ++ ":") error) ;;
       ret reviews).

(** [for (const file of files) { ... }] *)
Fixpoint reviewLoop (prDetails : PRDetails.t) (files : list CodeAnalyzer.FileInfo)
         (reviews : list Review.t) : M (list Review.t) :=
  match files with
  | [] => ret reviews
  | file :: files' =>
      reviews' <- reviewStep prDetails reviews file ;;
      reviewLoop prDetails files' reviews'
  end.

End Service.

Arguments mkState {World}.
Arguments world {World}.
Arguments trace {World}.
Arguments ret {World A}.
Arguments bind {World A B}.
Arguments throw {World A}.
Arguments try_catch {World A}.
Arguments emit {World}.
Arguments await_analyzeCode {World}.
Arguments reviewFile {World}.
Arguments reviewStep {World}.
Arguments reviewLoop {World}.

End PRReviewService.

(* ================================================================== *)
(** * The per-file loop, whatever is thrown *)
(* ================================================================== *)

(** What a [throw] statement or a rejected promise carries: [null] or
    [undefined], or a value whose [message] can be read. *)
Inductive Thrown : Type :=
| Nullish
| Raised (error : Error).

(** [reviewFile] and the loop of [reviewPR] once more, for an issue finder
    that may reject with anything. The catch clause of the loop reads
    [error.message] to build the text for the spinner; on [null] or
    [undefined] that reading throws a [TypeError], before the spinner or the
    logger is told anything, and nothing catches it inside the loop. *)
Module ReviewLoop.

Import PRReviewService.

Section Loop.

Variable World : Type.
Variable analyzeCode :
  string -> Context.t -> World -> (Thrown + Analysis.t) * World.
Variable formatComment : Issue.t -> string.
Variable maxDiffSize : Z.
(** The [TypeError] of the engine for a property read on [null] or
    [undefined]. *)
Variable typeError : Error.

Definition M (A : Type) : Type := State World -> (Thrown + A) * State World.

Definition ret {A : Type} (a : A) : M A := fun st => (inr a, st).

Definition bind {A B : Type} (c : M A) (f : A -> M B) : M B := fun st =>
  match c st with
  | (inr a, st') => f a st'
  | (inl e, st') => (inl e, st')
  end.

Definition throw {A : Type} (e : Thrown) : M A := fun st => (inl e, st).

(** [try { c } catch (error) { handler error }] *)
Definition try_catch {A : Type} (c : M A) (handler : Thrown -> M A) : M A :=
  fun st =>
    match c st with
    | (inr a, st') => (inr a, st')
    | (inl e, st') => handler e st'
    end.

Definition emit (ev : Event) : M unit := fun st =>
  (inr tt, mkState (world st) (trace st ++ [ev])%list).

(** [await this.openaiService.analyzeCode(diff, context)] *)
Definition await_analyzeCode (diff : string) (context : Context.t)
  : M Analysis.t := fun st =>
  let '(r, w) := analyzeCode diff context (world st) in
  (r, mkState w (trace st)).

Notation "x <- c ;; k" := (bind c (fun x => k))
  (at level 61, c at next level, right associativity).
Notation "c ;; k" := (bind c (fun _ => k))
  (at level 61, right associativity).

Definition reviewFile (file : CodeAnalyzer.FileInfo) (prDetails : PRDetails.t)
  : M (option Review.t) :=
  let fileExtension := getFileExtension (CodeAnalyzer.filename file) in
  let language := detectLanguage fileExtension in
  if negb (isRelevantFile language fileExtension) then ret None
  else
    let diff := CodeAnalyzer.patch file in
    if negb (JS.truthy diff) || (maxDiffSize <? Z.of_nat (String.length diff))
    then
      emit (LoggerWarn ("Skipping " ++ CodeAnalyzer.filename file ++
                        ": diff too large or empty")) ;;
      ret None
    else
      let context :=
        Context.mk (CodeAnalyzer.filename file) language
                   (PRDetails.title prDetails)
                   (match PRDetails.body prDetails with
                    | Some b => b
                    | None => ""
                    end)
                   (isAngularProject prDetails)
                   (isDotNetProject prDetails) in
      analysis <- await_analyzeCode diff context ;;
      let comments := parseAnalysisToComments formatComment analysis file in
      ret (Some (Review.mk (CodeAnalyzer.filename file) comments analysis)).

(** One round of the loop: [reviews] is the array being filled. *)
Definition reviewStep (prDetails : PRDetails.t) (reviews : list Review.t)
           (file : CodeAnalyzer.FileInfo) : M (list Review.t) :=
  emit (SpinnerStart ("Reviewing " ++ CodeAnalyzer.filename file ++ "...")) ;;
  try_catch
    (review <- reviewFile file prDetails ;;
     match review with
     | Some r =>
         if (0 <? length (Review.comments r))%nat then
           emit (SpinnerSucceed
                   ("Reviewed " ++ CodeAnalyzer.filename file ++ " (" ++
                    showNat (length (Review.comments r)) ++ " comments)")) ;;
           ret (reviews ++ [r])%list
         else
           emit (SpinnerInfo
                   ("No issues found in " ++ CodeAnalyzer.filename file)) ;;
           ret reviews
     | None =>
         emit (SpinnerInfo
                 ("No issues found in " ++ CodeAnalyzer.filename file)) ;;
         ret reviews
     end)
    (fun thrown =>
       match thrown with
       | Nullish =>
           (* [error.message] cannot be read: the template throws *)
           throw (Raised typeError)
       | Raised error =>
           emit (SpinnerFail ("Failed to review " ++
                              CodeAnalyzer.filename file ++
                              ": " ++ message error)) ;;
           emit (LoggerError ("Error reviewing file " ++
                              CodeAnalyzer.filename file ++ ":") error) ;;
           ret reviews
       end).

(** [for (const file of files) { ... }] *)
Fixpoint reviewLoop (prDetails : PRDetails.t) (files : list CodeAnalyzer.FileInfo)
         (reviews : list Review.t) : M (list Review.t) :=
  match files with
  | [] => ret reviews
  | file :: files' =>
      reviews' <- reviewStep prDetails reviews file ;;
      reviewLoop prDetails files' reviews'
  end.

End Loop.

Arguments ret {World A}.
Arguments bind {World A B}.
Arguments throw {World A}.
Arguments try_catch {World A}.
Arguments emit {World}.
Arguments await_analyzeCode {World}.
Arguments reviewFile {World}.
Arguments reviewStep {World}.
Arguments reviewLoop {World}.

(** An issue finder whose rejections all carry a value with a message: it
    never rejects with [null] or [undefined]. *)
Definition rejectsWithObjects {World : Type}
           (analyzeCode :
              string -> Context.t -> World -> (Thrown + Analysis.t) * World)
  : Prop :=
  forall diff context w, fst (analyzeCode diff context w) <> inl Nullish.

(** The outcomes of the loop of [PRReviewService] above, where every thrown
    value is an error object, read as outcomes of this one. *)
Definition raised {A : Type} (r : Error + A) : Thrown + A :=
  match r with
  | inl error => inl (Raised error)
  | inr a => inr a
  end.

Definition raising {World : Type}
           (analyzeCode :
              string -> Context.t -> World -> (Error + Analysis.t) * World)
  : string -> Context.t -> World -> (Thrown + Analysis.t) * World :=
  fun diff context w =>
    let '(r, w') := analyzeCode diff context w in (raised r, w').

End ReviewLoop.

(* ================================================================== *)
(** * Predicates the properties are stated with *)
(* ================================================================== *)

Import JS Regex CodeAnalyzer.

(** [noLF s]: the string [s] holds no line feed. *)
Fixpoint noLF (s : string) : bool :=
  match s with
  | EmptyString => true
  | String c s' => negb (Ascii.eqb c LF) && noLF s'
  end.

(** [whitespaceOnly s]: every character of [s] is white space. *)
Fixpoint whitespaceOnly (s : string) : bool :=
  match s with
  | EmptyString => true
  | String c s' => isWhiteSpace c && whitespaceOnly s'
  end.

(** [begins a r]: every match of [r] starts by reading the character [a]. *)
Fixpoint begins (a : ascii) (r : regex) : bool :=
  match r with
  | Chr c => Ascii.eqb c a
  | Cat r1 _ => begins a r1
  | Plus r' => begins a r'
  | Group _ r' => begins a r'
  | _ => false
  end.

(** The test of the second branch of [lineStep], and of the first of
    [countStep]: a [+] line that is not a [+++] line. *)
Definition isAddition (line : string) : bool :=
  startsWith line "+" && negb (startsWith line "+++").

Definition isDeletion (line : string) : bool :=
  startsWith line "-" && negb (startsWith line "---").

(** No line of [lines] passes the test that ends the scanning loop of
    [parseFileInfo]: none begins with [@@]. *)
Definition noHunk (lines : list string) : Prop :=
  Forall (fun l => startsWith l "@@" = false) lines.

(** The lines that leave a status [added] as it is. *)
Definition keepsAdded (line : string) : Prop :=
  startsWith line "deleted file mode" = false /\
  startsWith line "rename from" = false.

(** The messages the spinner was started with, in order: one per file the
    loop took up. *)
Definition started (tr : list Event) : list string :=
  flat_map (fun ev => match ev with SpinnerStart msg => [msg] | _ => [] end) tr.

Definition reviewingMsg (file : FileInfo) : string :=
  "Reviewing " ++ filename file ++ "...".

(** An issue finder that always throws an error object, and a file with a
    one-hunk patch, to run the loop on. *)
Definition failingFinder (diff : string) (context : Context.t) (w : unit)
  : (Thrown + Analysis.t) * unit :=
  (inl (Raised (mkError "rate limit")), w).

Definition sampleFile (name : string) : FileInfo :=
  mkFileInfo name modified 1 0 (join_lines ["@@ -1 +1,2 @@"; " x"; "+y"]).

(** The numbers of the code are doubles: every integer up to [2 ^ 53] is
    one, and below it [n + 1] and [parseInt] are exact, as they are here in
    [Z]; from [2 ^ 53 + 1] on the code rounds. Properties about the numbers
    computed are stated within that range. *)
Definition exactLimit : Z := 2 ^ 53.

(** The rest of [s] after its first [n] characters. *)
Fixpoint dropChars (n : nat) (s : string) : string :=
  match n, s with
  | S n', String _ s' => dropChars n' s'
  | _, _ => s
  end.

(** The lines the hunk-header pattern does not match. *)
Definition noHeader (lines : list string) : Prop :=
  Forall (fun l => exec false hunkHeaderRe l = None) lines.

(** The invariant of a walk between two hunk headers: the entries are in
    strictly increasing order and lie between the counter the walk started
    with and the current counter. *)
Definition walkInv (c0 : Z) (st : Z * list Z) : Prop :=
  c0 <= fst st /\ StronglySorted Z.lt (snd st) /\
  Forall (fun n => c0 <= n < fst st) (snd st).

(** The character a match stands after when it has read the word [w]
    from a position that [p] came before. *)
Fixpoint lastChar (p : option ascii) (w : string) : option ascii :=
  match w with
  | EmptyString => p
  | String c w' => lastChar (Some c) w'
  end.

(** The per-file separator, as a word. *)
Definition separator : string := "diff --git".

(** The strings of decimal digits, and the optional length field of a hunk
    header: nothing, or a comma followed by digits. *)
Fixpoint digits (s : string) : bool :=
  match s with
  | EmptyString => true
  | String c s' => isDigit c && digits s'
  end.

Definition optLength (b : string) : bool :=
  match b with
  | EmptyString => true
  | String c ds => Ascii.eqb c "," && digits ds
  end.

Definition notDigitFirst (s : string) : bool :=
  match s with
  | EmptyString => true
  | String c _ => negb (isDigit c)
  end.

(** A line of the hunk-header grammar, from its fields:
    [@@ -a b +c d @@rest]. *)
Definition hunkHeaderLine (a b c d rest : string) : string :=
  "@@ -" ++ a ++ b ++ " +" ++ c ++ d ++ " @@" ++ rest.

(* ================================================================== *)
(** * reviewPR: the whole review, with the diff source and the comment sink *)
(* ================================================================== *)

(** What [displayReviews] prints, one item per call of [console.log]: the
    header, then for each review its filename, a rule, its comments with
    their lines, and an empty line. *)
Inductive ConsoleItem : Type :=
| ResultsHeader
| FileHeader (filename : string)
| Rule
| CommentLine (line : JSValue) (body : string)
| Blank.

(** What a whole review tells the spinner, the logger and the console: the
    events of the per-file loop, and those only [reviewPR] and the comment
    sink produce. [LoggerInfoPosted] is the 'Posted comment on path:line'
    message, with the two values it shows. *)
Inductive PREvent : Type :=
| Ev (e : Event)
| SpinnerWarn (msg : string)
| LoggerInfoPosted (path : string) (line : JSValue)
| ConsoleLog (item : ConsoleItem).

Module Pipeline.

Import PRReviewService.

(** A number in a template string. *)
Definition showZ (n : Z) : string :=
  if n <? 0 then "-" ++ showNat (Z.to_nat (- n)) else showNat (Z.to_nat n).

(** [files.slice(0, end)] for an integer [end]: a negative [end] counts
    from the end of the array. *)
Definition slice0 {A : Type} (files : list A) (finish : Z) : list A :=
  firstn (Z.to_nat (if finish <? 0
                    then Z.max (Z.of_nat (length files) + finish) 0
                    else finish)) files.

Section ReviewPR.

(** The collaborators: the three calls of the hosting platform's client
    (the pull request, its diff, the creation of a review comment), the
    issue finder, the text of a comment, and the two configured caps. *)
Variable World : Type.
Variable pullsGet :
  string -> string -> Z -> World -> (Error + PRDetails.t) * World.
Variable pullsGetDiff :
  string -> string -> Z -> World -> (Error + string) * World.
Variable createReviewComment :
  string -> string -> Z -> Comment.t -> World -> (Error + unit) * World.
Variable analyzeCode :
  string -> Context.t -> World -> (Error + Analysis.t) * World.
Variable formatComment : Issue.t -> string.
Variable maxDiffSize : Z.
Variable maxFilesPerReview : Z.

Record PRState : Type := mkPRState { prWorld : World; prTrace : list PREvent }.

(** A computation of the review: it returns or throws. *)
Definition PM (A : Type) : Type := PRState -> (Error + A) * PRState.

Definition pret {A : Type} (a : A) : PM A := fun st => (inr a, st).

Definition pbind {A B : Type} (c : PM A) (f : A -> PM B) : PM B := fun st =>
  match c st with
  | (inr a, st') => f a st'
  | (inl e, st') => (inl e, st')
  end.

Definition pthrow {A : Type} (e : Error) : PM A := fun st => (inl e, st).

Definition ptry {A : Type} (c : PM A) (handler : Error -> PM A) : PM A :=
  fun st =>
    match c st with
    | (inr a, st') => (inr a, st')
    | (inl e, st') => handler e st'
    end.

Definition pemit (ev : PREvent) : PM unit := fun st =>
  (inr tt, mkPRState (prWorld st) (prTrace st ++ [ev])%list).

(** An awaited call of a collaborator. *)
Definition call {A : Type} (f : World -> (Error + A) * World) : PM A :=
  fun st => let '(r, w) := f (prWorld st) in (r, mkPRState w (prTrace st)).

(** The per-file loop, run inside the review: its events join the trace. *)
Definition inLoop {A : Type} (c : M World A) : PM A := fun st =>
  let '(r, st') := c (mkState (prWorld st) []) in
  (r, mkPRState (world st') (prTrace st ++ map Ev (trace st'))%list).

Notation "x <- c ;; k" := (pbind c (fun x => k))
  (at level 61, c at next level, right associativity).
Notation "c ;; k" := (pbind c (fun _ => k))
  (at level 61, right associativity).

(** ** GitHubService *)

Definition getPRDetails (owner repo : string) (prNumber : Z)
  : PM PRDetails.t :=
  ptry (call (pullsGet owner repo prNumber))
       (fun error =>
          pemit (Ev (LoggerError "Failed to fetch PR details:" error)) ;;
          pthrow (mkError ("Failed to fetch PR details: " ++ message error))).

Definition getPRDiff (owner repo : string) (prNumber : Z) : PM string :=
  ptry (call (pullsGetDiff owner repo prNumber))
       (fun error =>
          pemit (Ev (LoggerError "Failed to fetch PR diff:" error)) ;;
          pthrow (mkError ("Failed to fetch PR diff: " ++ message error))).

Definition postReviewComment (owner repo : string) (prNumber : Z)
           (comment : Comment.t) : PM unit :=
  ptry (call (createReviewComment owner repo prNumber comment) ;;
        pemit (LoggerInfoPosted (Comment.path comment) (Comment.line comment)))
       (fun error =>
          pemit (Ev (LoggerError "Failed to post review comment:" error)) ;;
          pthrow (mkError ("Failed to post review comment: " ++
                           message error))).

(** ** postReviews and displayReviews *)

(** [for (const comment of allComments) await postReviewComment(...)] *)
Fixpoint postComments (owner repo : string) (prNumber : Z)
         (allComments : list Comment.t) : PM unit :=
  match allComments with
  | [] => pret tt
  | comment :: rest =>
      postReviewComment owner repo prNumber comment ;;
      postComments owner repo prNumber rest
  end.

Definition postReviews (owner repo : string) (prNumber : Z)
           (reviews : list Review.t) : PM unit :=
  let allComments := flat_map Review.comments reviews in
  postComments owner repo prNumber allComments.

Fixpoint displayComments (comments : list Comment.t) : PM unit :=
  match comments with
  | [] => pret tt
  | comment :: rest =>
      pemit (ConsoleLog (CommentLine (Comment.line comment)
                                     (Comment.body comment))) ;;
      displayComments rest
  end.

Fixpoint displayEach (reviews : list Review.t) : PM unit :=
  match reviews with
  | [] => pret tt
  | review :: rest =>
      pemit (ConsoleLog (FileHeader (Review.filename review))) ;;
      pemit (ConsoleLog Rule) ;;
      displayComments (Review.comments review) ;;
      pemit (ConsoleLog Blank) ;;
      displayEach rest
  end.

Definition displayReviews (reviews : list Review.t) : PM unit :=
  pemit (ConsoleLog ResultsHeader) ;;
  displayEach reviews.

(** ** reviewPR *)

Definition reviewPR (owner repo : string) (prNumber : Z) (dryRun : bool)
  : PM unit :=
  pemit (Ev (SpinnerStart "Fetching PR details...")) ;;
  ptry
    (prDetails <- getPRDetails owner repo prNumber ;;
     pemit (Ev (SpinnerSucceed ("Found PR #" ++ showZ prNumber ++ ": " ++
                                PRDetails.title prDetails))) ;;
     pemit (Ev (SpinnerStart "Fetching PR diff...")) ;;
     diff <- getPRDiff owner repo prNumber ;;
     pemit (Ev (SpinnerSucceed "PR diff fetched successfully")) ;;
     pemit (Ev (SpinnerStart "Analyzing changed files...")) ;;
     let changedFiles := parseGitDiff diff in
     let filteredFiles := filterRelevantFiles changedFiles in
     if (length filteredFiles =? 0)%nat then
       pemit (SpinnerWarn "No relevant files found for review") ;;
       pret tt
     else
       pemit (Ev (SpinnerSucceed ("Found " ++ showNat (length filteredFiles) ++
                                  " files to review"))) ;;
       reviews <- inLoop (reviewLoop analyzeCode formatComment maxDiffSize
                            prDetails
                            (slice0 filteredFiles maxFilesPerReview) []) ;;
       if (0 <? length reviews)%nat then
         if dryRun then
           pemit (Ev (SpinnerInfo
                        "Dry run mode - displaying reviews without posting")) ;;
           displayReviews reviews
         else
           pemit (Ev (SpinnerStart "Posting reviews to GitHub...")) ;;
           postReviews owner repo prNumber reviews ;;
           pemit (Ev (SpinnerSucceed "Reviews posted successfully"))
       else
         pemit (Ev (SpinnerInfo "No reviews to post")))
    (fun error =>
       pemit (Ev (SpinnerFail "PR review failed")) ;;
       pthrow error).

End ReviewPR.

Arguments mkPRState {World}.
Arguments prWorld {World}.
Arguments prTrace {World}.
Arguments pret {World A}.
Arguments pbind {World A B}.
Arguments pthrow {World A}.
Arguments ptry {World A}.
Arguments pemit {World}.
Arguments call {World A}.
Arguments inLoop {World A}.
Arguments getPRDetails {World}.
Arguments getPRDiff {World}.
Arguments postReviewComment {World}.
Arguments postComments {World}.
Arguments postReviews {World}.
Arguments displayComments {World}.
Arguments displayEach {World}.
Arguments displayReviews {World}.
Arguments reviewPR {World}.

End Pipeline.

(* ================================================================== *)
(** * Regular expressions: classes, alternatives and word boundaries *)
(* ================================================================== *)

(** The patterns of [getFileComplexity], [parsePRUrl] and
    [parseTextAnalysis] use more of the pattern language: character classes,
    alternatives and [\b]. The matcher is the one above, with the same
    states, continuations and greedy repetition. *)

Module RegexExt.

Inductive regex : Type :=
| Eps                             (* the empty pattern *)
| Class (p : ascii -> bool)       (* one character of a class *)
| Bol                             (* ^ *)
| WordBoundary                    (* \b *)
| Cat (r1 r2 : regex)             (* r1 r2 *)
| Alt (r1 r2 : regex)             (* r1|r2 *)
| Opt (r : regex)                 (* r? *)
| Star (r : regex)                (* r* *)
| Plus (r : regex)                (* r+ *)
| Group (n : nat) (r : regex).    (* the n-th capturing group *)

Definition Chr (c : ascii) : regex := Class (Ascii.eqb c).
(** [[^c]] *)
Definition NotChr (c : ascii) : regex := Class (fun x => negb (Ascii.eqb c x)).
(** [\d] and [\s] *)
Definition Digit : regex := Class JS.isDigit.
Definition Space : regex := Class JS.isWhiteSpace.
(** A pattern that matches nothing. *)
Definition Fail : regex := Class (fun _ => false).

Fixpoint Lit (s : string) : regex :=
  match s with
  | EmptyString => Eps
  | String c EmptyString => Chr c
  | String c s' => Cat (Chr c) (Lit s')
  end.

Fixpoint Seq (rs : list regex) : regex :=
  match rs with
  | [] => Eps
  | [r] => r
  | r :: rs' => Cat r (Seq rs')
  end.

(** [r1|r2|...] *)
Fixpoint Alts (rs : list regex) : regex :=
  match rs with
  | [] => Fail
  | [r] => r
  | r :: rs' => Alt r (Alts rs')
  end.

(** [\w] *)
Definition isWordChar (c : ascii) : bool :=
  let n := nat_of_ascii c in
  ((48 <=? n) && (n <=? 57) || (65 <=? n) && (n <=? 90) ||
   (97 <=? n) && (n <=? 122) || (n =? 95))%nat.

Definition isWordBefore (p : option ascii) : bool :=
  match p with Some c => isWordChar c | None => false end.

Definition isWordAfter (s : string) : bool :=
  match s with String c _ => isWordChar c | EmptyString => false end.

Section Matcher.

Variable multiline : bool.

Fixpoint run (r : regex) : Regex.matcher :=
  match r with
  | Eps => fun st k => k st
  | Class p => Regex.char_matcher p
  | Bol => fun st k =>
      match Regex.prev st with
      | None => k st
      | Some c => if multiline && JS.isLineTerminator c then k st else None
      end
  | WordBoundary => fun st k =>
      if xorb (isWordBefore (Regex.prev st)) (isWordAfter (Regex.rest st))
      then k st else None
  | Cat r1 r2 => fun st k => run r1 st (fun st' => run r2 st' k)
  | Alt r1 r2 => fun st k =>
      match run r1 st k with
      | Some res => Some res
      | None => run r2 st k
      end
  | Opt r' => fun st k =>
      match run r' st k with
      | Some res => Some res
      | None => k st
      end
  | Star r' => fun st k =>
      Regex.repeat_matcher (run r') k (String.length (Regex.rest st)) st
  | Plus r' => fun st k =>
      run r' st (fun st1 =>
        Regex.repeat_matcher (run r') k (String.length (Regex.rest st1)) st1)
  | Group n r' => fun st k =>
      run r' st (fun st' =>
        let len := (String.length (Regex.rest st) -
                    String.length (Regex.rest st'))%nat in
        k (Regex.MState (Regex.prev st') (Regex.rest st')
             ((n, Regex.take len (Regex.rest st)) :: Regex.caps st')))
  end.

Definition match_here (r : regex) (p : option ascii) (s : string)
  : option Regex.mstate :=
  run r (Regex.MState p s []) (fun st => Some st).

Fixpoint exec_from (r : regex) (p : option ascii) (s : string)
  : option Regex.mstate :=
  match match_here r p s with
  | Some st => Some st
  | None =>
      match s with
      | EmptyString => None
      | String c s' => exec_from r (Some c) s'
      end
  end.

Definition exec (r : regex) (s : string) : option Regex.mstate :=
  exec_from r None s.

(** [r.test(s)], and the truthiness of [s.match(r)]. *)
Definition test (r : regex) (s : string) : bool :=
  match exec r s with Some _ => true | None => false end.

(** [s.replace(r, '')]: the first match of [r] is taken out; [acc] is the
    text before the position being tried. *)
Fixpoint remove_from (r : regex) (p : option ascii) (s acc : string)
  : string :=
  match match_here r p s with
  | Some st => acc ++ Regex.rest st
  | None =>
      match s with
      | EmptyString => acc
      | String c s' => remove_from r (Some c) s' (acc ++ String c EmptyString)
      end
  end.

Definition remove (r : regex) (s : string) : string :=
  remove_from r None s EmptyString.

End Matcher.

End RegexExt.

(* ================================================================== *)
(** * CodeAnalyzer: the complexity of a patch *)
(* ================================================================== *)

Module Complexity.

Import RegexExt.

Definition keywords : list string :=
  ["if"; "for"; "while"; "switch"; "catch"; "function"; "class"].

(** [/\b(if|for|while|switch|catch|function|class)\b/] *)
Definition complexityRe : regex :=
  Seq [WordBoundary; Group 1 (Alts (map Lit keywords)); WordBoundary].

(** The body of the [forEach]. *)
Definition complexityStep (complexity : Z) (line : string) : Z :=
  if test false complexityRe line then complexity + 1 else complexity.

Definition getFileComplexity (patch : string) : Z :=
  let lines := split_lines patch in
  fold_left complexityStep lines 0.

End Complexity.

(* ================================================================== *)
(** * parsePRUrl *)
(* ================================================================== *)

Module PRUrl.

Import RegexExt.

Record PRRef : Type := mkPRRef {
  owner : string;
  repo : string;
  prNumber : Z
}.

(** [/https?:\/\/github\.com\/([^\/]+)\/([^\/]+)\/pull\/(\d+)/] and the same
    with [pulls]. *)
Definition urlPattern (word : string) : regex :=
  Seq [Lit "http"; Opt (Chr "s"); Lit "://github.com/";
       Group 1 (Plus (NotChr "/")); Chr "/";
       Group 2 (Plus (NotChr "/")); Chr "/"; Lit word; Chr "/";
       Group 3 (Plus Digit)].

Definition patterns : list regex := [urlPattern "pull"; urlPattern "pulls"].

(** [for (const pattern of patterns) { ... }]; the three groups take part
    in every match. *)
Fixpoint firstMatch (patterns : list regex) (url : string) : option PRRef :=
  match patterns with
  | [] => None
  | pattern :: rest =>
      match exec false pattern url with
      | Some m =>
          match Regex.capture 1 (Regex.caps m), Regex.capture 2 (Regex.caps m),
                Regex.capture 3 (Regex.caps m) with
          | Some g1, Some g2, Some g3 => Some (mkPRRef g1 g2 (JS.parseInt g3))
          | _, _, _ => None
          end
      | None => firstMatch rest url
      end
  end.

Definition parsePRUrl (url : string) : option PRRef :=
  firstMatch patterns url.

End PRUrl.

(* ================================================================== *)
(** * OpenAIService: parseTextAnalysis *)
(* ================================================================== *)

Module TextAnalysis.

Import RegexExt.

(** An issue as the text parser builds it, and the object it returns. *)
Record TextIssue : Type := mkTextIssue {
  title : string;
  description : string;
  severity : string;
  category : string
}.

Record t : Type := mk {
  summary : string;
  issues : list TextIssue;
  positives : list string;
  score : Z
}.

(** [/^\d+\./] and [/^\d+\.\s*/] *)
Definition markerRe : regex := Seq [Bol; Plus Digit; Chr "."].
Definition markerPrefixRe : regex :=
  Seq [Bol; Plus Digit; Chr "."; Star Space].

Definition pushCurrent (issues : list TextIssue)
           (currentIssue : option TextIssue) : list TextIssue :=
  match currentIssue with
  | Some issue => (issues ++ [issue])%list
  | None => issues
  end.

(** The body of the [forEach]: the locals are [issues] and
    [currentIssue]. *)
Definition textStep (st : list TextIssue * option TextIssue) (line : string)
  : list TextIssue * option TextIssue :=
  let '(issues, currentIssue) := st in
  let line := JS.trim line in
  if test false markerRe line then
    (pushCurrent issues currentIssue,
     Some (mkTextIssue (remove false markerPrefixRe line) "" "info" "quality"))
  else
    match currentIssue with
    | Some issue =>
        if JS.truthy line
        then (issues,
              Some (mkTextIssue (title issue)
                                (description issue ++ line ++ " ")
                                (severity issue) (category issue)))
        else st
    | None => st
    end.

Definition parseTextAnalysis (analysis : string) : t :=
  let lines := split_lines analysis in
  let '(issues, currentIssue) := fold_left textStep lines ([], None) in
  mk "Code review completed" (pushCurrent issues currentIssue) [] 75.

(** The issue record [parseAnalysisToComments] and [formatComment] read
    from an issue of the text parser: the properties it has, and
    [undefined] for the others. *)
Definition issueOf (issue : TextIssue) : Issue.t :=
  Issue.mk JUndefined (JString (title issue)) (JString (description issue))
           (JString (severity issue)) JUndefined JUndefined JUndefined.

Definition asAnalysis (analysis : t) : Analysis.t :=
  Analysis.mk (Some (map issueOf (issues analysis))).

End TextAnalysis.

(* ================================================================== *)
(** * CodeAnalyzer: the change types of a patch *)
(* ================================================================== *)

Module ChangeTypes.

(** [types.add(t)] on a [Set] of strings, kept in insertion order as
    [Array.from] lists it. *)
Definition setAdd (t : string) (types : list string) : list string :=
  if existsb (String.eqb t) types then types else (types ++ [t])%list.

(** The chain of tests on an added line. *)
Definition changeTypeOf (line : string) : string :=
  if includes line "import" || includes line "require" then "dependency"
  else if includes line "function" || includes line "class" then "structure"
  else if includes line "test" || includes line "spec" then "test"
  else if includes line "TODO" || includes line "FIXME" then "comment"
  else "logic".

(** The body of the [forEach] of [getChangeTypes]. *)
Definition changeStep (types : list string) (line : string) : list string :=
  if startsWith line "+" && negb (startsWith line "+++")
  then setAdd (changeTypeOf line) types
  else types.

Definition getChangeTypes (patch : string) : list string :=
  let lines := split_lines patch in
  fold_left changeStep lines [].

End ChangeTypes.

(* ================================================================== *)
(** * OpenAIService: the request and its fallback *)
(* ================================================================== *)

Module OpenAIRequest.

(** What the service tells the logger. *)
Inductive LogEvent : Type :=
| Info (msg : string)
| Warn (msg : string)
| Err (msg : string).

(** [models.join(', ')] *)
Fixpoint joinModels (models : list string) : string :=
  match models with
  | [] => ""
  | [m] => m
  | m :: models' => m ++ ", " ++ joinModels models'
  end.

(** A model in a template string: [this.model] is [undefined] when the
    environment names none. *)
Definition showModel (model : option string) : string :=
  match model with
  | Some m => m
  | None => "undefined"
  end.

Section Requests.

Variable World : Type.
Variable Response : Type.
(** [this.openai.chat.completions.create] with the model, the system prompt
    and the prompt: the client answers, or rejects with anything. *)
Variable create :
  option string -> string -> string -> World -> (Thrown + Response) * World.
Variable getSystemPrompt : Context.t -> string.
(** [error.status], for a thrown value whose properties can be read. *)
Variable status : Error -> JSValue.
(** The [TypeError] of the engine for a property read on [null] or
    [undefined]. *)
Variable typeError : Error.
(** [this.model] *)
Variable thisModel : option string.

Definition fallbackModels : list string := ["gpt-3.5-turbo"].

Record State : Type := mkState { world : World; logged : list LogEvent }.

Definition Outcome : Type := option ((Thrown + Response) * State).

Definition log (ev : LogEvent) (st : State) : State :=
  mkState (world st) (logged st ++ [ev]).

(** [modelToTry || this.model] *)
Definition modelFor (modelToTry : option string) : option string :=
  match modelToTry with
  | Some m => if JS.truthy m then Some m else thisModel
  | None => thisModel
  end.

(** [error.status === 404 && (error.message?.includes('does not exist') ||
    error.message?.includes('do not have access'))] *)
Definition modelUnavailable (error : Error) : bool :=
  match status error with
  | JNumber n =>
      (n =? 404) &&
      (JS.includes (message error) "does not exist" ||
       JS.includes (message error) "do not have access")
  | _ => false
  end.

(** [fallbackModel !== model] *)
Definition differs (fallbackModel : string) (model : option string) : bool :=
  match model with
  | Some m => negb (String.eqb fallbackModel m)
  | None => true
  end.

(** The loop over the fallback models, in the catch clause, and the [throw]
    after it; [request] is the call of [makeOpenAIRequest] for a fallback
    model. *)
Fixpoint tryFallbacks (request : string -> State -> Outcome)
         (model : option string) (models : list string) (st : State)
  : Outcome :=
  match models with
  | [] =>
      Some (inl (Raised (mkError
              ("None of the available models (" ++ showModel model ++ ", " ++
               joinModels fallbackModels ++
               ") are accessible with your API key. Please check your OpenAI account permissions or run 'npm run setup' to reconfigure."))),
            st)
  | fallbackModel :: models' =>
      if differs fallbackModel model then
        match request fallbackModel
                (log (Info ("Trying fallback model: " ++ fallbackModel)) st) with
        | None => None
        | Some (inr response, st') => Some (inr response, st')
        | Some (inl Nullish, st') =>
            (* [fallbackError.message] cannot be read *)
            Some (inl (Raised typeError), st')
        | Some (inl (Raised fallbackError), st') =>
            tryFallbacks request model models'
              (log (Warn ("Fallback model " ++ fallbackModel ++
                          " also failed: " ++ message fallbackError)) st')
        end
      else tryFallbacks request model models' st
  end.

(** [makeOpenAIRequest(prompt, context, modelToTry)]; [fuel] bounds the
    depth of the calls for fallback models, and [None] is a run that needs
    more. *)
Fixpoint makeOpenAIRequest (fuel : nat) (prompt : string) (context : Context.t)
         (modelToTry : option string) (st : State) : Outcome :=
  match fuel with
  | O => None
  | S fuel' =>
      let model := modelFor modelToTry in
      let st1 := log (Info ("Attempting to use model: " ++ showModel model)) st in
      match create model (getSystemPrompt context) prompt (world st1) with
      | (inr response, w) => Some (inr response, mkState w (logged st1))
      | (inl Nullish, w) =>
          (* [error.status] cannot be read *)
          Some (inl (Raised typeError), mkState w (logged st1))
      | (inl (Raised error), w) =>
          let st2 := mkState w (logged st1) in
          if modelUnavailable error then
            tryFallbacks
              (fun fallbackModel =>
                 makeOpenAIRequest fuel' prompt context (Some fallbackModel))
              model fallbackModels
              (log (Warn ("Model " ++ showModel model ++
                          " not available, trying fallback models...")) st2)
          else
            Some (inl (Raised error),
                  log (Err ("OpenAI request failed: " ++ message error)) st2)
      end
  end.

End Requests.

Arguments mkState {World}.
Arguments world {World}.
Arguments logged {World}.
Arguments log {World}.
Arguments tryFallbacks {World Response}.
Arguments makeOpenAIRequest {World Response}.

(** A client that rejects with [null], to run a request on. *)
Definition nullClient (model : option string) (systemPrompt prompt : string)
           (w : unit) : (Thrown + string) * unit :=
  (inl Nullish, w).

End OpenAIRequest.

(** No dot in [s]. *)
Fixpoint noDot (s : string) : bool :=
  match s with
  | EmptyString => true
  | String c s' => negb (Ascii.eqb c ".") && noDot s'
  end.

(** A review the loop may add when it runs over [files]: it has comments,
    and it bears the name of one of the files, as do all its comments. *)
Definition reviewOf (files : list FileInfo) (r : Review.t) : Prop :=
  Review.comments r <> [] /\
  exists file,
    In file files /\ Review.filename r = filename file /\
    Forall (fun c => Comment.path c = filename file) (Review.comments r).

(** An issue finder that always answers with one issue. *)
Definition answeringFinder (diff : string) (context : Context.t) (w : unit)
  : (Error + Analysis.t) * unit :=
  (inr (Analysis.mk
          (Some [Issue.mk (JNumber 2) (JString "t") (JString "d")
                          (JString "low") JUndefined JUndefined JUndefined])),
   w).

(** The number of times the spinner was started on a file, in the trace of
    a review. *)
Definition isReviewingStart (ev : PREvent) : bool :=
  match ev with
  | Ev (SpinnerStart msg) => startsWith msg "Reviewing "
  | _ => false
  end.

Definition reviewingStarts (tr : list PREvent) : nat :=
  length (filter isReviewingStart tr).

(** [adds n c]: the computation [c] starts the spinner on at most [n]
    files. *)
Definition adds {World A : Type} (n : nat) (c : Pipeline.PM World A) : Prop :=
  forall st r st',
    c st = (r, st') ->
    (reviewingStarts (Pipeline.prTrace st') <=
     reviewingStarts (Pipeline.prTrace st) + n)%nat.

(** A diff source and a comment sink to run a review with: the pull request
    is always found, the diff is the one given, every comment is refused. *)
Definition foundPR (owner repo : string) (prNumber : Z) (w : unit)
  : (Error + PRDetails.t) * unit :=
  (inr (PRDetails.mk "Add feature" None), w).

Definition lostPR (owner repo : string) (prNumber : Z) (w : unit)
  : (Error + PRDetails.t) * unit :=
  (inl (mkError "Not Found"), w).

Definition diffOf (diff : string) (owner repo : string) (prNumber : Z)
           (w : unit) : (Error + string) * unit :=
  (inr diff, w).

Definition refusingSink (owner repo : string) (prNumber : Z)
           (comment : Comment.t) (w : unit) : (Error + unit) * unit :=
  (inl (mkError "Validation Failed"), w).

Definition acceptingSink (owner repo : string) (prNumber : Z)
           (comment : Comment.t) (w : unit) : (Error + unit) * unit :=
  (inr tt, w).

Definition sampleDiff : string :=
  join_lines ["diff --git a/a.js b/a.js"; "@@ -1 +1,2 @@"; " x"; "+y";
              "diff --git a/b.ts b/b.ts"; "@@ -1 +1,2 @@"; " x"; "+y";
              "diff --git a/README.md b/README.md"; "@@ -1 +1,2 @@"; "+z"].

(** Every character of [s] is in the class [p]; and the first character of
    [s], if any, is not. *)
Fixpoint allOf (p : ascii -> bool) (s : string) : bool :=
  match s with
  | EmptyString => true
  | String c s' => p c && allOf p s'
  end.

Definition firstFails (p : ascii -> bool) (s : string) : bool :=
  match s with
  | EmptyString => true
  | String c _ => negb (p c)
  end.

Definition notSlash (c : ascii) : bool := negb (Ascii.eqb "/" c).

(** A keyword of [getFileComplexity] stands at the start of [s], as a whole
    word, when [p] is the character before [s]; and somewhere in [s]. *)
Definition keywordHere (p : option ascii) (s : string) : bool :=
  negb (RegexExt.isWordBefore p) &&
  existsb (fun kw => startsWith s kw &&
                     negb (RegexExt.isWordAfter
                             (dropChars (String.length kw) s)))
          Complexity.keywords.

Fixpoint keywordFrom (p : option ascii) (s : string) : bool :=
  keywordHere p s ||
  match s with
  | EmptyString => false
  | String c s' => keywordFrom (Some c) s'
  end.

Definition isSome {A : Type} (o : option A) : bool :=
  match o with Some _ => true | None => false end.

(** The lines [parseTextAnalysis] starts an issue at. *)
Definition isMarkerLine (line : string) : bool :=
  RegexExt.test false TextAnalysis.markerRe (trim line).

(** The address of a pull request, as the hosting platform writes it. *)
Definition pullUrl (secure : bool) (owner repo : string) (n : nat) : string :=
  "http" ++ (if secure then "s" else "") ++ "://github.com/" ++
  owner ++ "/" ++ repo ++ "/pull/" ++ PRReviewService.showNat n.

(** What every issue of the text parser is tagged with. *)
Definition defaultTags (issue : TextAnalysis.TextIssue) : Prop :=
  TextAnalysis.severity issue = "info" /\
  TextAnalysis.category issue = "quality".

(** A pattern of the first matcher, as a pattern of the extended one. *)
Fixpoint embed (r : Regex.regex) : RegexExt.regex :=
  match r with
  | Regex.Eps => RegexExt.Eps
  | Regex.Chr c => RegexExt.Chr c
  | Regex.Digit => RegexExt.Digit
  | Regex.Dot => RegexExt.Class (fun c => negb (JS.isLineTerminator c))
  | Regex.Bol => RegexExt.Bol
  | Regex.Cat r1 r2 => RegexExt.Cat (embed r1) (embed r2)
  | Regex.Opt r' => RegexExt.Opt (embed r')
  | Regex.Star r' => RegexExt.Star (embed r')
  | Regex.Plus r' => RegexExt.Plus (embed r')
  | Regex.Group n r' => RegexExt.Group n (embed r')
  end.

(* ================================================================== *)
(** * The embedding on concrete inputs *)
(* ================================================================== *)

Module Examples.

(** The hunk-header pattern: the lengths are optional, text may follow the
    closing [@@], and the pattern is anchored at the start of the line. *)
Example hunkHeader_plain :
  option_map (fun m => capture 1 (caps m))
             (exec false hunkHeaderRe "@@ -12,7 +15,9 @@ function f() {") =
  Some (Some "15").
Proof. vm_compute. reflexivity. Qed.

Example hunkHeader_no_lengths :
  option_map (fun m => capture 1 (caps m))
             (exec false hunkHeaderRe "@@ -1 +1 @@") = Some (Some "1").
Proof. vm_compute. reflexivity. Qed.

Example hunkHeader_unclosed : exec false hunkHeaderRe "@@ -1,3 +1,4" = None.
Proof. vm_compute. reflexivity. Qed.

Example hunkHeader_not_at_start :
  exec false hunkHeaderRe " @@ -1,3 +1,4 @@" = None.
Proof. vm_compute. reflexivity. Qed.

(** The filename pattern: the first group is greedy, so the second one
    starts after the last [ b/]. *)
Example filename_greedy :
  option_map (fun m => capture 2 (caps m))
             (exec false filenameRe " a/x b/y b/z.ts") = Some (Some "z.ts").
Proof. vm_compute. reflexivity. Qed.

Example filename_stops_at_CR :
  option_map (fun m => capture 2 (caps m))
             (exec false filenameRe (" a/x.js b/x.js" ++ String JS.CR "")) =
  Some (Some "x.js").
Proof. vm_compute. reflexivity. Qed.

(** The separator only counts at the start of a line; the text before the
    first separator is a section of its own. *)
Example sections_of_a_diff :
  fileSections
    (join_lines ["diff --git a/a.js b/a.js"; "@@ -1 +1 @@"; "-x"; "+y";
                 " see diff --git"; "diff --git a/b.js b/b.js"]) =
  [""; join_lines [" a/a.js b/a.js"; "@@ -1 +1 @@"; "-x"; "+y";
                   " see diff --git"; ""];
   " a/b.js b/b.js"].
Proof. vm_compute. reflexivity. Qed.

Example sections_of_nothing : fileSections "" = [""].
Proof. vm_compute. reflexivity. Qed.

Example parseGitDiff_two_files :
  parseGitDiff
    (join_lines ["diff --git a/src/a.js b/src/a.js"; "index 1..2 100644";
                 "--- a/src/a.js"; "+++ b/src/a.js"; "@@ -1,3 +1,3 @@";
                 " context"; "+added1"; "-removed";
                 "diff --git a/old.txt b/new.txt"; "similarity index 100%";
                 "rename from old.txt"; "rename to new.txt"]) =
  [mkFileInfo "src/a.js" modified 1 1
     (join_lines ["@@ -1,3 +1,3 @@"; " context"; "+added1"; "-removed"; ""]);
   mkFileInfo "new.txt" renamed 0 0 ""].
Proof. vm_compute. reflexivity. Qed.

Example trim_both_ends :
  JS.trim (join_lines ["  "; " ab c  "; ""]) = "ab c".
Proof. vm_compute. reflexivity. Qed.

Example extension_of_a_path :
  PRReviewService.getFileExtension "src/app.component.TS" = ".TS" /\
  PRReviewService.detectLanguage ".TS" = "typescript" /\
  PRReviewService.getFileExtension "Makefile" = ".Makefile".
Proof. vm_compute. repeat split. Qed.

End Examples.

(* ================================================================== *)
(** * Facts about the primitives *)
(* ================================================================== *)

Module JSFacts.

Import JS.

Lemma startsWith_nil (s : string) : startsWith s "" = true.
Proof. destruct s; reflexivity. Qed.

Lemma startsWith_cons (c a : ascii) (s p : string) :
  startsWith (String c s) (String a p) = Ascii.eqb a c && startsWith s p.
Proof.
  unfold startsWith; simpl.
  destruct (ascii_dec a c) as [->|Hne].
  - now rewrite Ascii.eqb_refl.
  - apply Ascii.eqb_neq in Hne. now rewrite Hne.
Qed.

Lemma startsWith_empty (a : ascii) (p : string) :
  startsWith "" (String a p) = false.
Proof. reflexivity. Qed.

(** A longer prefix implies a shorter one. *)
Lemma startsWith_app (s p q : string) :
  startsWith s (p ++ q) = true -> startsWith s p = true.
Proof.
  revert s; induction p as [|a p IH]; intros s H.
  - apply startsWith_nil.
  - destruct s as [|c s]; [discriminate|].
    change (String a p ++ q) with (String a (p ++ q)) in H.
    rewrite startsWith_cons in *.
    apply andb_true_iff in H as [-> H]. simpl. now apply IH.
Qed.

(** Two prefixes that differ in their first character exclude each other. *)
Lemma startsWith_first_differs (s : string) (a b : ascii) (p q : string) :
  Ascii.eqb a b = false ->
  startsWith s (String a p) = true -> startsWith s (String b q) = false.
Proof.
  intros Hab H. destruct s as [|c s]; [reflexivity|].
  rewrite startsWith_cons in *.
  apply andb_true_iff in H as [Ha _]. apply Ascii.eqb_eq in Ha. subst c.
  rewrite Ascii.eqb_sym, Hab. reflexivity.
Qed.

Lemma split_lines_nonempty (s : string) : split_lines s <> [].
Proof.
  induction s as [|c s IH]; simpl; [discriminate|].
  destruct (Ascii.eqb c LF); [discriminate|].
  destruct (split_lines s); discriminate.
Qed.

(** The pieces of [split('\n')] hold no line feed. *)
Lemma split_lines_noLF (s : string) :
  Forall (fun l => noLF l = true) (split_lines s).
Proof.
  induction s as [|c s IH]; simpl.
  - repeat constructor.
  - destruct (Ascii.eqb c LF) eqn:Hc.
    + constructor; [reflexivity | exact IH].
    + destruct (split_lines s) as [|l ls].
      * repeat constructor. simpl. now rewrite Hc.
      * inversion IH; subst. constructor; [|assumption].
        simpl. now rewrite Hc.
Qed.

Lemma split_lines_single (l : string) : noLF l = true -> split_lines l = [l].
Proof.
  induction l as [|c l IH]; simpl; [reflexivity|].
  intros H. apply andb_true_iff in H as [Hc Hl].
  apply negb_true_iff in Hc. rewrite Hc, (IH Hl). reflexivity.
Qed.

Lemma split_lines_app (l rest : string) :
  noLF l = true ->
  split_lines (l ++ String LF rest) = l :: split_lines rest.
Proof.
  induction l as [|c l IH]; simpl; [reflexivity|].
  intros H. apply andb_true_iff in H as [Hc Hl].
  apply negb_true_iff in Hc. rewrite Hc, (IH Hl). reflexivity.
Qed.

(** Splitting what was joined gives the lines back. *)
Lemma split_join_lines (ls : list string) :
  ls <> [] -> Forall (fun l => noLF l = true) ls ->
  split_lines (join_lines ls) = ls.
Proof.
  induction ls as [|l ls IH]; [congruence|].
  intros _ H. inversion H as [|? ? Hl Hls]; subst.
  destruct ls as [|l' ls].
  - simpl. now apply split_lines_single.
  - change (join_lines (l :: l' :: ls))
      with (l ++ String LF (join_lines (l' :: ls))).
    rewrite split_lines_app by assumption.
    f_equal. apply IH; [discriminate | assumption].
Qed.

Lemma trimEnd_keeps_first (c : ascii) (s : string) :
  isWhiteSpace c = false -> trimEnd (String c s) <> "".
Proof.
  intros Hc. simpl. rewrite Hc. destruct (trimEnd s); discriminate.
Qed.

Lemma trimStart_whitespaceOnly (s : string) :
  whitespaceOnly s = true <-> trimStart s = "".
Proof.
  induction s as [|c s IH]; simpl; [tauto|].
  destruct (isWhiteSpace c); simpl; [exact IH|].
  split; discriminate.
Qed.

Lemma trimStart_first (s : string) :
  match trimStart s with
  | EmptyString => True
  | String c _ => isWhiteSpace c = false
  end.
Proof.
  induction s as [|c s IH]; simpl; [exact I|].
  destruct (isWhiteSpace c) eqn:Hc; [exact IH | exact Hc].
Qed.

(** [trim] leaves nothing exactly of the strings made of white space. *)
Lemma trim_whitespaceOnly (s : string) :
  truthy (trim s) = negb (whitespaceOnly s).
Proof.
  unfold trim. pose proof (trimStart_first s) as Hf.
  destruct (whitespaceOnly s) eqn:Hw.
  - apply trimStart_whitespaceOnly in Hw. now rewrite Hw.
  - destruct (trimStart s) as [|c t] eqn:Ht.
    + apply trimStart_whitespaceOnly in Ht. congruence.
    + pose proof (trimEnd_keeps_first c t Hf).
      now destruct (trimEnd (String c t)).
Qed.

Lemma split_lines_whitespaceOnly (s : string) :
  whitespaceOnly s = true ->
  Forall (fun l => whitespaceOnly l = true) (split_lines s).
Proof.
  induction s as [|c s IH]; simpl; intros H.
  - repeat constructor.
  - apply andb_true_iff in H as [Hc Hs]. specialize (IH Hs).
    destruct (Ascii.eqb c LF).
    + constructor; [reflexivity | exact IH].
    + destruct (split_lines s) as [|l ls].
      * repeat constructor. simpl. now rewrite Hc.
      * inversion IH; subst. constructor; [|assumption].
        simpl. now rewrite Hc.
Qed.

(** A string of white space does not begin with a word that holds another
    character. *)
Lemma whitespaceOnly_startsWith (s p : string) :
  whitespaceOnly s = true -> whitespaceOnly p = false ->
  startsWith s p = false.
Proof.
  revert s; induction p as [|a p IH]; intros s Hs Hp; [discriminate|].
  destruct s as [|c s]; [reflexivity|].
  rewrite startsWith_cons. simpl in Hs, Hp.
  apply andb_true_iff in Hs as [Hc Hs].
  destruct (Ascii.eqb a c) eqn:Hac; [|reflexivity].
  apply Ascii.eqb_eq in Hac; subst c. rewrite Hc in Hp.
  simpl. now apply IH.
Qed.

End JSFacts.

Module RegexFacts.

Import Regex.

(** A pattern anchored with [^], without the [m] flag, matches nowhere but
    at the start of the input. *)
Lemma exec_from_anchored (r : regex) (c : ascii) (s : string) :
  exec_from false (Cat Bol r) (Some c) s = None.
Proof.
  revert c; induction s as [|d s IH]; intros c; simpl.
  - reflexivity.
  - apply IH.
Qed.

Lemma run_begins (ml : bool) (a : ascii) (r : regex) :
  begins a r = true ->
  forall st k, JS.startsWith (rest st) (String a "") = false ->
               run ml r st k = None.
Proof.
  induction r; simpl; try discriminate; intros Hb st k Hst.
  - apply Ascii.eqb_eq in Hb; subst c.
    unfold char_matcher. destruct (rest st) as [|c s]; [reflexivity|].
    rewrite JSFacts.startsWith_cons, JSFacts.startsWith_nil, andb_true_r in Hst.
    now rewrite Hst.
  - now apply IHr1.
  - now apply IHr.
  - now apply IHr.
Qed.

(** An anchored pattern whose matches begin with [a] only matches inputs
    beginning with [a]. *)
Lemma exec_anchored_begins (a : ascii) (r : regex) (s : string) (m : mstate) :
  begins a r = true ->
  exec false (Cat Bol r) s = Some m ->
  JS.startsWith s (String a "") = true.
Proof.
  intros Hb. unfold exec.
  destruct (JS.startsWith s (String a "")) eqn:Hs; [reflexivity|].
  assert (Hm : match_here false (Cat Bol r) None s = None)
    by (unfold match_here; simpl; now apply run_begins with (a := a)).
  destruct s as [|c s]; simpl; rewrite Hm; [discriminate|].
  now rewrite exec_from_anchored.
Qed.

End RegexFacts.

(* ================================================================== *)
(** * Properties of the Line-Address Reconciler and the Patch Builder *)
(* ================================================================== *)

Module CodeAnalyzerFacts.

Import JS Regex CodeAnalyzer JSFacts RegexFacts.

(** A line the hunk-header pattern matches begins with [@]. *)
Lemma hunkHeader_begins (line : string) (m : mstate) :
  exec false hunkHeaderRe line = Some m -> startsWith line "@" = true.
Proof.
  unfold hunkHeaderRe. cbn [Seq]. intros H.
  now apply exec_anchored_begins with (a := "@"%char) (2 := H).
Qed.

(** A line beginning with [+] or [-] is not a hunk header. *)
Lemma not_hunkHeader (line : string) (a : ascii) (p : string) :
  Ascii.eqb "@" a = false ->
  startsWith line (String a p) = true ->
  exec false hunkHeaderRe line = None.
Proof.
  intros Ha Hl. destruct (exec false hunkHeaderRe line) eqn:E; [|reflexivity].
  apply hunkHeader_begins in E.
  now rewrite (startsWith_first_differs line "@" a "" p Ha E) in Hl.
Qed.

(** What a line adds to [lineNumbers]: an entry exactly for an addition. *)
Lemma lineStep_entries (currentLine : Z) (lineNumbers : list Z) (line : string) :
  snd (lineStep (currentLine, lineNumbers) line) =
  if isAddition line then (lineNumbers ++ [currentLine])%list else lineNumbers.
Proof.
  unfold lineStep, isAddition.
  destruct (exec false hunkHeaderRe line) as [m|] eqn:E.
  - apply hunkHeader_begins in E.
    rewrite (startsWith_first_differs line "@" "+" "" "" eq_refl E). simpl.
    now destruct (capture 1 (caps m)).
  - destruct (startsWith line "+" && negb (startsWith line "+++")); [reflexivity|].
    now destruct (negb (startsWith line "-") && negb (startsWith line "---")).
Qed.

Lemma lineStep_fold_length (lines : list string) (st : Z * list Z) :
  length (snd (fold_left lineStep lines st)) =
  (length (snd st) + length (filter isAddition lines))%nat.
Proof.
  revert st; induction lines as [|line lines IH]; intros [c acc];
    cbn [fold_left filter].
  - simpl. lia.
  - rewrite IH, lineStep_entries.
    destruct (isAddition line); cbn [snd length]; [rewrite length_app|];
      simpl; lia.
Qed.

(** [countStep] only touches the two counters. *)
Lemma countStep_fold (lines : list string) (fi : FileInfo) :
  let fi' := fold_left countStep lines fi in
  additions fi' = additions fi + Z.of_nat (length (filter isAddition lines)) /\
  deletions fi' = deletions fi + Z.of_nat (length (filter isDeletion lines)) /\
  filename fi' = filename fi /\ status fi' = status fi /\ patch fi' = patch fi.
Proof.
  revert fi; induction lines as [|line lines IH]; intros fi;
    cbn [fold_left filter].
  - simpl. repeat split; lia.
  - destruct (IH (countStep fi line)) as (Ha & Hd & Hf & Hs & Hp).
    cbv zeta in *. rewrite Ha, Hd, Hf, Hs, Hp. clear.
    unfold countStep, isAddition, isDeletion.
    destruct (startsWith line "+") eqn:Hplus.
    + rewrite (startsWith_first_differs line "+" "-" "" "" eq_refl Hplus).
      destruct (startsWith line "+++"); cbn -[Z.of_nat Z.add];
        repeat split; lia.
    + cbn [andb].
      destruct (startsWith line "-" && negb (startsWith line "---"));
        cbn -[Z.of_nat Z.add]; repeat split; lia.
Qed.

(** [headerStep] never touches the counters or the patch. *)
Lemma headerStep_fold (lines : list string) (fi : FileInfo) :
  let fi' := fold_left headerStep lines fi in
  additions fi' = additions fi /\ deletions fi' = deletions fi /\
  patch fi' = patch fi.
Proof.
  revert fi; induction lines as [|line lines IH]; intros fi; cbn [fold_left].
  - now repeat split.
  - destruct (IH (headerStep fi line)) as (Ha & Hd & Hp).
    cbv zeta in *. rewrite Ha, Hd, Hp. clear.
    unfold headerStep.
    destruct (startsWith line " a/" && includes line " b/");
      [destruct (exec false filenameRe line) as [m|];
         [destruct (capture 2 (caps m))|]|];
      destruct (startsWith line "new file mode");
      destruct (startsWith line "deleted file mode");
      destruct (startsWith line "rename from"); now repeat split.
Qed.

(** Every section either has no line beginning with [@@], or splits at the
    first such line. *)
Lemma first_hunk_split (lines : list string) :
  noHunk lines \/
  exists before header after,
    lines = (before ++ header :: after)%list /\
    noHunk before /\ startsWith header "@@" = true.
Proof.
  induction lines as [|line lines IH].
  - left. constructor.
  - destruct (startsWith line "@@") eqn:Hl.
    + right. exists [], line, lines. repeat split; [constructor | assumption].
    + destruct IH as [Hall | (before & header & after & -> & Hall & Hh)].
      * left. now constructor.
      * right. exists (line :: before), header, after.
        repeat split; [now constructor | assumption].
Qed.

(** Without such a line the loop runs to the end. *)
Lemma scanHeader_no_hunk (lines : list string) (i : Z) (fi : FileInfo) :
  noHunk lines ->
  scanHeader lines i fi = (fold_left headerStep lines fi, -1).
Proof.
  intros H; revert i fi; induction H as [|line lines Hl _ IH]; intros i fi.
  - reflexivity.
  - cbn [scanHeader fold_left]. rewrite Hl. apply IH.
Qed.

(** Otherwise it stops at the first one, which is the last line it passes
    through [headerStep]. *)
Lemma scanHeader_hunk (before : list string) (header : string)
      (after : list string) (i : Z) (fi : FileInfo) :
  noHunk before -> startsWith header "@@" = true ->
  scanHeader (before ++ header :: after) i fi =
  (fold_left headerStep (before ++ [header]) fi,
   i + Z.of_nat (length before)).
Proof.
  intros H Hh; revert i fi; induction H as [|line lines Hl _ IH]; intros i fi.
  - cbn [app scanHeader fold_left length]. rewrite Hh. f_equal. simpl. lia.
  - cbn [app scanHeader fold_left length]. rewrite Hl, IH. f_equal. lia.
Qed.

Lemma buildFileInfo_no_hunk (lines : list string) :
  noHunk lines ->
  buildFileInfo lines = fold_left headerStep lines emptyFileInfo.
Proof.
  intros H. unfold buildFileInfo. now rewrite scanHeader_no_hunk.
Qed.

Lemma buildFileInfo_hunk (before : list string) (header : string)
      (after : list string) :
  noHunk before -> startsWith header "@@" = true ->
  buildFileInfo (before ++ header :: after) =
  fold_left countStep (header :: after)
    (set_patch (fold_left headerStep (before ++ [header]) emptyFileInfo)
               (join_lines (header :: after))).
Proof.
  intros H Hh. unfold buildFileInfo. rewrite scanHeader_hunk by assumption.
  replace (0 <=? 0 + Z.of_nat (length before)) with true
    by (symmetry; apply Z.leb_le; lia).
  unfold slice. rewrite Z.add_0_l, Nat2Z.id.
  replace (skipn (length before) (before ++ header :: after))
    with (header :: after); [reflexivity|].
  clear. induction before; simpl; auto.
Qed.

(** The accumulated entries ride along: a walk started with entries [acc]
    yields [acc] followed by what the same walk yields from no entries. *)
Lemma lineStep_acc (c : Z) (acc : list Z) (line : string) :
  lineStep (c, acc) line =
  (fst (lineStep (c, []) line), (acc ++ snd (lineStep (c, []) line))%list).
Proof.
  unfold lineStep.
  destruct (exec false hunkHeaderRe line) as [m|].
  - destruct (capture 1 (caps m)); cbn [fst snd]; now rewrite app_nil_r.
  - destruct (startsWith line "+" && negb (startsWith line "+++")).
    + reflexivity.
    + destruct (negb (startsWith line "-") && negb (startsWith line "---"));
        cbn [fst snd]; now rewrite app_nil_r.
Qed.

Lemma lineStep_fold_acc (lines : list string) (c : Z) (acc : list Z) :
  fold_left lineStep lines (c, acc) =
  (fst (fold_left lineStep lines (c, [])),
   (acc ++ snd (fold_left lineStep lines (c, [])))%list).
Proof.
  revert c acc; induction lines as [|line lines IH]; intros c acc;
    cbn [fold_left].
  - cbn [fst snd]. now rewrite app_nil_r.
  - rewrite (lineStep_acc c acc line).
    destruct (lineStep (c, []) line) as [c' acc'] eqn:E. cbn [fst snd].
    rewrite (IH c' (acc ++ acc')%list), (IH c' acc'). cbn [fst snd].
    now rewrite app_assoc.
Qed.

(** A hunk header sets the counter to the number it carries, whatever the
    counter was. *)
Lemma lineStep_hunkHeader (header : string) (m : mstate) (g : string)
      (c : Z) (acc : list Z) :
  exec false hunkHeaderRe header = Some m -> capture 1 (caps m) = Some g ->
  lineStep (c, acc) header = (parseInt g, acc).
Proof. intros Hm Hg. unfold lineStep. now rewrite Hm, Hg. Qed.

(** Lines beginning with [---] change nothing; lines beginning with [+++]
    yield no entry, and take the third branch of [lineStep]. *)
Lemma lineStep_minus_marker (st : Z * list Z) (line : string) :
  startsWith line "---" = true -> lineStep st line = st.
Proof.
  intros H. destruct st as [c acc]. unfold lineStep.
  rewrite (not_hunkHeader line "-" "--" eq_refl H).
  rewrite (startsWith_first_differs line "-" "+" "--" "" eq_refl H).
  rewrite (startsWith_app line "-" "--" H). reflexivity.
Qed.

Lemma lineStep_plus_marker (c : Z) (acc : list Z) (line : string) :
  startsWith line "+++" = true -> lineStep (c, acc) line = (c + 1, acc).
Proof.
  intros H. unfold lineStep.
  rewrite (not_hunkHeader line "+" "++" eq_refl H).
  rewrite (startsWith_first_differs line "+" "-" "++" "" eq_refl H).
  rewrite (startsWith_first_differs line "+" "-" "++" "--" eq_refl H).
  rewrite (startsWith_app line "+" "++" H), H. reflexivity.
Qed.

(** The [+] lines that are not [+++] lines, counted in two steps. *)
Lemma filter_marker_excluded (a : string) (lines : list string) :
  filter (fun l => negb (startsWith l (a ++ a ++ a)))
         (filter (fun l => startsWith l a) lines) =
  filter (fun l => startsWith l a && negb (startsWith l (a ++ a ++ a))) lines.
Proof.
  induction lines as [|l lines IH]; [reflexivity|]. cbn [filter].
  destruct (startsWith l a); cbn [filter andb]; rewrite IH; reflexivity.
Qed.

(** No entry and no count for an empty patch. *)
Lemma fileInfo_of_section (section : string) (fi : FileInfo) :
  buildFileInfo (split_lines section) = fi ->
  split_lines (patch fi) = [""] /\ additions fi = 0 /\ deletions fi = 0 \/
  additions fi = Z.of_nat (length (filter isAddition (split_lines (patch fi))))
  /\
  deletions fi = Z.of_nat (length (filter isDeletion (split_lines (patch fi)))).
Proof.
  intros <-.
  destruct (first_hunk_split (split_lines section))
    as [Hno | (before & header & after & Heq & Hno & Hh)].
  - left. rewrite buildFileInfo_no_hunk by assumption.
    destruct (headerStep_fold (split_lines section) emptyFileInfo)
      as (Ha & Hd & Hp).
    cbv zeta in *. rewrite Ha, Hd, Hp. now repeat split.
  - right. rewrite Heq, buildFileInfo_hunk by assumption.
    match goal with |- context [fold_left countStep ?ls ?f] =>
      destruct (countStep_fold ls f) as (Ha & Hd & _ & _ & Hp) end.
    cbv zeta in *. rewrite Ha, Hd, Hp. cbn [patch set_patch additions deletions].
    destruct (headerStep_fold (before ++ [header]) emptyFileInfo)
      as (Ha' & Hd' & _).
    cbv zeta in *. rewrite Ha', Hd'. cbn [additions deletions emptyFileInfo].
    rewrite split_join_lines; [split; reflexivity | discriminate |].
    pose proof (split_lines_noLF section) as Hall. rewrite Heq in Hall.
    apply Forall_app in Hall. tauto.
Qed.

(** ** The header block: status and filename *)

Lemma headerStep_status (fi : FileInfo) (line : string) :
  status (headerStep fi line) =
  if startsWith line "new file mode" then added
  else if startsWith line "deleted file mode" then deleted
  else if startsWith line "rename from" then renamed
  else status fi.
Proof.
  unfold headerStep.
  destruct (startsWith line " a/" && includes line " b/");
    [destruct (exec false filenameRe line) as [m|];
       [destruct (capture 2 (caps m))|]|];
    destruct (startsWith line "new file mode");
    destruct (startsWith line "deleted file mode");
    destruct (startsWith line "rename from"); reflexivity.
Qed.

Lemma headerStep_filename (fi : FileInfo) (line : string) :
  startsWith line " a/" = false ->
  filename (headerStep fi line) = filename fi.
Proof.
  intros H. unfold headerStep. rewrite H. cbn [andb].
  destruct (startsWith line "new file mode");
    destruct (startsWith line "deleted file mode");
    destruct (startsWith line "rename from"); reflexivity.
Qed.

(** A line beginning with [@@] is no status marker and names no file. *)
Lemma headerStep_hunk (fi : FileInfo) (header : string) :
  startsWith header "@@" = true ->
  status (headerStep fi header) = status fi /\
  filename (headerStep fi header) = filename fi.
Proof.
  intros H. split.
  - rewrite headerStep_status.
    rewrite (startsWith_first_differs header "@" "n" "@" _ eq_refl H).
    rewrite (startsWith_first_differs header "@" "d" "@" _ eq_refl H).
    now rewrite (startsWith_first_differs header "@" "r" "@" _ eq_refl H).
  - apply headerStep_filename.
    now rewrite (startsWith_first_differs header "@" " " "@" _ eq_refl H).
Qed.

Lemma headerStep_fold_added (lines : list string) (fi : FileInfo) :
  Forall keepsAdded lines -> status fi = added ->
  status (fold_left headerStep lines fi) = added.
Proof.
  intros H; revert fi; induction H as [|line lines [Hd Hr] _ IH]; intros fi Hs.
  - exact Hs.
  - cbn [fold_left]. apply IH. rewrite headerStep_status, Hd, Hr.
    now destruct (startsWith line "new file mode").
Qed.

Lemma headerStep_fold_filename (lines : list string) (fi : FileInfo) :
  Forall (fun l => startsWith l " a/" = false) lines ->
  filename (fold_left headerStep lines fi) = filename fi.
Proof.
  intros H; revert fi; induction H as [|line lines Hl _ IH]; intros fi.
  - reflexivity.
  - cbn [fold_left]. rewrite IH. now apply headerStep_filename.
Qed.

(** The status and the filename of a section are those of the lines before
    its first line beginning with [@@]. *)
Lemma buildFileInfo_header_block (before : list string) (header : string)
      (after : list string) :
  noHunk before -> startsWith header "@@" = true ->
  status (buildFileInfo (before ++ header :: after)) =
    status (buildFileInfo before) /\
  filename (buildFileInfo (before ++ header :: after)) =
    filename (buildFileInfo before).
Proof.
  intros Hno Hh.
  rewrite buildFileInfo_hunk, (buildFileInfo_no_hunk before) by assumption.
  match goal with |- context [fold_left countStep ?ls ?f] =>
    destruct (countStep_fold ls f) as (_ & _ & Hf & Hs & _) end.
  cbv zeta in *. rewrite Hf, Hs. cbn [status filename set_patch].
  rewrite fold_left_app. cbn [fold_left].
  now apply headerStep_hunk.
Qed.

(** A section made of white space names no file. *)
Lemma parseFileInfo_whitespaceOnly (section : string) :
  whitespaceOnly section = true ->
  parseFileInfo (split_lines section) = None.
Proof.
  intros Hw. apply split_lines_whitespaceOnly in Hw.
  assert (Ha : Forall (fun l => startsWith l " a/" = false)
                      (split_lines section)).
  { eapply Forall_impl; [|exact Hw]. intros l Hl.
    now apply whitespaceOnly_startsWith. }
  assert (Hno : noHunk (split_lines section)).
  { eapply Forall_impl; [|exact Hw]. intros l Hl.
    now apply whitespaceOnly_startsWith. }
  unfold parseFileInfo. rewrite buildFileInfo_no_hunk by assumption.
  now rewrite headerStep_fold_filename.
Qed.

(** ** The Splitter's loop *)

(** What one section adds to [files]. *)
Lemma sectionStep_acc (files : list FileInfo) (section : string) :
  sectionStep files section = (files ++ sectionStep [] section)%list.
Proof.
  unfold sectionStep.
  destruct (negb (truthy (trim section))); [now rewrite app_nil_r|].
  destruct (parseFileInfo (split_lines section));
    [reflexivity | now rewrite app_nil_r].
Qed.

Lemma sectionStep_fold (sections : list string) (files : list FileInfo) :
  fold_left sectionStep sections files =
  (files ++ flat_map (sectionStep []) sections)%list.
Proof.
  revert files; induction sections as [|s sections IH]; intros files;
    cbn [fold_left flat_map].
  - now rewrite app_nil_r.
  - rewrite IH, (sectionStep_acc files s). now rewrite app_assoc.
Qed.


Lemma sectionStep_kept (section : string) (fi : FileInfo) :
  parseFileInfo (split_lines section) = Some fi ->
  sectionStep [] section = [fi].
Proof.
  intros H. unfold sectionStep. rewrite trim_whitespaceOnly, negb_involutive.
  destruct (whitespaceOnly section) eqn:Hw.
  - apply parseFileInfo_whitespaceOnly in Hw. congruence.
  - now rewrite H.
Qed.

End CodeAnalyzerFacts.

(* ================================================================== *)
(** * The properties of the specification *)
(* ================================================================== *)

Import JS Regex CodeAnalyzer JSFacts RegexFacts CodeAnalyzerFacts.

(** C1 (the code departs from it). A line beginning with [+++] yields no
    entry, but it is not ignored: it takes the branch of context lines and
    advances [currentLine] by one, so the addition that follows it in a hunk
    starting at line 1 is reported at line 2. *)
Theorem C1_plus_marker_advances_counter :
  lineStep (1, []) "+++ b/file.js" = (2, []) /\
  extractLineNumbers
    (join_lines ["@@ -1,1 +1,2 @@"; "+++ b/file.js"; "+added"]) = [2].
Proof. split; vm_compute; reflexivity. Qed.

(** C2. The patch of the specification's example maps to [2; 4]. *)
Theorem C2_example_patch :
  extractLineNumbers
    (join_lines ["@@ -1,3 +1,4 @@"; " context"; "+added1"; " context2";
                 "+added2"; "-removed"; " context3"]) = [2; 4].
Proof. vm_compute. reflexivity. Qed.

(** C3. The two-hunk patch maps to [2; 21], also when each hunk ends with a
    line feed as the specification writes it; and in general a hunk header
    carrying the number [g] makes the entries after it those of a walk that
    starts at [g], whatever the lines before it were and wherever the
    counter started. *)
Theorem C3_two_hunks :
  extractLineNumbers
    (join_lines ["@@ -1,2 +1,2 @@"; " context"; "+a";
                 "@@ -10,2 +20,2 @@"; " context"; "+b"]) = [2; 21] /\
  extractLineNumbers
    (join_lines ["@@ -1,2 +1,2 @@"; " context"; "+a";
                 "@@ -10,2 +20,2 @@"; " context"; "+b"; ""]) = [2; 21] /\
  forall (before after : list string) (header : string) (m : mstate)
         (g : string) (start : Z),
    exec false hunkHeaderRe header = Some m ->
    capture 1 (caps m) = Some g ->
    snd (fold_left lineStep (before ++ header :: after) (start, [])) =
    (snd (fold_left lineStep before (start, [])) ++
     snd (fold_left lineStep after (parseInt g, [])))%list.
Proof.
  split; [vm_compute; reflexivity|]. split; [vm_compute; reflexivity|].
  intros before after header m g start Hm Hg.
  rewrite fold_left_app. cbn [fold_left].
  destruct (fold_left lineStep before (start, [])) as [c acc].
  rewrite (lineStep_hunkHeader header m g c acc Hm Hg).
  rewrite lineStep_fold_acc. reflexivity.
Qed.

Lemma C3_two_hunks_witness :
  snd (fold_left lineStep
         ([" context"; "+a"] ++ "@@ -10,2 +20,2 @@" :: [" context"; "+b"])
         (7, [])) =
  (snd (fold_left lineStep [" context"; "+a"] (7, [])) ++
   snd (fold_left lineStep [" context"; "+b"] (parseInt "20", [])))%list.
Proof.
  refine (proj2 (proj2 C3_two_hunks) _ _ "@@ -10,2 +20,2 @@"
            (MState (Some "@"%char) "" [(1%nat, "20")]) "20" 7 _ _).
  - vm_compute. reflexivity.
  - reflexivity.
Defined.

(** C4. For every patch string, well-formed and single-hunk or not, the
    Reconciler returns as many entries as the Patch Builder's loop counts
    additions over the lines of that patch; and for every FileChange that
    [parseFileInfo] returns for a section, the Reconciler run on its [patch]
    returns [additions] entries. *)
Theorem C4_entries_equal_additions :
  (forall patch : string,
     Z.of_nat (length (extractLineNumbers patch)) =
     additions (fold_left countStep (split_lines patch) emptyFileInfo)) /\
  (forall (section : string) (fi : FileInfo),
     parseFileInfo (split_lines section) = Some fi ->
     Z.of_nat (length (extractLineNumbers (patch fi))) = additions fi).
Proof.
  assert (Hlen : forall patch, length (extractLineNumbers patch) =
                               length (filter isAddition (split_lines patch))).
  { intros patch0. unfold extractLineNumbers.
    now rewrite lineStep_fold_length. }
  split.
  - intros patch0. rewrite Hlen.
    destruct (countStep_fold (split_lines patch0) emptyFileInfo) as (Ha & _).
    cbv zeta in Ha. rewrite Ha. reflexivity.
  - intros section fi H. unfold parseFileInfo in H.
    destruct (truthy (filename (buildFileInfo (split_lines section))));
      [|discriminate].
    injection H as H. rewrite Hlen.
    destruct (fileInfo_of_section section fi H) as [(Hp & Ha & _) | (Ha & _)].
    + rewrite Hp, Ha. reflexivity.
    + now rewrite Ha.
Qed.

Lemma C4_entries_equal_additions_witness :
  Z.of_nat (length (extractLineNumbers
     (join_lines ["@@ -1,3 +1,4 @@"; " context"; "+added1"; "-removed"]))) = 1.
Proof.
  exact (proj2 C4_entries_equal_additions
    (join_lines [" a/src/a.js b/src/a.js"; "--- a/src/a.js"; "+++ b/src/a.js";
                 "@@ -1,3 +1,4 @@"; " context"; "+added1"; "-removed"])
    (mkFileInfo "src/a.js" modified 1 1
       (join_lines ["@@ -1,3 +1,4 @@"; " context"; "+added1"; "-removed"]))
    eq_refl).
Defined.

(** C5. For every FileChange that [parseFileInfo] returns for a section,
    [additions] is the number of lines of its patch that begin with [+],
    those beginning with [+++] left out, and [deletions] the number of lines
    that begin with [-], those beginning with [---] left out. *)
Theorem C5_counts_exclude_markers (section : string) (fi : FileInfo) :
  parseFileInfo (split_lines section) = Some fi ->
  additions fi =
    Z.of_nat (length (filter (fun l => negb (startsWith l "+++"))
                        (filter (fun l => startsWith l "+")
                           (split_lines (patch fi))))) /\
  deletions fi =
    Z.of_nat (length (filter (fun l => negb (startsWith l "---"))
                        (filter (fun l => startsWith l "-")
                           (split_lines (patch fi))))).
Proof.
  intros H. unfold parseFileInfo in H.
  destruct (truthy (filename (buildFileInfo (split_lines section))));
    [|discriminate].
  injection H as H.
  rewrite (filter_marker_excluded "+"), (filter_marker_excluded "-").
  destruct (fileInfo_of_section section fi H)
    as [(Hp & Ha & Hd) | (Ha & Hd)].
  - rewrite Hp, Ha, Hd. split; reflexivity.
  - split; assumption.
Qed.

Lemma C5_counts_exclude_markers_witness :
  let fi := mkFileInfo "a.js" modified 2 1
              (join_lines ["@@ -1,3 +1,4 @@"; "+++x"; "+added1"; "---y";
                           "-removed"; "+added2"]) in
  additions fi =
    Z.of_nat (length (filter (fun l => negb (startsWith l "+++"))
                        (filter (fun l => startsWith l "+")
                           (split_lines (patch fi))))) /\
  deletions fi =
    Z.of_nat (length (filter (fun l => negb (startsWith l "---"))
                        (filter (fun l => startsWith l "-")
                           (split_lines (patch fi))))).
Proof.
  exact (C5_counts_exclude_markers
    (join_lines [" a/a.js b/a.js"; "@@ -1,3 +1,4 @@"; "+++x"; "+added1";
                 "---y"; "-removed"; "+added2"])
    _ eq_refl).
Defined.

(** C6. A section in which a line beginning with [new file mode] comes
    before the first line beginning with [@@], with no line beginning with
    [deleted file mode] or [rename from] between the two, has status
    [added]: in the object [parseFileInfo] builds, in every FileChange it
    returns, and it does return one, with status [added], as soon as the
    section names a file. The status of any section is the status of the
    lines before its first line beginning with [@@], whatever follows that
    line, in the object built and in what [parseFileInfo] returns. *)
Theorem C6_status_scan :
  (forall (before : list string) (marker : string) (between rest : list string),
     startsWith marker "new file mode" = true ->
     noHunk (before ++ marker :: between) ->
     Forall keepsAdded between ->
     match rest with
     | [] => True
     | header :: _ => startsWith header "@@" = true
     end ->
     let lines := (before ++ marker :: between ++ rest)%list in
     status (buildFileInfo lines) = added /\
     (forall fi, parseFileInfo lines = Some fi -> status fi = added) /\
     (truthy (filename (buildFileInfo lines)) = true ->
      exists fi, parseFileInfo lines = Some fi /\ status fi = added)) /\
  (forall (before : list string) (header : string) (after : list string),
     noHunk before -> startsWith header "@@" = true ->
     status (buildFileInfo (before ++ header :: after)) =
     status (buildFileInfo before) /\
     option_map status (parseFileInfo (before ++ header :: after)) =
     option_map status (parseFileInfo before)).
Proof.
  assert (Hblock :
    forall before marker between,
      startsWith marker "new file mode" = true ->
      noHunk (before ++ marker :: between) -> Forall keepsAdded between ->
      status (buildFileInfo (before ++ marker :: between)) = added).
  { intros before marker between Hm Hno Hk.
    rewrite buildFileInfo_no_hunk by assumption.
    rewrite fold_left_app. cbn [fold_left].
    apply headerStep_fold_added; [assumption|].
    now rewrite headerStep_status, Hm. }
  split.
  - intros before marker between rest Hm Hno Hk Hrest lines.
    assert (Hs : status (buildFileInfo lines) = added).
    { subst lines. destruct rest as [|header after].
      - rewrite app_nil_r. now apply Hblock.
      - rewrite app_comm_cons, app_assoc.
        destruct (buildFileInfo_header_block
                    (before ++ marker :: between) header after Hno Hrest)
          as [-> _].
        now apply Hblock. }
    split; [exact Hs|]. split.
    + intros fi Hfi. unfold parseFileInfo in Hfi.
      destruct (truthy (filename (buildFileInfo lines))); [|discriminate].
      now injection Hfi as <-.
    + intros Hname. exists (buildFileInfo lines). split; [|exact Hs].
      unfold parseFileInfo. now rewrite Hname.
  - intros before header after Hno Hh.
    destruct (buildFileInfo_header_block before header after Hno Hh)
      as [Hs Hf].
    split; [exact Hs|].
    unfold parseFileInfo. rewrite Hf.
    destruct (truthy (filename (buildFileInfo before))); cbn [option_map];
      [now rewrite Hs | reflexivity].
Qed.

Lemma C6_status_scan_witness :
  (exists fi,
     parseFileInfo
       ([" a/new.js b/new.js"] ++ "new file mode 100644" ::
        ["index 0000000..e69de29"] ++
        ["@@ -0,0 +1,2 @@"; "+deleted file mode"; "+x"]) = Some fi /\
     status fi = added) /\
  option_map status
    (parseFileInfo
       ([" a/a.js b/a.js"] ++ "@@ -1,2 +1,2 @@" ::
        ["-new file mode 1"; "+rename from here"])) =
  option_map status (parseFileInfo [" a/a.js b/a.js"]).
Proof.
  split.
  - refine (proj2 (proj2 (proj1 C6_status_scan [" a/new.js b/new.js"]
              "new file mode 100644" ["index 0000000..e69de29"]
              ["@@ -0,0 +1,2 @@"; "+deleted file mode"; "+x"] _ _ _ _)) _).
    + reflexivity.
    + repeat constructor.
    + repeat constructor.
    + reflexivity.
    + vm_compute. reflexivity.
  - refine (proj2 (proj2 C6_status_scan [" a/a.js b/a.js"] "@@ -1,2 +1,2 @@"
              ["-new file mode 1"; "+rename from here"] _ _)).
    + repeat constructor.
    + reflexivity.
Defined.



(** C8. A section of a diff in which no line begins with [@@] and for which
    the scan ends with a non-empty filename yields a FileChange with an
    empty patch and no additions or deletions, and this FileChange is in the
    Splitter's result. *)
Theorem C8_no_hunk_file_kept (diff section : string) :
  In section (fileSections diff) ->
  noHunk (split_lines section) ->
  truthy (filename (buildFileInfo (split_lines section))) = true ->
  exists fi,
    parseFileInfo (split_lines section) = Some fi /\
    patch fi = "" /\ additions fi = 0 /\ deletions fi = 0 /\
    In fi (parseGitDiff diff).
Proof.
  intros Hin Hno Hname.
  exists (buildFileInfo (split_lines section)).
  assert (Hfi : parseFileInfo (split_lines section) =
                Some (buildFileInfo (split_lines section)))
    by (unfold parseFileInfo; now rewrite Hname).
  split; [exact Hfi|].
  rewrite buildFileInfo_no_hunk in * by assumption.
  destruct (headerStep_fold (split_lines section) emptyFileInfo)
    as (Ha & Hd & Hp).
  cbv zeta in *. rewrite Ha, Hd, Hp. repeat split.
  unfold parseGitDiff. rewrite sectionStep_fold. cbn [app].
  apply in_flat_map. exists section. split; [assumption|].
  rewrite (sectionStep_kept section _ Hfi). now left.
Qed.

Lemma C8_no_hunk_file_kept_witness :
  exists fi,
    parseFileInfo
      (split_lines (join_lines [" a/old.txt b/new.txt"; "similarity index 100%";
                                "rename from old.txt"; "rename to new.txt"])) =
      Some fi /\
    patch fi = "" /\ additions fi = 0 /\ deletions fi = 0 /\
    In fi (parseGitDiff
             (join_lines ["diff --git a/old.txt b/new.txt";
                          "similarity index 100%";
                          "rename from old.txt"; "rename to new.txt"])).
Proof.
  apply (C8_no_hunk_file_kept
           (join_lines ["diff --git a/old.txt b/new.txt";
                        "similarity index 100%";
                        "rename from old.txt"; "rename to new.txt"])).
  - vm_compute. right. left. reflexivity.
  - vm_compute. repeat constructor.
  - vm_compute. reflexivity.
Defined.

(* ================================================================== *)
(** * The Review Orchestrator *)
(* ================================================================== *)

Import PRReviewService.

Section Orchestrator.

Variable World : Type.
Variable analyzeCode :
  string -> Context.t -> World -> (Error + Analysis.t) * World.
Variable formatComment : Issue.t -> string.
Variable maxDiffSize : Z.

Let reviewFile := reviewFile analyzeCode formatComment maxDiffSize.
Let reviewStep := reviewStep analyzeCode formatComment maxDiffSize.
Let reviewLoop := reviewLoop analyzeCode formatComment maxDiffSize.
Let ServiceState := State World.

Lemma started_app (tr1 tr2 : list Event) :
  started (tr1 ++ tr2) = (started tr1 ++ started tr2)%list.
Proof. apply flat_map_app. Qed.

(** [reviewFile] never starts the spinner. *)
Lemma reviewFile_started (file : FileInfo) (prDetails : PRDetails.t)
      (st : ServiceState) :
  started (trace (snd (reviewFile file prDetails st))) = started (trace st).
Proof.
  unfold reviewFile, PRReviewService.reviewFile.
  destruct (negb (isRelevantFile _ _)); [reflexivity|].
  destruct (negb (truthy (patch file)) || _).
  - unfold bind, emit, ret; cbn. rewrite started_app. cbn.
    now rewrite app_nil_r.
  - unfold bind, await_analyzeCode, ret.
    destruct (analyzeCode _ _ _) as [[e|a] w]; reflexivity.
Qed.

(** [reviewFile] throws exactly what the issue finder throws. *)
Lemma reviewFile_throws (file : FileInfo) (prDetails : PRDetails.t)
      (st st' : ServiceState) (error : Error) :
  reviewFile file prDetails st = (inl error, st') ->
  exists context,
    fst (analyzeCode (patch file) context (world st)) = inl error.
Proof.
  unfold reviewFile, PRReviewService.reviewFile.
  destruct (negb (isRelevantFile _ _)); [discriminate|].
  destruct (negb (truthy (patch file)) || _); [discriminate|].
  unfold bind, await_analyzeCode, ret.
  match goal with |- context [analyzeCode ?d ?c ?w] =>
    destruct (analyzeCode d c w) as [[e|a] w'] eqn:E; intros H;
    [exists c; rewrite E; cbn; congruence | discriminate] end.
Qed.

(** One round of the loop always completes, having started the spinner once,
    for its file. *)
Lemma reviewStep_completes (prDetails : PRDetails.t) (reviews : list Review.t)
      (file : FileInfo) (st : ServiceState) :
  exists reviews' st',
    reviewStep prDetails reviews file st = (inr reviews', st') /\
    started (trace st') = (started (trace st) ++ [reviewingMsg file])%list.
Proof.
  unfold reviewStep, PRReviewService.reviewStep.
  unfold bind at 1. unfold emit at 1. unfold try_catch.
  set (st0 := mkState (world st) (trace st ++ [SpinnerStart _])).
  assert (H0 : started (trace st0) =
               (started (trace st) ++ [reviewingMsg file])%list)
    by (subst st0; cbn [trace]; now rewrite started_app).
  pose proof (reviewFile_started file prDetails st0) as Hrf.
  fold reviewFile. unfold bind at 1.
  destruct (reviewFile file prDetails st0) as [[e|[r|]] st1]; cbn [snd] in Hrf.
  - unfold bind, emit, ret; cbn. eexists _, _; split; [reflexivity|]. cbn.
    rewrite !started_app, Hrf, H0. cbn. now rewrite !app_nil_r.
  - destruct (0 <? length (Review.comments r))%nat;
      unfold bind, emit, ret; cbn; eexists _, _; (split; [reflexivity|]); cbn;
      rewrite !started_app, Hrf, H0; cbn; now rewrite !app_nil_r.
  - unfold bind, emit, ret; cbn. eexists _, _; split; [reflexivity|]. cbn.
    rewrite !started_app, Hrf, H0. cbn. now rewrite !app_nil_r.
Qed.

(** The loop over a list of files followed by another. *)
Lemma reviewLoop_app (prDetails : PRDetails.t) (before after : list FileInfo)
      (reviews : list Review.t) (st : ServiceState) :
  reviewLoop prDetails (before ++ after) reviews st =
  match reviewLoop prDetails before reviews st with
  | (inr reviews1, st1) => reviewLoop prDetails after reviews1 st1
  | (inl e, st1) => (inl e, st1)
  end.
Proof.
  revert reviews st; induction before as [|file before IH]; intros reviews st.
  - reflexivity.
  - cbn [app]. unfold reviewLoop. cbn [PRReviewService.reviewLoop].
    fold reviewLoop. fold reviewStep. unfold bind.
    destruct (reviewStep prDetails reviews file st) as [[e|r] st'];
      [reflexivity | apply IH].
Qed.

(** C10. When the analysis has an array of issues, there is one comment per
    issue, in order, none dropped; the comment of an issue carries the
    issue's line when that is truthy and 1 when it is absent, null or 0, and
    the issue's severity when that is truthy and 'info' otherwise. *)
Theorem C10_comment_defaults (analysis : Analysis.t) (file : FileInfo)
        (issues : list Issue.t) :
  Analysis.issues analysis = Some issues ->
  let comments := parseAnalysisToComments formatComment analysis file in
  length comments = length issues /\
  forall (i : nat) (issue : Issue.t),
    nth_error issues i = Some issue ->
    exists comment,
      nth_error comments i = Some comment /\
      Comment.path comment = filename file /\
      (ToBoolean (Issue.line issue) = true ->
       Comment.line comment = Issue.line issue) /\
      (Issue.line issue = JUndefined \/ Issue.line issue = JNull \/
       Issue.line issue = JNumber 0 ->
       Comment.line comment = JNumber 1) /\
      (ToBoolean (Issue.severity issue) = true ->
       Comment.severity comment = Issue.severity issue) /\
      (ToBoolean (Issue.severity issue) = false ->
       Comment.severity comment = JString "info").
Proof.
  intros Hissues comments. subst comments.
  unfold parseAnalysisToComments. rewrite Hissues.
  assert (Hmap : forall acc,
    fold_left (fun comments issue =>
                 (comments ++ [commentOf formatComment file issue])%list)
              issues acc =
    (acc ++ map (commentOf formatComment file) issues)%list).
  { clear. induction issues as [|issue issues IH]; intros acc; cbn.
    - now rewrite app_nil_r.
    - now rewrite IH, <- app_assoc. }
  rewrite Hmap. cbn [app]. split; [apply length_map|].
  intros i issue Hi. exists (commentOf formatComment file issue).
  split; [now apply map_nth_error|].
  unfold commentOf, js_or; cbn. split; [reflexivity|].
  repeat split.
  - now intros ->.
  - now intros [-> | [-> | ->]].
  - now intros ->.
  - now intros ->.
Qed.

End Orchestrator.

(* ================================================================== *)
(** * The per-file loop and what the issue finder throws *)
(* ================================================================== *)

Section LoopSurvives.

Variable World : Type.
Variable analyzeCode :
  string -> Context.t -> World -> (Thrown + Analysis.t) * World.
Variable formatComment : Issue.t -> string.
Variable maxDiffSize : Z.
Variable typeError : Error.

Let reviewFile := ReviewLoop.reviewFile analyzeCode formatComment maxDiffSize.
Let reviewStep :=
  ReviewLoop.reviewStep analyzeCode formatComment maxDiffSize typeError.
Let reviewLoop :=
  ReviewLoop.reviewLoop analyzeCode formatComment maxDiffSize typeError.
Let ServiceState := State World.

(** [reviewFile] never starts the spinner. *)
Lemma thrown_reviewFile_started (file : FileInfo) (prDetails : PRDetails.t)
      (st : ServiceState) :
  started (trace (snd (reviewFile file prDetails st))) = started (trace st).
Proof.
  unfold reviewFile, ReviewLoop.reviewFile.
  destruct (negb (isRelevantFile _ _)); [reflexivity|].
  destruct (negb (truthy (patch file)) || _).
  - unfold ReviewLoop.bind, ReviewLoop.emit, ReviewLoop.ret; cbn.
    rewrite started_app. cbn. now rewrite app_nil_r.
  - unfold ReviewLoop.bind, ReviewLoop.await_analyzeCode, ReviewLoop.ret.
    destruct (analyzeCode _ _ _) as [[e|a] w]; reflexivity.
Qed.

(** [reviewFile] throws exactly what the issue finder throws. *)
Lemma thrown_reviewFile_throws (file : FileInfo) (prDetails : PRDetails.t)
      (st st' : ServiceState) (thrown : Thrown) :
  reviewFile file prDetails st = (inl thrown, st') ->
  exists context,
    fst (analyzeCode (patch file) context (world st)) = inl thrown.
Proof.
  unfold reviewFile, ReviewLoop.reviewFile.
  destruct (negb (isRelevantFile _ _)); [discriminate|].
  destruct (negb (truthy (patch file)) || _); [discriminate|].
  unfold ReviewLoop.bind, ReviewLoop.await_analyzeCode, ReviewLoop.ret.
  match goal with |- context [analyzeCode ?d ?c ?w] =>
    destruct (analyzeCode d c w) as [[e|a] w'] eqn:E; intros H;
    [exists c; rewrite E; cbn; congruence | discriminate] end.
Qed.

(** When the issue finder rejects with [null] or [undefined], the catch
    clause of the loop throws itself: the round ends with the [TypeError],
    the spinner and the logger are told nothing more, and the loop stops
    there. *)
Lemma reviewStep_nullish_aborts (prDetails : PRDetails.t)
      (reviews : list Review.t) (file : FileInfo) (after : list FileInfo)
      (st st2 : ServiceState) :
  reviewFile file prDetails
    (mkState (world st) (trace st ++ [SpinnerStart (reviewingMsg file)])) =
    (inl Nullish, st2) ->
  reviewStep prDetails reviews file st = (inl (Raised typeError), st2) /\
  reviewLoop prDetails (file :: after) reviews st =
    (inl (Raised typeError), st2).
Proof.
  intros Hfail.
  assert (Hstep :
    reviewStep prDetails reviews file st = (inl (Raised typeError), st2)).
  { unfold reviewStep, ReviewLoop.reviewStep.
    unfold ReviewLoop.bind at 1. unfold ReviewLoop.emit at 1.
    unfold ReviewLoop.try_catch. fold reviewFile.
    unfold ReviewLoop.bind at 1.
    unfold reviewingMsg in Hfail. rewrite Hfail. reflexivity. }
  split; [exact Hstep|].
  unfold reviewLoop. cbn [ReviewLoop.reviewLoop]. fold reviewStep.
  unfold ReviewLoop.bind at 1. now rewrite Hstep.
Qed.

(** The loop over a list of files followed by another. *)
Lemma thrown_reviewLoop_app (prDetails : PRDetails.t)
      (before after : list FileInfo)
      (reviews : list Review.t) (st : ServiceState) :
  reviewLoop prDetails (before ++ after) reviews st =
  match reviewLoop prDetails before reviews st with
  | (inr reviews1, st1) => reviewLoop prDetails after reviews1 st1
  | (inl e, st1) => (inl e, st1)
  end.
Proof.
  revert reviews st; induction before as [|file before IH]; intros reviews st.
  - reflexivity.
  - cbn [app]. unfold reviewLoop. cbn [ReviewLoop.reviewLoop].
    fold reviewLoop. fold reviewStep. unfold ReviewLoop.bind.
    destruct (reviewStep prDetails reviews file st) as [[e|r] st'];
      [reflexivity | apply IH].
Qed.

Section ObjectsOnly.

Hypothesis finder_rejects_with_objects :
  ReviewLoop.rejectsWithObjects analyzeCode.

(** One round of the loop then always completes, having started the spinner
    once, for its file. *)
Lemma thrown_reviewStep_completes (prDetails : PRDetails.t)
      (reviews : list Review.t) (file : FileInfo) (st : ServiceState) :
  exists reviews' st',
    reviewStep prDetails reviews file st = (inr reviews', st') /\
    started (trace st') = (started (trace st) ++ [reviewingMsg file])%list.
Proof.
  unfold reviewStep, ReviewLoop.reviewStep.
  unfold ReviewLoop.bind at 1. unfold ReviewLoop.emit at 1.
  unfold ReviewLoop.try_catch.
  set (st0 := mkState (world st) (trace st ++ [SpinnerStart _])).
  assert (H0 : started (trace st0) =
               (started (trace st) ++ [reviewingMsg file])%list)
    by (subst st0; cbn [trace]; now rewrite started_app).
  pose proof (thrown_reviewFile_started file prDetails st0) as Hrf.
  pose proof (thrown_reviewFile_throws file prDetails st0) as Hthrows.
  fold reviewFile. unfold ReviewLoop.bind at 1.
  destruct (reviewFile file prDetails st0) as [[[|e]|[r|]] st1];
    cbn [snd] in Hrf.
  - destruct (Hthrows st1 Nullish eq_refl) as [context Hc].
    now destruct (finder_rejects_with_objects (patch file) context (world st0)).
  - unfold ReviewLoop.bind, ReviewLoop.emit, ReviewLoop.ret; cbn.
    eexists _, _; split; [reflexivity|]. cbn.
    rewrite !started_app, Hrf, H0. cbn. now rewrite !app_nil_r.
  - destruct (0 <? length (Review.comments r))%nat;
      unfold ReviewLoop.bind, ReviewLoop.emit, ReviewLoop.ret; cbn;
      eexists _, _; (split; [reflexivity|]); cbn;
      rewrite !started_app, Hrf, H0; cbn; now rewrite !app_nil_r.
  - unfold ReviewLoop.bind, ReviewLoop.emit, ReviewLoop.ret; cbn.
    eexists _, _; split; [reflexivity|]. cbn.
    rewrite !started_app, Hrf, H0. cbn. now rewrite !app_nil_r.
Qed.

End ObjectsOnly.

(** C9. For an issue finder that rejects only with values whose message can
    be read, the per-file loop never throws: for every list of files it
    returns, having taken up every file, in order, whatever [reviewFile] did
    on each. When [reviewFile] throws on a file, after the loop has dealt
    with the files before it, what it throws is such a value, the spinner
    and the logger are told of the failure, and the loop goes on with the
    files after it, the reviews gathered so far unchanged. *)
Theorem C9_loop_survives_failures (prDetails : PRDetails.t) :
  ReviewLoop.rejectsWithObjects analyzeCode ->
  (forall (files : list FileInfo) (reviews : list Review.t) (st : ServiceState),
     exists reviews' st',
       reviewLoop prDetails files reviews st = (inr reviews', st') /\
       started (trace st') =
       (started (trace st) ++ map reviewingMsg files)%list) /\
  (forall (before : list FileInfo) (file : FileInfo) (after : list FileInfo)
          (reviews reviews1 : list Review.t) (st st1 st2 : ServiceState)
          (thrown : Thrown),
     reviewLoop prDetails before reviews st = (inr reviews1, st1) ->
     reviewFile file prDetails
       (mkState (world st1)
                (trace st1 ++ [SpinnerStart (reviewingMsg file)])) =
       (inl thrown, st2) ->
     exists error : Error,
       thrown = Raised error /\
       reviewLoop prDetails (before ++ file :: after) reviews st =
       reviewLoop prDetails after reviews1
         (mkState (world st2)
            (trace st2 ++
             [SpinnerFail ("Failed to review " ++ filename file ++ ": " ++
                           message error);
              LoggerError ("Error reviewing file " ++ filename file ++ ":")
                          error]))).
Proof.
  intros Hobjects. split.
  - intros files; induction files as [|file files IH]; intros reviews st.
    + exists reviews, st. split; [reflexivity|]. cbn. now rewrite app_nil_r.
    + destruct (thrown_reviewStep_completes Hobjects prDetails reviews file st)
        as (r1 & st1 & Hstep & Hst1).
      destruct (IH r1 st1) as (r2 & st2 & Hloop & Hst2).
      exists r2, st2. split.
      * unfold reviewLoop. cbn [ReviewLoop.reviewLoop].
        fold reviewLoop. fold reviewStep. unfold ReviewLoop.bind.
        now rewrite Hstep.
      * rewrite Hst2, Hst1, <- app_assoc. reflexivity.
  - intros before file after reviews reviews1 st st1 st2 thrown Hbefore Hfail.
    destruct thrown as [|error].
    + destruct (thrown_reviewFile_throws _ _ _ _ _ Hfail) as [context Hc].
      now destruct (Hobjects (patch file) context (world st1)).
    + exists error. split; [reflexivity|].
      rewrite thrown_reviewLoop_app, Hbefore.
      unfold reviewLoop. cbn [ReviewLoop.reviewLoop].
      fold reviewLoop. unfold ReviewLoop.bind at 1.
      unfold ReviewLoop.reviewStep.
      unfold ReviewLoop.bind at 1. unfold ReviewLoop.emit at 1.
      unfold ReviewLoop.try_catch.
      fold reviewFile. unfold ReviewLoop.bind at 1.
      unfold reviewingMsg in Hfail. rewrite Hfail.
      unfold ReviewLoop.bind, ReviewLoop.emit, ReviewLoop.ret; cbn.
      rewrite <- app_assoc. reflexivity.
Qed.

End LoopSurvives.

(** With an issue finder that throws error objects only, the loop is the one
    of [PRReviewService] above. *)
Lemma reviewLoop_raising (World : Type)
      (analyzeCode :
         string -> Context.t -> World -> (Error + Analysis.t) * World)
      (formatComment : Issue.t -> string) (maxDiffSize : Z)
      (typeError : Error) (prDetails : PRDetails.t)
      (files : list FileInfo) (reviews : list Review.t) (st : State World) :
  ReviewLoop.reviewLoop (ReviewLoop.raising analyzeCode) formatComment
    maxDiffSize typeError prDetails files reviews st =
  (ReviewLoop.raised
     (fst (reviewLoop analyzeCode formatComment maxDiffSize
             prDetails files reviews st)),
   snd (reviewLoop analyzeCode formatComment maxDiffSize
          prDetails files reviews st)).
Proof.
  assert (Hfile : forall file st0,
    ReviewLoop.reviewFile (ReviewLoop.raising analyzeCode) formatComment
      maxDiffSize file prDetails st0 =
    (ReviewLoop.raised
       (fst (reviewFile analyzeCode formatComment maxDiffSize
               file prDetails st0)),
     snd (reviewFile analyzeCode formatComment maxDiffSize
            file prDetails st0))).
  { intros file st0. unfold ReviewLoop.reviewFile, reviewFile.
    destruct (negb (isRelevantFile _ _)); [reflexivity|].
    destruct (negb (truthy (patch file)) || _); [reflexivity|].
    unfold ReviewLoop.bind, bind, ReviewLoop.await_analyzeCode,
      await_analyzeCode, ReviewLoop.raising.
    destruct (analyzeCode _ _ _) as [[e|a] w]; reflexivity. }
  assert (Hstep : forall reviews file st,
    ReviewLoop.reviewStep (ReviewLoop.raising analyzeCode) formatComment
      maxDiffSize typeError prDetails reviews file st =
    (ReviewLoop.raised
       (fst (reviewStep analyzeCode formatComment maxDiffSize
               prDetails reviews file st)),
     snd (reviewStep analyzeCode formatComment maxDiffSize
            prDetails reviews file st))).
  { clear reviews st. intros reviews file st.
    unfold ReviewLoop.reviewStep, reviewStep,
      ReviewLoop.try_catch, try_catch,
      ReviewLoop.bind, bind, ReviewLoop.emit, emit, ReviewLoop.ret, ret.
    cbv beta. rewrite Hfile.
    match goal with |- context [reviewFile ?f ?c ?m ?fl ?pd ?s0] =>
      destruct (reviewFile f c m fl pd s0) as [[e|[r|]] st1] end;
      cbn [fst snd ReviewLoop.raised].
    - reflexivity.
    - destruct (0 <? length (Review.comments r))%nat; reflexivity.
    - reflexivity. }
  revert reviews st; induction files as [|file files IH]; intros reviews st.
  - reflexivity.
  - cbn [ReviewLoop.reviewLoop PRReviewService.reviewLoop].
    unfold ReviewLoop.bind, bind. rewrite Hstep.
    destruct (reviewStep analyzeCode formatComment maxDiffSize
                prDetails reviews file st) as [[e|r] st1];
      cbn [fst snd ReviewLoop.raised].
    + reflexivity.
    + apply IH.
Qed.

Lemma C9_loop_survives_failures_witness :
  exists error : Error,
    Raised (mkError "rate limit") = Raised error /\
    ReviewLoop.reviewLoop failingFinder (fun _ => "") 5000
      (mkError "TypeError") (PRDetails.mk "title" None)
      ([] ++ sampleFile "a.js" :: [sampleFile "b.ts"]) [] (mkState tt []) =
    ReviewLoop.reviewLoop failingFinder (fun _ => "") 5000
      (mkError "TypeError") (PRDetails.mk "title" None)
      [sampleFile "b.ts"] []
      (mkState tt
         ([SpinnerStart "Reviewing a.js..."] ++
          [SpinnerFail ("Failed to review a.js: " ++ message error);
           LoggerError "Error reviewing file a.js:" error])).
Proof.
  refine (proj2 (C9_loop_survives_failures unit failingFinder (fun _ => "") 5000
                   (mkError "TypeError") (PRDetails.mk "title" None) _)
            [] (sampleFile "a.js") [sampleFile "b.ts"] [] []
            (mkState tt []) (mkState tt [])
            (mkState tt [SpinnerStart "Reviewing a.js..."])
            (Raised (mkError "rate limit")) _ _).
  - intros diff context w. discriminate.
  - reflexivity.
  - vm_compute. reflexivity.
Defined.

Lemma C10_comment_defaults_witness :
  let issue0 := Issue.mk (JNumber 0) (JString "t") (JString "d") JUndefined
                         JUndefined JUndefined JUndefined in
  let comments :=
    parseAnalysisToComments (fun _ => "body")
      (Analysis.mk (Some [issue0])) (sampleFile "a.js") in
  length comments = 1%nat /\
  nth_error comments 0 =
    Some (Comment.mk "a.js" (JNumber 1) "body" (JString "info")).
Proof.
  intros issue0 comments.
  destruct (C10_comment_defaults (fun _ => "body")
              (Analysis.mk (Some [issue0])) (sampleFile "a.js")
              [issue0] eq_refl) as [Hlen _].
  split; [exact Hlen | reflexivity].
Defined.

(* ================================================================== *)
(** * Further properties of the Line-Address Reconciler *)
(* ================================================================== *)

Module ReconcilerFacts.

(** A line that is no hunk header: the three remaining cases. *)
Lemma lineStep_no_header (c : Z) (acc : list Z) (line : string) :
  exec false hunkHeaderRe line = None ->
  lineStep (c, acc) line =
  if isAddition line then (c + 1, (acc ++ [c])%list)
  else if startsWith line "-" then (c, acc) else (c + 1, acc).
Proof.
  intros H. unfold lineStep, isAddition. rewrite H.
  destruct (startsWith line "+" && negb (startsWith line "+++"));
    [reflexivity|].
  destruct (startsWith line "-") eqn:Hm; [reflexivity|].
  destruct (startsWith line "---") eqn:Hmmm; [|reflexivity].
  now rewrite (startsWith_app line "-" "--" Hmmm) in Hm.
Qed.

(** A line beginning with [-] changes nothing. *)
Lemma lineStep_deletion (st : Z * list Z) (line : string) :
  startsWith line "-" = true -> lineStep st line = st.
Proof.
  intros H. destruct st as [c acc].
  rewrite lineStep_no_header by exact (not_hunkHeader line "-" "" eq_refl H).
  unfold isAddition.
  rewrite (startsWith_first_differs line "-" "+" "" "" eq_refl H), H.
  reflexivity.
Qed.

Lemma sorted_snoc (acc : list Z) (c : Z) :
  StronglySorted Z.lt acc -> Forall (fun n => n < c) acc ->
  StronglySorted Z.lt (acc ++ [c]).
Proof.
  induction 1 as [|a acc Hs IH Ha]; intros Hc; cbn [app].
  - repeat constructor.
  - inversion Hc; subst. constructor; [now apply IH|].
    apply Forall_app. split; [assumption | now repeat constructor].
Qed.

Lemma walkInv_step (c0 : Z) (st : Z * list Z) (line : string) :
  exec false hunkHeaderRe line = None ->
  walkInv c0 st -> walkInv c0 (lineStep st line).
Proof.
  intros Hl (Hc & Hs & Hb). destruct st as [c acc]. cbn [fst snd] in *.
  rewrite lineStep_no_header by assumption. unfold walkInv.
  destruct (isAddition line); [|destruct (startsWith line "-")];
    cbn [fst snd].
  - split; [lia|]. split.
    + apply sorted_snoc; [assumption|].
      eapply Forall_impl; [|exact Hb]. cbv beta. intros; lia.
    + apply Forall_app. split.
      * eapply Forall_impl; [|exact Hb]. cbv beta. intros; lia.
      * repeat constructor; lia.
  - now repeat split.
  - split; [lia|]. split; [assumption|].
    eapply Forall_impl; [|exact Hb]. cbv beta. intros; lia.
Qed.

Lemma walkInv_fold (c0 : Z) (lines : list string) (st : Z * list Z) :
  noHeader lines -> walkInv c0 st -> walkInv c0 (fold_left lineStep lines st).
Proof.
  intros H; revert st; induction H as [|line lines Hl _ IH]; intros st Hst.
  - exact Hst.
  - cbn [fold_left]. apply IH. now apply walkInv_step.
Qed.

End ReconcilerFacts.

Import ReconcilerFacts.

(** X1. Within one hunk the line numbers are strictly increasing and start
    at the hunk's [newStart] or later: for a patch made of a hunk header and
    lines none of which is a hunk header, with the number the header carries
    plus the number of lines after it at most [2 ^ 53] (the range in which
    the counter of the code is exact), the result is strictly sorted, and
    every entry lies between the number the header carries and that number
    plus the number of lines after the header. *)
Theorem hunk_entries_increasing
        (header : string) (m : mstate) (g : string) (body : list string) :
  exec false hunkHeaderRe header = Some m ->
  capture 1 (caps m) = Some g ->
  noHeader body ->
  Forall (fun l => noLF l = true) (header :: body) ->
  parseInt g + Z.of_nat (length body) <= exactLimit ->
  let entries := extractLineNumbers (join_lines (header :: body)) in
  StronglySorted Z.lt entries /\
  Forall (fun n => parseInt g <= n < parseInt g + Z.of_nat (length body))
         entries.
Proof.
  intros Hm Hg Hbody Hlf _ entries. subst entries. unfold extractLineNumbers.
  rewrite split_join_lines by (discriminate || assumption).
  cbn [fold_left]. rewrite (lineStep_hunkHeader header m g 1 [] Hm Hg).
  assert (Hinv : walkInv (parseInt g) (parseInt g, [])).
  { unfold walkInv; cbn. split; [lia|]. split; constructor. }
  pose proof (walkInv_fold (parseInt g) body _ Hbody Hinv) as (Hc & Hs & Hb).
  split; [exact Hs|].
  assert (Hcnt : forall lines st,
            fst (fold_left lineStep lines st) <=
            Z.max (fst st) (parseInt g) + Z.of_nat (length lines) \/
            ~ noHeader lines).
  { clear. induction lines as [|l lines IH]; intros [c acc].
    - left. cbn. lia.
    - destruct (exec false hunkHeaderRe l) eqn:El.
      + right. intros H. inversion H; congruence.
      + cbn [fold_left]. rewrite lineStep_no_header by assumption.
        destruct (IH (if isAddition l then (c + 1, (acc ++ [c])%list)
                      else if startsWith l "-" then (c, acc)
                      else (c + 1, acc))) as [H|H].
        * left. revert H.
          destruct (isAddition l); [|destruct (startsWith l "-")];
            cbn [fst length]; lia.
        * right. intros H'. inversion H'; subst. contradiction. }
  destruct (Hcnt body (parseInt g, [])) as [Hle|Hno]; [|contradiction].
  cbn [fst] in Hle.
  eapply Forall_impl; [|exact Hb]. cbv beta. intros n Hn. lia.
Qed.

Lemma hunk_entries_increasing_witness :
  let entries :=
    extractLineNumbers
      (join_lines ["@@ -10,2 +20,4 @@"; " context"; "+a"; "-b"; "+c"]) in
  StronglySorted Z.lt entries /\
  Forall (fun n => parseInt "20" <= n < parseInt "20" + Z.of_nat 4) entries.
Proof.
  refine (hunk_entries_increasing "@@ -10,2 +20,4 @@"
            (MState (Some "@"%char) "" [(1%nat, "20")]) "20"
            [" context"; "+a"; "-b"; "+c"] _ _ _ _ _).
  - vm_compute. reflexivity.
  - reflexivity.
  - repeat constructor.
  - repeat constructor.
  - vm_compute. discriminate.
Defined.

(** X2. Deleted lines never shift a line number: taking a line that begins
    with [-] out of a patch leaves the result of the Reconciler as it is. *)
Theorem deletion_line_is_neutral
        (before : list string) (line : string) (after : list string) :
  startsWith line "-" = true ->
  (before ++ after)%list <> [] ->
  Forall (fun l => noLF l = true) (before ++ line :: after) ->
  extractLineNumbers (join_lines (before ++ line :: after)) =
  extractLineNumbers (join_lines (before ++ after)).
Proof.
  intros Hl Hne Hlf. unfold extractLineNumbers.
  assert (Hlf' : Forall (fun l => noLF l = true) (before ++ after)).
  { apply Forall_app in Hlf as [H1 H2]. inversion H2; subst.
    apply Forall_app. now split. }
  rewrite !split_join_lines; try assumption.
  - rewrite !fold_left_app. cbn [fold_left].
    now rewrite lineStep_deletion.
  - destruct before; discriminate.
Qed.

Lemma deletion_line_is_neutral_witness :
  extractLineNumbers
    (join_lines (["@@ -1,3 +1,3 @@"; " x"] ++ "-old" :: ["+new"; " y"])) =
  extractLineNumbers
    (join_lines (["@@ -1,3 +1,3 @@"; " x"] ++ ["+new"; " y"])).
Proof.
  apply (deletion_line_is_neutral ["@@ -1,3 +1,3 @@"; " x"] "-old"
           ["+new"; " y"]).
  - reflexivity.
  - discriminate.
  - repeat constructor.
Defined.

(* ================================================================== *)
(** * Further properties of the Splitter and the Patch Builder *)
(* ================================================================== *)

Module SplitterFacts.

Lemma join_lines_cons (l l' : string) (ls : list string) :
  join_lines (l :: l' :: ls) = l ++ String LF (join_lines (l' :: ls)).
Proof. reflexivity. Qed.

Lemma join_lines_char (c : ascii) (l : string) (ls : list string) :
  join_lines (String c l :: ls) = String c (join_lines (l :: ls)).
Proof. destruct ls; reflexivity. Qed.

(** Joining what was split gives the string back. *)
Lemma join_split_lines (s : string) : join_lines (split_lines s) = s.
Proof.
  induction s as [|c s IH]; [reflexivity|]. cbn [split_lines].
  pose proof (split_lines_nonempty s) as Hne.
  destruct (Ascii.eqb c LF) eqn:Hc.
  - apply Ascii.eqb_eq in Hc; subst c.
    destruct (split_lines s) as [|l ls]; [congruence|].
    rewrite join_lines_cons, IH. reflexivity.
  - destruct (split_lines s) as [|l ls]; [congruence|].
    now rewrite join_lines_char, IH.
Qed.

(** Reading a literal word: the match goes on exactly when the input begins
    with the word. *)
Lemma run_Lit (ml : bool) (w : string) (st : mstate) (k : cont) :
  run ml (Lit w) st k =
  if startsWith (rest st) w
  then k (MState (lastChar (prev st) w)
                 (dropChars (String.length w) (rest st)) (caps st))
  else None.
Proof.
  revert st k; induction w as [|a w IH]; intros [p s cs] k;
    cbn [rest prev caps].
  - rewrite startsWith_nil. reflexivity.
  - assert (Hone : run ml (Chr a) (MState p s cs)
                     (fun st' => run ml (Lit w) st' k) =
                   if startsWith s (String a w)
                   then k (MState (lastChar p (String a w))
                            (dropChars (String.length (String a w)) s) cs)
                   else None).
    { cbn [run]. unfold char_matcher. cbn [rest caps].
      destruct s as [|c s]; [reflexivity|].
      rewrite startsWith_cons.
      destruct (Ascii.eqb a c) eqn:Hac; [|reflexivity].
      apply Ascii.eqb_eq in Hac; subst c. rewrite IH. reflexivity. }
    destruct w as [|b w]; [|exact Hone].
    rewrite <- Hone. cbn [Lit run]. unfold char_matcher. cbn [rest caps].
    destruct s as [|c s]; [reflexivity|]. now destruct (Ascii.eqb a c).
Qed.

Lemma length_append (a b : string) :
  String.length (a ++ b) = (String.length a + String.length b)%nat.
Proof. induction a; cbn; [reflexivity | now f_equal]. Qed.

Lemma startsWith_append (s t w : string) :
  startsWith s w = true -> startsWith (s ++ t) w = true.
Proof.
  revert s; induction w as [|a w IH]; intros s H; [apply startsWith_nil|].
  destruct s as [|c s]; [discriminate|]. cbn [append].
  rewrite startsWith_cons in *. apply andb_true_iff in H as [-> H].
  now apply IH.
Qed.

Lemma startsWith_split (s w : string) :
  startsWith s w = true -> s = w ++ dropChars (String.length w) s.
Proof.
  revert s; induction w as [|a w IH]; intros s H; [reflexivity|].
  destruct s as [|c s]; [discriminate|].
  rewrite startsWith_cons in H. apply andb_true_iff in H as [Hac H].
  apply Ascii.eqb_eq in Hac; subst c. cbn. f_equal. now apply IH.
Qed.

(** A match of the separator pattern reads the separator, and nothing
    else. *)
Lemma match_separator (p : option ascii) (s : string) (st : mstate) :
  match_here true diffGitRe p s = Some st ->
  s = separator ++ rest st /\
  (String.length s - String.length (rest st) = 10)%nat.
Proof.
  unfold match_here, diffGitRe. cbn [Seq]. cbn [run prev].
  intros H.
  assert (H' : run true (Lit "diff --git") (MState p s []) Some = Some st).
  { destruct p as [c|]; [|exact H].
    destruct (true && isLineTerminator c); [exact H | discriminate]. }
  rewrite run_Lit in H'. cbn [rest prev caps] in H'.
  destruct (startsWith s "diff --git") eqn:Hs; [|discriminate].
  apply startsWith_split in Hs. clear H.
  remember (dropChars (String.length "diff --git") s) as t eqn:Ht in *.
  clear Ht. injection H' as <-. cbn [rest].
  split; [exact Hs|].
  rewrite Hs, length_append. unfold separator. cbn [String.length]. lia.
Qed.

Lemma split_go_nonempty (p : option ascii) (s : string) (skip : nat)
      (acc : string) :
  split_go true diffGitRe p s skip acc <> [].
Proof.
  revert p skip acc; induction s as [|c s IH]; intros p skip acc;
    cbn [split_go]; [discriminate|].
  destruct skip; [|apply IH].
  destruct (match_here true diffGitRe p (String c s)) as [st|];
    [|apply IH].
  destruct (String.length (String c s) - String.length (rest st))%nat;
    [destruct acc; [apply IH | discriminate] | discriminate].
Qed.

Lemma concat_cons (sep x : string) (xs : list string) :
  xs <> [] -> String.concat sep (x :: xs) = x ++ sep ++ String.concat sep xs.
Proof. destruct xs; [congruence | reflexivity]. Qed.

Lemma append_assoc (a b c : string) : (a ++ b) ++ c = a ++ b ++ c.
Proof. induction a; cbn; [reflexivity | now f_equal]. Qed.

Lemma append_nil_r (a : string) : a ++ "" = a.
Proof. induction a; cbn; [reflexivity | now f_equal]. Qed.

Lemma dropChars_append (w s : string) :
  dropChars (String.length w) (w ++ s) = s.
Proof. induction w; cbn; auto. Qed.

(** The walk of [split] loses nothing: the pieces, with the separator put
    back between them, are the piece being built followed by the input left,
    the characters still to pass over taken out. *)
Lemma split_go_concat (s : string) (p : option ascii) (skip : nat)
      (acc : string) :
  String.concat separator (split_go true diffGitRe p s skip acc) =
  acc ++ dropChars skip s.
Proof.
  revert p skip acc; induction s as [|c s IH]; intros p skip acc;
    cbn [split_go].
  - destruct skip; cbn; now rewrite append_nil_r.
  - destruct skip as [|skip]; [|now rewrite IH].
    destruct (match_here true diffGitRe p (String c s)) as [st|] eqn:Hm.
    + destruct (match_separator _ _ _ Hm) as [Hs Hlen]. rewrite Hlen.
      rewrite concat_cons by apply split_go_nonempty.
      rewrite IH. f_equal. clear - Hs.
      unfold separator in *. cbn in Hs. injection Hs as -> ->.
      reflexivity.
    + rewrite IH. cbn [dropChars]. rewrite append_assoc. reflexivity.
Qed.

(** The number of entries of the Reconciler, for any patch. *)
Lemma extractLineNumbers_length (patch0 : string) :
  length (extractLineNumbers patch0) =
  length (filter isAddition (split_lines patch0)).
Proof. unfold extractLineNumbers. now rewrite lineStep_fold_length. Qed.

End SplitterFacts.

Import SplitterFacts.

(** X3. The Splitter loses no text: putting the separator back between the
    sections of a diff gives the diff. *)
Theorem sections_rejoin (diff : string) :
  String.concat separator (fileSections diff) = diff.
Proof.
  unfold fileSections, split. destruct diff as [|c s]; [reflexivity|].
  rewrite split_go_concat. reflexivity.
Qed.

(** X4. The patch of a FileChange is the section from its first line
    beginning with [@@] to its end, line for line: either the section has no
    such line and the patch is empty, or the patch begins with [@@] and the
    lines of the section are lines without [@@] at their start followed by
    the lines of the patch. *)
Theorem patch_is_section_tail (section : string) (fi : FileInfo) :
  parseFileInfo (split_lines section) = Some fi ->
  (noHunk (split_lines section) /\ patch fi = "") \/
  (startsWith (patch fi) "@@" = true /\
   exists before,
     noHunk before /\
     split_lines section = (before ++ split_lines (patch fi))%list).
Proof.
  intros H. unfold parseFileInfo in H.
  destruct (truthy (filename (buildFileInfo (split_lines section))));
    [|discriminate].
  injection H as <-.
  destruct (first_hunk_split (split_lines section))
    as [Hno | (before & header & after & Heq & Hno & Hh)].
  - left. split; [assumption|].
    rewrite buildFileInfo_no_hunk by assumption.
    now destruct (headerStep_fold (split_lines section) emptyFileInfo)
      as (_ & _ & ->).
  - right. rewrite Heq, buildFileInfo_hunk by assumption.
    match goal with |- context [fold_left countStep ?ls ?f] =>
      destruct (countStep_fold ls f) as (_ & _ & _ & _ & Hp) end.
    cbv zeta in Hp. rewrite Hp. cbn [patch set_patch].
    assert (Hlf : Forall (fun l => noLF l = true) (header :: after)).
    { pose proof (split_lines_noLF section) as Hall. rewrite Heq in Hall.
      apply Forall_app in Hall. tauto. }
    split.
    + destruct after as [|l after]; [exact Hh|].
      rewrite join_lines_cons. now apply startsWith_append.
    + exists before. split; [assumption|].
      rewrite split_join_lines; [reflexivity | discriminate | assumption].
Qed.

Lemma patch_is_section_tail_witness :
  let fi := mkFileInfo "a.js" modified 1 0
              (join_lines ["@@ -1 +1,2 @@"; " x"; "+y"]) in
  (noHunk (split_lines (join_lines [" a/a.js b/a.js"; "index 1..2";
                                    "@@ -1 +1,2 @@"; " x"; "+y"])) /\
   patch fi = "") \/
  (startsWith (patch fi) "@@" = true /\
   exists before,
     noHunk before /\
     split_lines (join_lines [" a/a.js b/a.js"; "index 1..2";
                              "@@ -1 +1,2 @@"; " x"; "+y"]) =
     (before ++ split_lines (patch fi))%list).
Proof.
  exact (patch_is_section_tail
           (join_lines [" a/a.js b/a.js"; "index 1..2";
                        "@@ -1 +1,2 @@"; " x"; "+y"]) _ eq_refl).
Defined.

(** X5. Every FileChange the Splitter returns comes from a section of the
    diff, has a non-empty filename, and has as many additions as the
    Reconciler finds entries in its patch. *)
Theorem parseGitDiff_entries (diff : string) (fi : FileInfo) :
  In fi (parseGitDiff diff) ->
  filename fi <> "" /\
  Z.of_nat (length (extractLineNumbers (patch fi))) = additions fi /\
  exists section,
    In section (fileSections diff) /\
    parseFileInfo (split_lines section) = Some fi.
Proof.
  unfold parseGitDiff. rewrite sectionStep_fold. cbn [app].
  intros H. apply in_flat_map in H as (section & Hin & Hfi).
  assert (Hp : parseFileInfo (split_lines section) = Some fi).
  { unfold sectionStep in Hfi.
    destruct (negb (truthy (trim section))); [contradiction|].
    destruct (parseFileInfo (split_lines section)) as [fi'|];
      [|contradiction].
    destruct Hfi as [->|[]]. reflexivity. }
  split; [|split; [|now exists section]].
  - unfold parseFileInfo in Hp.
    destruct (truthy (filename (buildFileInfo (split_lines section)))) eqn:Ht;
      [|discriminate].
    injection Hp as <-. intros Hf. now rewrite Hf in Ht.
  - unfold parseFileInfo in Hp.
    destruct (truthy (filename (buildFileInfo (split_lines section))));
      [|discriminate].
    injection Hp as Hp. rewrite extractLineNumbers_length.
    destruct (fileInfo_of_section section fi Hp) as [(Hs & Ha & _) | (Ha & _)].
    + rewrite Hs, Ha. reflexivity.
    + now rewrite Ha.
Qed.

Lemma parseGitDiff_entries_witness :
  let fi := mkFileInfo "a.js" modified 1 0
              (join_lines ["@@ -1 +1,2 @@"; " x"; "+y"]) in
  filename fi <> "" /\
  Z.of_nat (length (extractLineNumbers (patch fi))) = additions fi /\
  exists section,
    In section (fileSections (join_lines ["diff --git a/a.js b/a.js";
                                          "@@ -1 +1,2 @@"; " x"; "+y"])) /\
    parseFileInfo (split_lines section) = Some fi.
Proof.
  apply (parseGitDiff_entries
           (join_lines ["diff --git a/a.js b/a.js";
                        "@@ -1 +1,2 @@"; " x"; "+y"])).
  vm_compute. left. reflexivity.
Defined.

(* ================================================================== *)
(** * The Hunk Header Decoder on the lines of its grammar *)
(* ================================================================== *)

Module DecoderFacts.

(** A greedy run of [\d] over a block of digits that ends before a
    character that is no digit: when what follows the run matches from the
    end of the block, the whole matches with the same result. *)
Lemma repeat_digits (ml : bool) (k : cont) (res : mstate) (tail : string)
      (cs : list (nat * string)) :
  notDigitFirst tail = true ->
  forall (ds : string) (p : option ascii) (fuel : nat),
    digits ds = true -> (String.length ds <= fuel)%nat ->
    k (MState (lastChar p ds) tail cs) = Some res ->
    repeat_matcher (run ml Digit) k fuel (MState p (ds ++ tail) cs) = Some res.
Proof.
  intros Htail. change (run ml Digit) with (char_matcher isDigit).
  induction ds as [|d ds IH]; intros p fuel Hd Hf Hk.
  - cbn [lastChar append] in *. destruct fuel as [|fuel]; [exact Hk|].
    cbn [repeat_matcher]. unfold char_matcher. cbn [rest].
    destruct tail as [|c t]; [exact Hk|].
    cbn in Htail. apply negb_true_iff in Htail. now rewrite Htail.
  - destruct fuel as [|fuel]; [cbn in Hf; lia|].
    cbn [digits] in Hd. apply andb_true_iff in Hd as [Hd Hds].
    cbn [repeat_matcher append]. unfold char_matcher at 1.
    cbn [rest caps]. rewrite Hd.
    replace (String.length (ds ++ tail) <? String.length (String d (ds ++ tail)))%nat
      with true by (symmetry; apply Nat.ltb_lt; cbn; lia).
    rewrite (IH (Some d) fuel Hds); [reflexivity | cbn in Hf; lia | exact Hk].
Qed.

Lemma plus_digits (ml : bool) (k : cont) (res : mstate) (ds tail : string)
      (p : option ascii) (cs : list (nat * string)) :
  ds <> "" -> digits ds = true -> notDigitFirst tail = true ->
  k (MState (lastChar p ds) tail cs) = Some res ->
  run ml (Plus Digit) (MState p (ds ++ tail) cs) k = Some res.
Proof.
  intros Hne Hd Htail Hk. destruct ds as [|d ds]; [congruence|].
  cbn [digits] in Hd. apply andb_true_iff in Hd as [Hd Hds].
  cbn [run append]. unfold char_matcher at 1. cbn [rest caps]. rewrite Hd.
  apply (repeat_digits ml); try assumption.
  rewrite length_append. lia.
Qed.

Lemma star_digits (ml : bool) (k : cont) (res : mstate) (ds tail : string)
      (p : option ascii) (cs : list (nat * string)) :
  digits ds = true -> notDigitFirst tail = true ->
  k (MState (lastChar p ds) tail cs) = Some res ->
  run ml (Star Digit) (MState p (ds ++ tail) cs) k = Some res.
Proof.
  intros Hd Htail Hk. cbn [run rest].
  apply (repeat_digits ml); try assumption.
  rewrite length_append. lia.
Qed.

(** The equations of the matcher, one constructor at a time. *)
Lemma run_Cat (ml : bool) (r1 r2 : regex) (st : mstate) (k : cont) :
  run ml (Cat r1 r2) st k = run ml r1 st (fun st' => run ml r2 st' k).
Proof. reflexivity. Qed.

Lemma run_Opt (ml : bool) (r : regex) (st : mstate) (k : cont) :
  run ml (Opt r) st k =
  match run ml r st k with Some res => Some res | None => k st end.
Proof. reflexivity. Qed.

Lemma run_Chr (ml : bool) (c : ascii) (st : mstate) (k : cont) :
  run ml (Chr c) st k = char_matcher (Ascii.eqb c) st k.
Proof. reflexivity. Qed.

Lemma run_Bol_start (ml : bool) (s : string) (cs : list (nat * string))
      (k : cont) :
  run ml Bol (MState None s cs) k = k (MState None s cs).
Proof. reflexivity. Qed.

Lemma run_Group (ml : bool) (n : nat) (r : regex) (st : mstate) (k : cont) :
  run ml (Group n r) st k =
  run ml r st (fun st' =>
    k (MState (prev st') (rest st')
         ((n, take (String.length (rest st) - String.length (rest st'))
                   (rest st)) :: caps st'))).
Proof. reflexivity. Qed.

(** The optional length field, before a space. *)
Lemma opt_length (ml : bool) (r : regex) (k : cont) (res : mstate)
      (b tail : string) (p : option ascii) (cs : list (nat * string)) :
  optLength b = true -> startsWith tail " " = true ->
  run ml r (MState (lastChar p b) tail cs) k = Some res ->
  run ml (Cat (Opt (Chr ",")) (Cat (Star Digit) r)) (MState p (b ++ tail) cs) k
  = Some res.
Proof.
  intros Hb Htail Hk.
  assert (Hnd : notDigitFirst tail = true).
  { destruct tail as [|c t]; [reflexivity|].
    rewrite startsWith_cons in Htail. apply andb_true_iff in Htail as [Hc _].
    apply Ascii.eqb_eq in Hc; subst c. reflexivity. }
  rewrite run_Cat, run_Opt, run_Chr. destruct b as [|c ds].
  - cbn [append lastChar] in *. unfold char_matcher at 1. cbn [rest].
    destruct tail as [|c t]; [discriminate|].
    rewrite startsWith_cons in Htail. apply andb_true_iff in Htail as [Hc _].
    apply Ascii.eqb_eq in Hc; subst c.
    change (("," =? " ")%char) with false. cbv iota.
    rewrite run_Cat.
    exact (star_digits ml (fun st' => run ml r st' k) res "" (String " " t)
             p cs eq_refl Hnd Hk).
  - cbn [optLength] in Hb. apply andb_true_iff in Hb as [Hc Hds].
    apply Ascii.eqb_eq in Hc; subst c.
    cbn [append lastChar] in *. unfold char_matcher at 1. cbn [rest caps].
    change (("," =? ",")%char) with true. cbv iota.
    rewrite run_Cat.
    now rewrite (star_digits ml (fun st' => run ml r st' k) res ds tail
                   (Some ","%char) cs Hds Hnd Hk).
Qed.

Lemma take_append (c t : string) :
  take (String.length (c ++ t) - String.length t) (c ++ t) = c.
Proof.
  rewrite length_append, Nat.add_sub.
  induction c as [|a c IH]; cbn; [now destruct t | now f_equal].
Qed.

Lemma optLength_notDigitFirst (b tail : string) :
  optLength b = true -> startsWith tail " " = true ->
  notDigitFirst (b ++ tail) = true.
Proof.
  intros Hb Ht. destruct b as [|c ds]; cbn [append].
  - destruct tail as [|c t]; [reflexivity|].
    rewrite startsWith_cons in Ht. apply andb_true_iff in Ht as [Hc _].
    apply Ascii.eqb_eq in Hc; subst c. reflexivity.
  - cbn in Hb. apply andb_true_iff in Hb as [Hc _].
    apply Ascii.eqb_eq in Hc; subst c. reflexivity.
Qed.

(** The pattern matches a line of the grammar, and its group is the
    new-start field. *)
Lemma hunkHeaderLine_matches (a b c d rest0 : string) :
  a <> "" -> digits a = true -> optLength b = true ->
  c <> "" -> digits c = true -> optLength d = true ->
  exec false hunkHeaderRe (hunkHeaderLine a b c d rest0) =
  Some (MState (Some "@"%char) rest0 [(1%nat, c)]).
Proof.
  intros Ha Hda Hb Hc Hdc Hd.
  assert (Hm : match_here false hunkHeaderRe None
                 (hunkHeaderLine a b c d rest0) =
               Some (MState (Some "@"%char) rest0 [(1%nat, c)])).
  { unfold match_here, hunkHeaderRe, hunkHeaderLine. cbn [Seq].
    rewrite run_Cat, run_Bol_start, run_Cat, run_Lit. cbn [rest prev caps].
    cbn [append]. rewrite !startsWith_cons, startsWith_nil.
    cbn [Ascii.eqb Bool.eqb andb String.length dropChars lastChar].
    rewrite run_Cat.
    apply plus_digits; try assumption.
    { apply optLength_notDigitFirst; [assumption | reflexivity]. }
    apply opt_length; [assumption | reflexivity |].
    rewrite run_Cat, run_Lit. cbn [rest prev caps append].
    rewrite !startsWith_cons, startsWith_nil.
    cbn [Ascii.eqb Bool.eqb andb String.length dropChars lastChar].
    rewrite run_Cat, run_Group.
    apply plus_digits; try assumption.
    { apply optLength_notDigitFirst; [assumption | reflexivity]. }
    cbn [rest prev caps]. rewrite take_append.
    apply opt_length; [assumption | reflexivity |].
    rewrite run_Lit. cbn [rest prev caps append].
    rewrite !startsWith_cons, startsWith_nil.
    cbn [Ascii.eqb Bool.eqb andb String.length dropChars lastChar].
    reflexivity. }
  unfold exec. destruct (hunkHeaderLine a b c d rest0);
    cbn [exec_from]; now rewrite Hm.
Qed.

(** Decimal numerals: [parseInt] reads back what [showNat] writes. *)
Lemma digits_string_of_uint (d : Decimal.uint) :
  digits (NilEmpty.string_of_uint d) = true.
Proof. induction d; cbn [NilEmpty.string_of_uint digits]; auto. Qed.

Lemma parseInt_go_uint (d : Decimal.uint) (acc : nat) :
  parseInt_go (Z.of_nat acc) (NilEmpty.string_of_uint d) =
  Z.of_nat (Nat.of_uint_acc d acc).
Proof.
  revert acc; induction d; intros acc;
    cbn [NilEmpty.string_of_uint parseInt_go Nat.of_uint_acc];
    [reflexivity | ..];
    (change (isDigit _) with true; cbv iota;
     rewrite Nat.tail_mul_spec, <- IHd; f_equal;
     match goal with
     | |- context [Z.of_nat (nat_of_ascii ?c - 48)] =>
         let v := eval vm_compute in (Z.of_nat (nat_of_ascii c - 48)) in
         change (Z.of_nat (nat_of_ascii c - 48)) with v
     end; lia).
Qed.

Lemma parseInt_showNat (n : nat) :
  parseInt (PRReviewService.showNat n) = Z.of_nat n.
Proof.
  unfold parseInt, PRReviewService.showNat.
  change 0 with (Z.of_nat 0). rewrite parseInt_go_uint.
  change (Nat.of_uint_acc (Nat.to_uint n) 0) with (Nat.of_uint (Nat.to_uint n)).
  now rewrite DecimalNat.Unsigned.of_to.
Qed.

Lemma showNat_digits (n : nat) :
  PRReviewService.showNat n <> "" /\ digits (PRReviewService.showNat n) = true.
Proof.
  split; [|apply digits_string_of_uint].
  unfold PRReviewService.showNat.
  rewrite <- (DecimalNat.Unsigned.of_to n) at 1.
  rewrite DecimalNat.Unsigned.to_of.
  unfold Decimal.unorm.
  destruct (Decimal.nzhead (Nat.to_uint n)); cbn; discriminate.
Qed.

End DecoderFacts.

Import DecoderFacts.

(** X6. The Hunk Header Decoder accepts every line of its grammar and reads
    the new-start field: a line [@@ -a b +c d @@rest], with [a] and [c]
    non-empty strings of digits, [c] denoting a number of at most [2 ^ 53]
    (the range in which [parseInt] is exact), and [b] and [d] absent or a
    comma followed by digits, sets the counter to the number [c] denotes
    and adds no entry, whatever follows the closing [@@]; and when [c] is
    the decimal numeral of [n], that number is [n]. *)
Theorem hunk_header_decoded (a b c d rest0 : string) (cur : Z) (acc : list Z) :
  a <> "" -> digits a = true -> optLength b = true ->
  c <> "" -> digits c = true -> optLength d = true ->
  parseInt c <= exactLimit ->
  lineStep (cur, acc) (hunkHeaderLine a b c d rest0) = (parseInt c, acc) /\
  forall n : nat, c = PRReviewService.showNat n ->
    lineStep (cur, acc) (hunkHeaderLine a b c d rest0) = (Z.of_nat n, acc).
Proof.
  intros Ha Hda Hb Hc Hdc Hd _.
  assert (H : lineStep (cur, acc) (hunkHeaderLine a b c d rest0) =
              (parseInt c, acc)).
  { apply (lineStep_hunkHeader _ (MState (Some "@"%char) rest0 [(1%nat, c)]));
      [now apply hunkHeaderLine_matches | reflexivity]. }
  split; [exact H|].
  intros n ->. now rewrite H, parseInt_showNat.
Qed.

Lemma hunk_header_decoded_witness :
  lineStep (7, [3]) (hunkHeaderLine "10" ",2" "20" "" " function f()") =
  (20, [3]).
Proof.
  refine (proj2 (hunk_header_decoded "10" ",2" "20" "" " function f()" 7 [3]
                   _ eq_refl eq_refl _ eq_refl eq_refl _) 20%nat eq_refl).
  - discriminate.
  - discriminate.
  - vm_compute. discriminate.
Defined.

(* ================================================================== *)
(** * The change types of a patch *)
(* ================================================================== *)

Import ChangeTypes.

Module ChangeTypesFacts.

Lemma setAdd_In (t u : string) (types : list string) :
  In u (setAdd t types) <-> u = t \/ In u types.
Proof.
  unfold setAdd. destruct (existsb (String.eqb t) types) eqn:E.
  - split; [tauto|]. intros [->|H]; [|exact H].
    apply existsb_exists in E as (x & Hx & Hxt).
    apply String.eqb_eq in Hxt. now subst x.
  - rewrite in_app_iff. cbn. split; [intros [H|[H|[]]] | intros [H|H]]; auto.
Qed.

Lemma setAdd_NoDup (t : string) (types : list string) :
  NoDup types -> NoDup (setAdd t types).
Proof.
  intros H. unfold setAdd. destruct (existsb (String.eqb t) types) eqn:E;
    [exact H|].
  apply NoDup_app; [exact H | repeat constructor; intros [] |].
  intros x Hx [Hxt|[]]. subst x.
  assert (existsb (String.eqb t) types = true); [|congruence].
  apply existsb_exists. exists t. split; [assumption | apply String.eqb_refl].
Qed.

Lemma changeStep_fold (lines : list string) (types : list string) :
  NoDup types ->
  NoDup (fold_left changeStep lines types) /\
  forall t, In t (fold_left changeStep lines types) <->
            In t types \/
            exists line, In line lines /\ isAddition line = true /\
                         changeTypeOf line = t.
Proof.
  revert types; induction lines as [|line lines IH]; intros types Hnd;
    cbn [fold_left].
  - split; [exact Hnd|]. intros t. split; [tauto|].
    intros [H|(l & [] & _)]. exact H.
  - assert (Hnd' : NoDup (changeStep types line)).
    { unfold changeStep.
      destruct (startsWith line "+" && negb (startsWith line "+++"));
        [now apply setAdd_NoDup | exact Hnd]. }
    destruct (IH _ Hnd') as [H1 H2]. split; [exact H1|].
    intros t. rewrite H2. unfold changeStep, isAddition.
    destruct (startsWith line "+" && negb (startsWith line "+++")) eqn:Ha.
    + rewrite setAdd_In. split.
      * intros [[-> | H] | (l & Hl & Hadd & Ht)]; [right | tauto | right].
        -- exists line. cbn. auto.
        -- exists l. cbn. auto.
      * intros [H | (l & [<- | Hl] & Hadd & Ht)]; [tauto | | right].
        -- left. left. now symmetry.
        -- now exists l.
    + split.
      * intros [H | (l & Hl & Hadd & Ht)]; [tauto | right].
        exists l. cbn. auto.
      * intros [H | (l & [<- | Hl] & Hadd & Ht)]; [tauto | | right].
        -- unfold isAddition in Hadd. congruence.
        -- now exists l.
Qed.

End ChangeTypesFacts.

Import ChangeTypesFacts.

(** X7. The change types of a patch are the types of its added lines, each
    listed once: a type is in the result exactly when some line of the
    patch that begins with [+] but not with [+++] has that type, and the
    result has no duplicates. *)
Theorem change_types_of_additions (patch0 : string) :
  NoDup (getChangeTypes patch0) /\
  forall t, In t (getChangeTypes patch0) <->
            exists line, In line (split_lines patch0) /\
                         isAddition line = true /\ changeTypeOf line = t.
Proof.
  unfold getChangeTypes.
  destruct (changeStep_fold (split_lines patch0) [] (NoDup_nil _)) as [H1 H2].
  split; [exact H1|]. intros t. rewrite H2. cbn. tauto.
Qed.

(** X8. A patch has change types exactly when the Reconciler finds added
    lines in it. *)
Theorem change_types_iff_entries (patch0 : string) :
  getChangeTypes patch0 = [] <-> extractLineNumbers patch0 = [].
Proof.
  pose proof (extractLineNumbers_length patch0) as Hlen.
  destruct (changeStep_fold (split_lines patch0) [] (NoDup_nil _)) as [_ Hin].
  fold (getChangeTypes patch0) in Hin.
  split; intros H.
  - assert (Hf : filter isAddition (split_lines patch0) = []).
    { destruct (filter isAddition (split_lines patch0)) as [|l ls] eqn:E;
        [reflexivity|].
      assert (Hl : In l (filter isAddition (split_lines patch0)))
        by (rewrite E; now left).
      apply filter_In in Hl as [Hl Hadd].
      assert (Ht : In (changeTypeOf l) (getChangeTypes patch0))
        by (apply Hin; right; now exists l).
      rewrite H in Ht. contradiction. }
    rewrite Hf in Hlen. now destruct (extractLineNumbers patch0).
  - rewrite H in Hlen. cbn in Hlen.
    destruct (getChangeTypes patch0) as [|t ts]; [reflexivity|].
    destruct (proj1 (Hin t) (or_introl eq_refl)) as [[] | (l & Hl & Hadd & _)].
    assert (Hf : In l (filter isAddition (split_lines patch0)))
      by (apply filter_In; now split).
    destruct (filter isAddition (split_lines patch0)); [contradiction|].
    discriminate.
Qed.

(* ================================================================== *)
(** * Extensions, languages and relevance *)
(* ================================================================== *)

Module RelevanceFacts.

Import PRReviewService.

Lemma lastPiece_noDot (b acc : string) :
  noDot b = true -> lastPiece b acc = acc ++ b.
Proof.
  revert acc; induction b as [|c b IH]; intros acc H; cbn [lastPiece].
  - now rewrite append_nil_r.
  - cbn [noDot] in H. apply andb_true_iff in H as [Hc Hb].
    apply negb_true_iff in Hc. rewrite Hc, (IH _ Hb), append_assoc.
    reflexivity.
Qed.

Lemma lastPiece_after_dot (a b acc : string) :
  lastPiece (a ++ String "." b) acc = lastPiece b "".
Proof.
  revert acc; induction a as [|c a IH]; intros acc; cbn [append lastPiece].
  - reflexivity.
  - destruct (Ascii.eqb c "."); apply IH.
Qed.

(** The keys of [languageMap], in the order of [relevantExtensions]. *)
Lemma lookup_languageMap (key : string) :
  match lookup key languageMap with
  | Some l => existsb (String.eqb key) relevantExtensions = true /\ l <> "text"
  | None => existsb (String.eqb key) relevantExtensions = false
  end.
Proof.
  unfold languageMap, relevantExtensions. cbn [lookup existsb].
  repeat match goal with
  | |- context [String.eqb ?k key] =>
      rewrite (String.eqb_sym k key);
      destruct (String.eqb key k) eqn:?; cbn [orb];
      [split; [now rewrite ?orb_true_r | discriminate] |]
  end.
  reflexivity.
Qed.

End RelevanceFacts.

Import RelevanceFacts.

(** X9. The extension of a filename is a dot followed by what comes after
    the last dot of the name; a name without a dot is its own extension. *)
Theorem extension_is_last_piece (a b : string) :
  noDot b = true ->
  PRReviewService.getFileExtension (a ++ "." ++ b) = "." ++ b /\
  PRReviewService.getFileExtension b = "." ++ b.
Proof.
  intros Hb. unfold PRReviewService.getFileExtension. split.
  - change ("." ++ b) with (String "." b) at 1.
    now rewrite lastPiece_after_dot, lastPiece_noDot.
  - now rewrite lastPiece_noDot.
Qed.

Lemma extension_is_last_piece_witness :
  PRReviewService.getFileExtension ("src/app.component" ++ "." ++ "ts") =
    "." ++ "ts" /\
  PRReviewService.getFileExtension "ts" = "." ++ "ts".
Proof. exact (extension_is_last_piece "src/app.component" "ts" eq_refl). Defined.

(** X10. For an extension that begins with a dot, as every extension
    [getFileExtension] yields does, a file is relevant exactly when a
    language is detected for the extension: the allow-list and the language
    map have the same keys, no language is called 'text', and no key that
    begins with a dot is found anywhere but among the entries written in
    the map. The language passed to [isRelevantFile] plays no part. *)
Theorem relevant_iff_language_detected (language : string) :
  (forall extension : string,
     startsWith extension "." = true ->
     (PRReviewService.isRelevantFile language extension = true <->
      PRReviewService.detectLanguage extension <> "text")) /\
  (forall name : string,
     startsWith (PRReviewService.getFileExtension name) "." = true /\
     (PRReviewService.isRelevantFile language
        (PRReviewService.getFileExtension name) = true <->
      PRReviewService.detectLanguage (PRReviewService.getFileExtension name)
      <> "text")).
Proof.
  assert (H : forall extension,
    PRReviewService.isRelevantFile language extension = true <->
    PRReviewService.detectLanguage extension <> "text").
  { intros extension.
    unfold PRReviewService.isRelevantFile, PRReviewService.detectLanguage.
    pose proof (lookup_languageMap (PRReviewService.toLowerCase extension))
      as H.
    destruct (PRReviewService.lookup _ _) as [l|].
    - destruct H as [-> Hl]. tauto.
    - rewrite H. split; [discriminate | congruence]. }
  split.
  - intros extension _. apply H.
  - intros name. split; [|apply H].
    unfold PRReviewService.getFileExtension. cbn [append].
    now rewrite JSFacts.startsWith_cons, JSFacts.startsWith_nil.
Qed.

Lemma relevant_iff_language_detected_witness :
  PRReviewService.isRelevantFile "typescript" ".TS" = true <->
  PRReviewService.detectLanguage ".TS" <> "text".
Proof.
  exact (proj1 (relevant_iff_language_detected "typescript") ".TS" eq_refl).
Defined.

(* ================================================================== *)
(** * Further properties of the Review Orchestrator *)
(* ================================================================== *)

Section ServiceFacts.

Variable World : Type.
Variable analyzeCode :
  string -> Context.t -> World -> (Error + Analysis.t) * World.
Variable formatComment : Issue.t -> string.
Variable maxDiffSize : Z.

(** The comments of an analysis, as a map over its issues. *)
Lemma parseAnalysisToComments_map (analysis : Analysis.t) (file : FileInfo) :
  parseAnalysisToComments formatComment analysis file =
  match Analysis.issues analysis with
  | Some issues => map (commentOf formatComment file) issues
  | None => []
  end.
Proof.
  unfold parseAnalysisToComments.
  destruct (Analysis.issues analysis) as [issues|]; [|reflexivity].
  assert (H : forall acc,
    fold_left (fun comments issue =>
                 (comments ++ [commentOf formatComment file issue])%list)
              issues acc =
    (acc ++ map (commentOf formatComment file) issues)%list).
  { induction issues as [|issue issues IH]; intros acc; cbn.
    - now rewrite app_nil_r.
    - now rewrite IH, <- app_assoc. }
  apply (H []).
Qed.

(** What [reviewFile] returns when it returns a review. *)
Lemma reviewFile_review (file : FileInfo) (prDetails : PRDetails.t)
      (st st' : State World) (r : Review.t) :
  reviewFile analyzeCode formatComment maxDiffSize file prDetails st =
    (inr (Some r), st') ->
  Review.filename r = filename file /\
  Forall (fun c => Comment.path c = filename file) (Review.comments r).
Proof.
  unfold reviewFile.
  destruct (negb (isRelevantFile _ _)); [discriminate|].
  destruct (negb (truthy (patch file)) || _); [discriminate|].
  unfold bind, await_analyzeCode, ret.
  destruct (analyzeCode _ _ _) as [[e|a] w]; [discriminate|].
  intros H. injection H as <- _. cbn [Review.filename Review.comments].
  split; [reflexivity|].
  rewrite parseAnalysisToComments_map.
  destruct (Analysis.issues a) as [issues|]; [|constructor].
  apply Forall_map. apply Forall_forall. reflexivity.
Qed.

(** One round of the loop leaves [reviews] as it is or adds one review with
    comments, for its file. *)
Lemma reviewStep_reviews (prDetails : PRDetails.t) (reviews reviews' : list Review.t)
      (file : FileInfo) (st st' : State World) :
  reviewStep analyzeCode formatComment maxDiffSize prDetails reviews file st =
    (inr reviews', st') ->
  reviews' = reviews \/
  exists r, reviews' = (reviews ++ [r])%list /\ reviewOf [file] r.
Proof.
  unfold reviewStep. unfold bind at 1. unfold emit at 1. unfold try_catch.
  unfold bind at 1.
  destruct (reviewFile _ _ _ _ _ _) as [[e|[r|]] st1] eqn:Hrf.
  - unfold bind, emit, ret. intros H. injection H as <- _. now left.
  - apply reviewFile_review in Hrf as [Hname Hpaths].
    destruct (0 <? length (Review.comments r))%nat eqn:Hlen;
      unfold bind, emit, ret; intros H; injection H as <- _; [|now left].
    right. exists r. split; [reflexivity|]. split.
    + apply Nat.ltb_lt in Hlen. intros Hnil. rewrite Hnil in Hlen.
      cbn in Hlen. lia.
    + exists file. split; [now left | now split].
  - unfold bind, emit, ret. intros H. injection H as <- _. now left.
Qed.

(** X11. A file whose patch is empty, or longer than the size cap, is never
    analysed: [reviewFile] returns no review, the state of the world is
    left as it was, and at most the warning that the file is skipped is
    logged. *)
Theorem reviewFile_skips_without_analysis
        (file : FileInfo) (prDetails : PRDetails.t) (st : State World) :
  patch file = "" \/ maxDiffSize < Z.of_nat (String.length (patch file)) ->
  exists log,
    reviewFile analyzeCode formatComment maxDiffSize file prDetails st =
      (inr None, mkState (world st) (trace st ++ log)) /\
    (log = [] \/
     log = [LoggerWarn ("Skipping " ++ filename file ++
                        ": diff too large or empty")]).
Proof.
  intros Hgate. unfold reviewFile.
  destruct (negb (isRelevantFile _ _)).
  - exists []. split; [|now left]. unfold ret. rewrite app_nil_r.
    now destruct st.
  - assert (Hg : negb (truthy (patch file)) ||
                 (maxDiffSize <? Z.of_nat (String.length (patch file))) = true).
    { destruct Hgate as [-> | Hlt]; [reflexivity|].
      apply Z.ltb_lt in Hlt. rewrite Hlt. apply orb_true_r. }
    rewrite Hg. eexists. split; [reflexivity | now right].
Qed.

(** X12. The loop only ever adds to the reviews, and what it adds are
    reviews with at least one comment, each bearing the name of one of the
    files of the loop, as do all its comments; it adds at most one review
    per file. *)
Theorem reviewLoop_adds_reviews
        (prDetails : PRDetails.t) (files : list FileInfo)
        (reviews reviews' : list Review.t) (st st' : State World) :
  reviewLoop analyzeCode formatComment maxDiffSize prDetails files reviews st =
    (inr reviews', st') ->
  exists added,
    reviews' = (reviews ++ added)%list /\
    Forall (reviewOf files) added /\
    (length added <= length files)%nat.
Proof.
  revert reviews st; induction files as [|file files IH]; intros reviews st.
  - cbn. unfold ret. intros H. injection H as <- _.
    exists []. rewrite app_nil_r. repeat split; constructor.
  - cbn [reviewLoop]. unfold bind at 1.
    destruct (reviewStep _ _ _ _ _ _ _) as [[e|r1] st1] eqn:Hstep;
      [discriminate|].
    intros Hloop. apply IH in Hloop as (added & -> & Hall & Hlen).
    assert (Hweak : forall r, reviewOf files r -> reviewOf (file :: files) r).
    { intros r (Hc & f & Hf & Hrest). split; [exact Hc|].
      exists f. split; [now right | exact Hrest]. }
    apply reviewStep_reviews in Hstep as [-> | (r & -> & Hr)].
    + exists added. split; [reflexivity|]. split.
      * eapply Forall_impl; [exact Hweak | exact Hall].
      * cbn. lia.
    + exists (r :: added). split; [now rewrite <- app_assoc|]. split.
      * constructor.
        -- destruct Hr as (Hc & f & [<- | []] & Hrest). split; [exact Hc|].
           exists file. split; [now left | exact Hrest].
        -- eapply Forall_impl; [exact Hweak | exact Hall].
      * cbn. lia.
Qed.

End ServiceFacts.

Lemma reviewFile_skips_without_analysis_witness :
  exists log,
    reviewFile answeringFinder (fun _ => "") 5000
      (mkFileInfo "new.ts" renamed 0 0 "") (PRDetails.mk "t" None)
      (mkState tt []) =
      (inr None, mkState tt ([] ++ log)) /\
    (log = [] \/
     log = [LoggerWarn "Skipping new.ts: diff too large or empty"]).
Proof.
  apply (reviewFile_skips_without_analysis unit answeringFinder (fun _ => "")
           5000 (mkFileInfo "new.ts" renamed 0 0 "") (PRDetails.mk "t" None)
           (mkState tt [])).
  left. reflexivity.
Defined.

Lemma reviewLoop_adds_reviews_witness :
  exists added,
    [Review.mk "a.js"
       [Comment.mk "a.js" (JNumber 2) "" (JString "low")]
       (Analysis.mk
          (Some [Issue.mk (JNumber 2) (JString "t") (JString "d")
                          (JString "low") JUndefined JUndefined JUndefined]))] =
      ([] ++ added)%list /\
    Forall (reviewOf [sampleFile "a.js"; sampleFile "README.md"]) added /\
    (length added <= 2)%nat.
Proof.
  apply (reviewLoop_adds_reviews unit answeringFinder (fun _ => "") 5000
           (PRDetails.mk "t" None)
           [sampleFile "a.js"; sampleFile "README.md"] [] _
           (mkState tt [])
           (mkState tt
              [SpinnerStart "Reviewing a.js...";
               SpinnerSucceed "Reviewed a.js (1 comments)";
               SpinnerStart "Reviewing README.md...";
               SpinnerInfo "No issues found in README.md"])).
  vm_compute. reflexivity.
Defined.

(* ================================================================== *)
(** * The whole review *)
(* ================================================================== *)

Import Pipeline.

Section PipelineFacts.

Variable World : Type.
Variable pullsGet :
  string -> string -> Z -> World -> (Error + PRDetails.t) * World.
Variable pullsGetDiff :
  string -> string -> Z -> World -> (Error + string) * World.
Variable createReviewComment :
  string -> string -> Z -> Comment.t -> World -> (Error + unit) * World.
Variable analyzeCode :
  string -> Context.t -> World -> (Error + Analysis.t) * World.
Variable formatComment : Issue.t -> string.
Variable maxDiffSize : Z.
Variable maxFilesPerReview : Z.

Let reviewPR :=
  reviewPR pullsGet pullsGetDiff createReviewComment analyzeCode formatComment
           maxDiffSize maxFilesPerReview.

(** X13. A failure of the diff source is fatal: when the pull request or
    its diff cannot be fetched, [reviewPR] throws an error that carries the
    message of the failure, the spinner is told that the review failed, and
    nothing else happens: the world is left as the failed call left it. *)
Theorem fetch_failure_is_fatal (owner repo : string) (prNumber : Z)
        (dryRun : bool) (st : PRState World) (e : Error) :
  (forall w1,
     pullsGet owner repo prNumber (prWorld st) = (inl e, w1) ->
     reviewPR owner repo prNumber dryRun st =
     (inl (mkError ("Failed to fetch PR details: " ++ message e)),
      mkPRState w1
        (prTrace st ++
         [Ev (SpinnerStart "Fetching PR details...");
          Ev (LoggerError "Failed to fetch PR details:" e);
          Ev (SpinnerFail "PR review failed")]))) /\
  (forall prDetails w1 w2,
     pullsGet owner repo prNumber (prWorld st) = (inr prDetails, w1) ->
     pullsGetDiff owner repo prNumber w1 = (inl e, w2) ->
     reviewPR owner repo prNumber dryRun st =
     (inl (mkError ("Failed to fetch PR diff: " ++ message e)),
      mkPRState w2
        (prTrace st ++
         [Ev (SpinnerStart "Fetching PR details...");
          Ev (SpinnerSucceed ("Found PR #" ++ showZ prNumber ++ ": " ++
                              PRDetails.title prDetails));
          Ev (SpinnerStart "Fetching PR diff...");
          Ev (LoggerError "Failed to fetch PR diff:" e);
          Ev (SpinnerFail "PR review failed")]))).
Proof.
  split.
  - intros w1 H. unfold reviewPR, Pipeline.reviewPR, getPRDetails.
    unfold pbind, ptry, pemit, call, pthrow. cbn [prWorld prTrace].
    rewrite H. cbn [prWorld prTrace].
    now rewrite <- !app_assoc.
  - intros prDetails w1 w2 H1 H2.
    unfold reviewPR, Pipeline.reviewPR, getPRDetails, getPRDiff.
    unfold pbind, ptry, pemit, call, pthrow. cbn [prWorld prTrace].
    rewrite H1. cbn [prWorld prTrace]. rewrite H2. cbn [prWorld prTrace].
    now rewrite <- !app_assoc.
Qed.

(** X14. When the diff holds no relevant file (an empty diff, say) the
    review ends after the warning that there is nothing to review: it
    returns, and neither the issue finder nor the comment sink is called. *)
Theorem no_relevant_file_ends_review (owner repo : string) (prNumber : Z)
        (dryRun : bool) (st : PRState World)
        (prDetails : PRDetails.t) (diff : string) (w1 w2 : World) :
  pullsGet owner repo prNumber (prWorld st) = (inr prDetails, w1) ->
  pullsGetDiff owner repo prNumber w1 = (inr diff, w2) ->
  PRReviewService.filterRelevantFiles (parseGitDiff diff) = [] ->
  reviewPR owner repo prNumber dryRun st =
  (inr tt,
   mkPRState w2
     (prTrace st ++
      [Ev (SpinnerStart "Fetching PR details...");
       Ev (SpinnerSucceed ("Found PR #" ++ showZ prNumber ++ ": " ++
                           PRDetails.title prDetails));
       Ev (SpinnerStart "Fetching PR diff...");
       Ev (SpinnerSucceed "PR diff fetched successfully");
       Ev (SpinnerStart "Analyzing changed files...");
       SpinnerWarn "No relevant files found for review"])).
Proof.
  intros H1 H2 Hnone.
  unfold reviewPR, Pipeline.reviewPR, getPRDetails, getPRDiff.
  unfold pbind at 1. unfold pemit at 1. unfold ptry at 1.
  unfold pbind at 1. unfold ptry at 1. unfold call at 1.
  cbn [prWorld prTrace]. rewrite H1.
  unfold pbind at 1. unfold pemit at 1.
  unfold pbind at 1. unfold pemit at 1.
  unfold pbind at 1. unfold ptry at 1. unfold call at 1.
  cbn [prWorld prTrace]. rewrite H2.
  unfold pbind at 1. unfold pemit at 1.
  unfold pbind at 1. unfold pemit at 1.
  rewrite Hnone. cbn [length Nat.eqb].
  unfold pbind, pemit, pret. cbn [prWorld prTrace].
  now rewrite <- !app_assoc.
Qed.

(** The loop returns, whatever happens to the files, having started the
    spinner once per file. *)
Lemma reviewLoop_returns (prDetails : PRDetails.t) (files : list FileInfo)
      (reviews : list Review.t) (st : PRReviewService.State World) :
  exists reviews' st',
    PRReviewService.reviewLoop analyzeCode formatComment maxDiffSize
      prDetails files reviews st = (inr reviews', st') /\
    started (PRReviewService.trace st') =
    (started (PRReviewService.trace st) ++ map reviewingMsg files)%list.
Proof.
  revert reviews st; induction files as [|file files IH]; intros reviews st.
  - exists reviews, st. split; [reflexivity|]. cbn. now rewrite app_nil_r.
  - destruct (reviewStep_completes World analyzeCode formatComment maxDiffSize
                prDetails reviews file st) as (r1 & st1 & Hstep & Hst1).
    destruct (IH r1 st1) as (r2 & st2 & Hloop & Hst2).
    exists r2, st2. split.
    + cbn [PRReviewService.reviewLoop]. unfold PRReviewService.bind.
      now rewrite Hstep.
    + rewrite Hst2, Hst1, <- app_assoc. reflexivity.
Qed.

Lemma displayComments_returns (comments : list Comment.t) (st : PRState World) :
  exists st', displayComments comments st = (inr tt, st') /\
              prWorld st' = prWorld st /\
              reviewingStarts (prTrace st') = reviewingStarts (prTrace st).
Proof.
  revert st; induction comments as [|c comments IH]; intros st;
    cbn [displayComments].
  - now exists st.
  - unfold pbind, pemit.
    destruct (IH (mkPRState (prWorld st)
                    (prTrace st ++
                     [ConsoleLog (CommentLine (Comment.line c)
                                              (Comment.body c))])))
      as (st' & -> & Hw & Hr).
    exists st'. split; [reflexivity|]. split; [exact Hw|].
    rewrite Hr. cbn [prTrace]. unfold reviewingStarts.
    rewrite filter_app, length_app. cbn. lia.
Qed.

Lemma displayEach_returns (reviews : list Review.t) (st : PRState World) :
  exists st', displayEach reviews st = (inr tt, st') /\
              prWorld st' = prWorld st /\
              reviewingStarts (prTrace st') = reviewingStarts (prTrace st).
Proof.
  revert st; induction reviews as [|r reviews IH]; intros st;
    cbn [displayEach].
  - now exists st.
  - unfold pbind at 1. unfold pemit at 1.
    unfold pbind at 1. unfold pemit at 1. cbn [prWorld prTrace].
    unfold pbind at 1.
    match goal with |- context [displayComments ?cs ?s0] =>
      destruct (displayComments_returns cs s0) as (st1 & -> & Hw1 & Hr1) end.
    unfold pbind at 1. unfold pemit at 1.
    match goal with |- context [displayEach reviews ?s0] =>
      destruct (IH s0) as (st2 & -> & Hw2 & Hr2) end.
    exists st2. split; [reflexivity|].
    cbn [prWorld prTrace] in *. split; [congruence|].
    rewrite Hr2. unfold reviewingStarts in *.
    rewrite filter_app, length_app, Hr1, !filter_app, !length_app. cbn. lia.
Qed.

(** The rules of [adds]. *)
Lemma adds_weaken {A : Type} (n m : nat) (c : PM World A) :
  adds n c -> (n <= m)%nat -> adds m c.
Proof. intros H Hle st r st' Hc. specialize (H st r st' Hc). lia. Qed.

Lemma adds_pret {A : Type} (a : A) : adds 0 (@pret World A a).
Proof. intros st r st' H. injection H as _ <-. lia. Qed.

Lemma adds_pthrow {A : Type} (e : Error) : adds 0 (@pthrow World A e).
Proof. intros st r st' H. injection H as _ <-. lia. Qed.

Lemma adds_pemit (ev : PREvent) :
  isReviewingStart ev = false -> adds 0 (@pemit World ev).
Proof.
  intros Hev st r st' H. injection H as _ <-. cbn [prTrace].
  unfold reviewingStarts. rewrite filter_app, length_app. cbn [filter].
  rewrite Hev. cbn. lia.
Qed.

Lemma adds_call {A : Type} (f : World -> (Error + A) * World) :
  adds 0 (call f).
Proof.
  intros st r st' H. unfold call in H. destruct (f (prWorld st)).
  injection H as _ <-. cbn [prTrace]. lia.
Qed.

Lemma adds_pbind {A B : Type} (n m : nat) (c : PM World A) (f : A -> PM World B) :
  adds n c -> (forall a, adds m (f a)) -> adds (n + m) (pbind c f).
Proof.
  intros Hc Hf st r st' H. unfold pbind in H.
  destruct (c st) as [[e|a] st1] eqn:E; specialize (Hc _ _ _ E).
  - injection H as _ <-. lia.
  - specialize (Hf a _ _ _ H). lia.
Qed.

Lemma adds_ptry {A : Type} (n m : nat) (c : PM World A)
      (h : Error -> PM World A) :
  adds n c -> (forall e, adds m (h e)) -> adds (n + m) (ptry c h).
Proof.
  intros Hc Hh st r st' H. unfold ptry in H.
  destruct (c st) as [[e|a] st1] eqn:E; specialize (Hc _ _ _ E).
  - specialize (Hh e _ _ _ H). lia.
  - injection H as _ <-. lia.
Qed.

Lemma reviewingStarts_loop (tr : list Event) :
  reviewingStarts (map Ev tr) =
  length (filter (fun msg => startsWith msg "Reviewing ") (started tr)).
Proof.
  unfold reviewingStarts. induction tr as [|ev tr IH]; [reflexivity|].
  cbn [map filter]. destruct ev; cbn [isReviewingStart started flat_map app];
    try exact IH.
  cbn [filter]. destruct (startsWith msg "Reviewing "); cbn [length];
    now rewrite IH.
Qed.

Lemma adds_inLoop (prDetails : PRDetails.t) (files : list FileInfo) :
  adds (length files)
       (inLoop (PRReviewService.reviewLoop analyzeCode formatComment
                  maxDiffSize prDetails files [])).
Proof.
  intros st r st' H. unfold inLoop in H.
  destruct (reviewLoop_returns prDetails files []
              (PRReviewService.mkState (prWorld st) []))
    as (reviews' & st1 & Hloop & Hstarted).
  rewrite Hloop in H. injection H as _ <-. cbn [prTrace].
  unfold reviewingStarts at 1. rewrite filter_app, length_app.
  fold (reviewingStarts (prTrace st)).
  fold (reviewingStarts (map Ev (PRReviewService.trace st1))).
  rewrite reviewingStarts_loop, Hstarted. cbn [PRReviewService.trace started flat_map app].
  apply Nat.add_le_mono_l.
  etransitivity; [apply filter_length_le|]. now rewrite length_map.
Qed.

Lemma adds_postComments (owner repo : string) (prNumber : Z)
      (comments : list Comment.t) :
  adds 0 (postComments createReviewComment owner repo prNumber comments).
Proof.
  induction comments as [|c comments IH]; cbn [postComments].
  - apply adds_pret.
  - apply (adds_pbind 0 0); [|intros _; exact IH].
    unfold postReviewComment. apply (adds_ptry 0 0).
    + apply (adds_pbind 0 0); [apply adds_call|].
      intros _. now apply adds_pemit.
    + intros e. apply (adds_pbind 0 0); [now apply adds_pemit|].
      intros _. apply adds_pthrow.
Qed.

Lemma adds_displayReviews (reviews : list Review.t) :
  adds 0 (@displayReviews World reviews).
Proof.
  intros st r st' H. unfold displayReviews, pbind, pemit in H.
  match type of H with context [displayEach reviews ?s0] =>
    destruct (displayEach_returns reviews s0) as (st1 & E & _ & Hr) end.
  rewrite E in H. injection H as _ <-. rewrite Hr. cbn [prTrace].
  unfold reviewingStarts. rewrite filter_app, length_app. cbn. lia.
Qed.

Lemma postComments_app (owner repo : string) (prNumber : Z)
      (before after : list Comment.t) (st : PRState World) :
  postComments createReviewComment owner repo prNumber (before ++ after) st =
  match postComments createReviewComment owner repo prNumber before st with
  | (inr _, st1) =>
      postComments createReviewComment owner repo prNumber after st1
  | (inl e, st1) => (inl e, st1)
  end.
Proof.
  revert st; induction before as [|c before IH]; intros st.
  - reflexivity.
  - cbn [app postComments]. unfold pbind.
    destruct (postReviewComment createReviewComment owner repo prNumber c st)
      as [[e|[]] st1]; [reflexivity | apply IH].
Qed.

(** X15. A dry run never posts: with [dryRun] set, [reviewPR] never turns
    to the comment sink, so that what it returns or throws, the world it
    leaves and everything the spinner, the logger and the console are told
    are the same whatever the comment sink is. *)
Theorem dry_run_never_posts (owner repo : string) (prNumber : Z)
        (st : PRState World) :
  forall otherSink,
    reviewPR owner repo prNumber true st =
    Pipeline.reviewPR pullsGet pullsGetDiff otherSink analyzeCode
      formatComment maxDiffSize maxFilesPerReview
      owner repo prNumber true st.
Proof. reflexivity. Qed.

(** X16. The comment sink has no safety net: [postReviews] posts the
    comments of the reviews in order and stops at the first one that
    fails; the error is logged and thrown with the message of the failure,
    and the comments after it are not posted. *)
Theorem first_failed_post_stops_posting
        (owner repo : string) (prNumber : Z) (reviews : list Review.t)
        (before : list Comment.t) (comment : Comment.t)
        (after : list Comment.t) (st st1 : PRState World)
        (e : Error) (w2 : World) :
  flat_map Review.comments reviews = (before ++ comment :: after)%list ->
  postComments createReviewComment owner repo prNumber before st =
    (inr tt, st1) ->
  createReviewComment owner repo prNumber comment (prWorld st1) = (inl e, w2) ->
  postReviews createReviewComment owner repo prNumber reviews st =
  (inl (mkError ("Failed to post review comment: " ++ message e)),
   mkPRState w2
     (prTrace st1 ++ [Ev (LoggerError "Failed to post review comment:" e)])).
Proof.
  intros Hall Hbefore Hfail. unfold postReviews. rewrite Hall.
  rewrite postComments_app, Hbefore. cbn [postComments].
  unfold pbind at 1. unfold postReviewComment, ptry.
  unfold pbind at 1. unfold call. rewrite Hfail.
  unfold pbind, pemit, pthrow. reflexivity.
Qed.

(** X17. The cap on the files of a review: when [maxFilesPerReview] is not
    negative, a review starts the spinner on at most that many files,
    however many files the diff changes and however the review ends. *)
Theorem at_most_max_files_reviewed (owner repo : string) (prNumber : Z)
        (dryRun : bool) (st st' : PRState World) (r : Error + unit) :
  0 <= maxFilesPerReview ->
  reviewPR owner repo prNumber dryRun st = (r, st') ->
  (reviewingStarts (prTrace st') <=
   reviewingStarts (prTrace st) + Z.to_nat maxFilesPerReview)%nat.
Proof.
  intros Hmax. revert st r st'.
  change (adds (Z.to_nat maxFilesPerReview)
               (reviewPR owner repo prNumber dryRun)).
  set (n := Z.to_nat maxFilesPerReview).
  unfold reviewPR, Pipeline.reviewPR.
  apply (adds_pbind 0 n); [now apply adds_pemit|]. intros _.
  replace n with (n + 0)%nat by lia.
  apply adds_ptry;
    [|intros e; apply (adds_pbind 0 0); [now apply adds_pemit|];
      intros _; apply adds_pthrow].
  apply (adds_pbind 0 n).
  { unfold getPRDetails. apply (adds_ptry 0 0); [apply adds_call|].
    intros e. apply (adds_pbind 0 0); [now apply adds_pemit|].
    intros _. apply adds_pthrow. }
  intros prDetails.
  apply (adds_pbind 0 n); [now apply adds_pemit|]. intros _.
  apply (adds_pbind 0 n); [now apply adds_pemit|]. intros _.
  apply (adds_pbind 0 n).
  { unfold getPRDiff. apply (adds_ptry 0 0); [apply adds_call|].
    intros e. apply (adds_pbind 0 0); [now apply adds_pemit|].
    intros _. apply adds_pthrow. }
  intros diff.
  apply (adds_pbind 0 n); [now apply adds_pemit|]. intros _.
  apply (adds_pbind 0 n); [now apply adds_pemit|]. intros _.
  destruct (length (PRReviewService.filterRelevantFiles (parseGitDiff diff))
            =? 0)%nat.
  { apply (adds_weaken 0); [|lia].
    apply (adds_pbind 0 0); [now apply adds_pemit|].
    intros _. apply adds_pret. }
  apply (adds_pbind 0 n); [now apply adds_pemit|]. intros _.
  replace n with (n + 0)%nat by lia.
  apply adds_pbind.
  { eapply adds_weaken; [apply adds_inLoop|].
    unfold slice0. rewrite length_firstn.
    replace (maxFilesPerReview <? 0) with false
      by (symmetry; apply Z.ltb_ge; lia).
    subst n. lia. }
  intros reviews. destruct (0 <? length reviews)%nat.
  - destruct dryRun.
    + apply (adds_pbind 0 0); [now apply adds_pemit|].
      intros _. apply adds_displayReviews.
    + apply (adds_pbind 0 0); [now apply adds_pemit|]. intros _.
      apply (adds_pbind 0 0); [apply adds_postComments|].
      intros _. now apply adds_pemit.
  - now apply adds_pemit.
Qed.

End PipelineFacts.

Lemma fetch_failure_is_fatal_witness :
  Pipeline.reviewPR lostPR (diffOf sampleDiff) refusingSink answeringFinder
    (fun _ => "") 5000 10 "octo" "repo" 7 false (mkPRState tt []) =
  (inl (mkError ("Failed to fetch PR details: " ++ "Not Found")),
   mkPRState tt
     ([] ++
      [Ev (SpinnerStart "Fetching PR details...");
       Ev (LoggerError "Failed to fetch PR details:" (mkError "Not Found"));
       Ev (SpinnerFail "PR review failed")])).
Proof.
  exact (proj1 (fetch_failure_is_fatal unit lostPR (diffOf sampleDiff)
                  refusingSink answeringFinder (fun _ => "") 5000 10
                  "octo" "repo" 7 false (mkPRState tt [])
                  (mkError "Not Found")) tt eq_refl).
Defined.

Lemma no_relevant_file_ends_review_witness :
  Pipeline.reviewPR foundPR (diffOf "") refusingSink answeringFinder
    (fun _ => "") 5000 10 "octo" "repo" 7 false (mkPRState tt []) =
  (inr tt,
   mkPRState tt
     ([] ++
      [Ev (SpinnerStart "Fetching PR details...");
       Ev (SpinnerSucceed ("Found PR #" ++ showZ 7 ++ ": " ++ "Add feature"));
       Ev (SpinnerStart "Fetching PR diff...");
       Ev (SpinnerSucceed "PR diff fetched successfully");
       Ev (SpinnerStart "Analyzing changed files...");
       SpinnerWarn "No relevant files found for review"])).
Proof.
  exact (no_relevant_file_ends_review unit foundPR (diffOf "") refusingSink
           answeringFinder (fun _ => "") 5000 10 "octo" "repo" 7 false
           (mkPRState tt []) (PRDetails.mk "Add feature" None) "" tt tt
           eq_refl eq_refl eq_refl).
Defined.

Lemma first_failed_post_stops_posting_witness :
  postReviews refusingSink "octo" "repo" 7
    [Review.mk "a.js"
       [Comment.mk "a.js" (JNumber 2) "b1" (JString "low");
        Comment.mk "a.js" (JNumber 3) "b2" (JString "low")]
       (Analysis.mk None)]
    (mkPRState tt []) =
  (inl (mkError ("Failed to post review comment: " ++ "Validation Failed")),
   mkPRState tt
     ([] ++ [Ev (LoggerError "Failed to post review comment:"
                             (mkError "Validation Failed"))])).
Proof.
  exact (first_failed_post_stops_posting unit refusingSink "octo" "repo" 7
           [Review.mk "a.js"
              [Comment.mk "a.js" (JNumber 2) "b1" (JString "low");
               Comment.mk "a.js" (JNumber 3) "b2" (JString "low")]
              (Analysis.mk None)]
           [] (Comment.mk "a.js" (JNumber 2) "b1" (JString "low"))
           [Comment.mk "a.js" (JNumber 3) "b2" (JString "low")]
           (mkPRState tt []) (mkPRState tt []) (mkError "Validation Failed")
           tt eq_refl eq_refl eq_refl).
Defined.

Lemma at_most_max_files_reviewed_witness :
  (reviewingStarts
     (prTrace (snd (Pipeline.reviewPR foundPR (diffOf sampleDiff) acceptingSink
                      answeringFinder (fun _ => "") 5000 1 "octo" "repo" 7
                      false (mkPRState tt [])))) <=
   reviewingStarts [] + Z.to_nat 1)%nat.
Proof.
  apply (at_most_max_files_reviewed unit foundPR (diffOf sampleDiff)
           acceptingSink answeringFinder (fun _ => "") 5000 1
           "octo" "repo" 7 false (mkPRState tt []) _
           (fst (Pipeline.reviewPR foundPR (diffOf sampleDiff) acceptingSink
                   answeringFinder (fun _ => "") 5000 1 "octo" "repo" 7
                   false (mkPRState tt [])))).
  - lia.
  - vm_compute. reflexivity.
Defined.

(* ================================================================== *)
(** * Facts about the extended matcher *)
(* ================================================================== *)

Module RegexExtFacts.

Import RegexExt.

Lemma erun_Cat (ml : bool) (r1 r2 : regex) (st : mstate) (k : cont) :
  run ml (Cat r1 r2) st k = run ml r1 st (fun st' => run ml r2 st' k).
Proof. reflexivity. Qed.

Lemma run_Alt (ml : bool) (r1 r2 : regex) (st : mstate) (k : cont) :
  run ml (Alt r1 r2) st k =
  match run ml r1 st k with Some res => Some res | None => run ml r2 st k end.
Proof. reflexivity. Qed.

Lemma erun_Opt (ml : bool) (r : regex) (st : mstate) (k : cont) :
  run ml (Opt r) st k =
  match run ml r st k with Some res => Some res | None => k st end.
Proof. reflexivity. Qed.

Lemma run_Class (ml : bool) (p : ascii -> bool) (st : mstate) (k : cont) :
  run ml (Class p) st k = char_matcher p st k.
Proof. reflexivity. Qed.

Lemma run_WordBoundary (ml : bool) (st : mstate) (k : cont) :
  run ml WordBoundary st k =
  if xorb (isWordBefore (prev st)) (isWordAfter (rest st)) then k st else None.
Proof. reflexivity. Qed.

Lemma erun_Group (ml : bool) (n : nat) (r : regex) (st : mstate) (k : cont) :
  run ml (Group n r) st k =
  run ml r st (fun st' =>
    k (MState (prev st') (rest st')
         ((n, take (String.length (rest st) - String.length (rest st'))
                   (rest st)) :: caps st'))).
Proof. reflexivity. Qed.

(** Reading a literal word. *)
Lemma erun_Lit (ml : bool) (w : string) (st : mstate) (k : cont) :
  run ml (Lit w) st k =
  if startsWith (rest st) w
  then k (MState (lastChar (prev st) w)
                 (dropChars (String.length w) (rest st)) (caps st))
  else None.
Proof.
  revert st k; induction w as [|a w IH]; intros [p s cs] k;
    cbn [rest prev caps].
  - rewrite startsWith_nil. reflexivity.
  - assert (Hone : run ml (Chr a) (MState p s cs)
                     (fun st' => run ml (Lit w) st' k) =
                   if startsWith s (String a w)
                   then k (MState (lastChar p (String a w))
                            (dropChars (String.length (String a w)) s) cs)
                   else None).
    { unfold Chr. rewrite run_Class. unfold char_matcher. cbn [rest caps].
      destruct s as [|c s]; [reflexivity|].
      rewrite startsWith_cons.
      destruct (Ascii.eqb a c) eqn:Hac; [|reflexivity].
      apply Ascii.eqb_eq in Hac; subst c. rewrite IH. reflexivity. }
    destruct w as [|b w]; [|exact Hone].
    rewrite <- Hone. cbn [Lit]. unfold Chr. rewrite !run_Class.
    unfold char_matcher. cbn [rest caps].
    destruct s as [|c s]; [reflexivity|]. now destruct (Ascii.eqb a c).
Qed.

(** A greedy run over a block of characters of a class that ends before a
    character outside the class. *)
Lemma repeat_class (p : ascii -> bool) (k : cont) (res : mstate)
      (tail : string) (cs : list (nat * string)) :
  firstFails p tail = true ->
  forall (ds : string) (q : option ascii) (fuel : nat),
    allOf p ds = true -> (String.length ds <= fuel)%nat ->
    k (MState (lastChar q ds) tail cs) = Some res ->
    repeat_matcher (char_matcher p) k fuel (MState q (ds ++ tail) cs) =
    Some res.
Proof.
  intros Htail. induction ds as [|d ds IH]; intros q fuel Hd Hf Hk.
  - cbn [lastChar append] in *. destruct fuel as [|fuel]; [exact Hk|].
    cbn [repeat_matcher]. unfold char_matcher. cbn [rest].
    destruct tail as [|c t]; [exact Hk|].
    cbn in Htail. apply negb_true_iff in Htail. now rewrite Htail.
  - destruct fuel as [|fuel]; [cbn in Hf; lia|].
    cbn [allOf] in Hd. apply andb_true_iff in Hd as [Hd Hds].
    cbn [repeat_matcher append]. unfold char_matcher at 1.
    cbn [rest caps]. rewrite Hd.
    replace (String.length (ds ++ tail) <? String.length (String d (ds ++ tail)))%nat
      with true by (symmetry; apply Nat.ltb_lt; cbn; lia).
    rewrite (IH (Some d) fuel Hds); [reflexivity | cbn in Hf; lia | exact Hk].
Qed.

Lemma plus_class (ml : bool) (p : ascii -> bool) (k : cont) (res : mstate)
      (ds tail : string) (q : option ascii) (cs : list (nat * string)) :
  ds <> "" -> allOf p ds = true -> firstFails p tail = true ->
  k (MState (lastChar q ds) tail cs) = Some res ->
  run ml (Plus (Class p)) (MState q (ds ++ tail) cs) k = Some res.
Proof.
  intros Hne Hd Htail Hk. destruct ds as [|d ds]; [congruence|].
  cbn [allOf] in Hd. apply andb_true_iff in Hd as [Hd Hds].
  cbn [run append]. unfold char_matcher at 1. cbn [rest caps]. rewrite Hd.
  apply repeat_class; try assumption.
  rewrite length_append. lia.
Qed.

(** An unanchored pattern that begins with a literal word matches nowhere
    in a string that does not hold the word. *)
Lemma exec_from_needs_word (ml : bool) (w : string) (r : regex)
      (s : string) (p : option ascii) :
  includes s w = false -> exec_from ml (Cat (Lit w) r) p s = None.
Proof.
  revert p; induction s as [|c s IH]; intros p H; cbn [includes] in H;
    apply orb_false_iff in H as [Hs Hrest]; cbn [exec_from];
    unfold match_here; rewrite erun_Cat, erun_Lit; cbn [rest]; rewrite Hs.
  - reflexivity.
  - now apply IH.
Qed.

(** The extended matcher agrees with the first one on the patterns of the
    first one. *)
Lemma repeat_matcher_ext (m1 m2 : matcher) (k1 k2 : cont) :
  (forall st c1 c2, (forall s, c1 s = c2 s) -> m1 st c1 = m2 st c2) ->
  (forall s, k1 s = k2 s) ->
  forall fuel st,
    repeat_matcher m1 k1 fuel st = repeat_matcher m2 k2 fuel st.
Proof.
  intros Hm Hk. induction fuel as [|fuel IH]; intros st; cbn [repeat_matcher].
  - apply Hk.
  - rewrite (Hm st _ (fun st' =>
       if (String.length (rest st') <? String.length (rest st))%nat
       then repeat_matcher m2 k2 fuel st' else None)).
    + now rewrite Hk.
    + intros s. now rewrite IH.
Qed.

Lemma run_embed (ml : bool) (r : Regex.regex) :
  forall st k1 k2, (forall s, k1 s = k2 s) ->
    run ml (embed r) st k1 = Regex.run ml r st k2.
Proof.
  induction r; intros st k1 k2 Hk; cbn [embed run Regex.run].
  - apply Hk.
  - unfold Chr. cbn [run]. unfold char_matcher.
    destruct (rest st); [reflexivity|]. now rewrite Hk.
  - unfold Digit. cbn [run]. unfold char_matcher.
    destruct (rest st); [reflexivity|]. now rewrite Hk.
  - unfold char_matcher. destruct (rest st); [reflexivity|]. now rewrite Hk.
  - now rewrite Hk.
  - apply IHr1. intros s. now apply IHr2.
  - rewrite (IHr st k1 k2 Hk). now rewrite Hk.
  - now apply repeat_matcher_ext.
  - apply IHr. intros s. now apply repeat_matcher_ext.
  - apply IHr. intros s. apply Hk.
Qed.

Lemma exec_embed (ml : bool) (r : Regex.regex) (s : string) :
  exec ml (embed r) s = Regex.exec ml r s.
Proof.
  unfold exec, Regex.exec. generalize (@None ascii).
  induction s as [|c s IH]; intros p; cbn [exec_from Regex.exec_from];
    unfold match_here, Regex.match_here;
    rewrite (run_embed ml r _ (fun st => Some st) (fun st => Some st))
      by reflexivity;
    destruct (Regex.run ml r _ _); auto.
Qed.

End RegexExtFacts.

(* ================================================================== *)
(** * The complexity of a patch *)
(* ================================================================== *)

Module ComplexityFacts.

Import RegexExt RegexExtFacts Complexity.

(** One of several literal words. *)
Lemma run_Alts_Lit (ml : bool) (kws : list string) (st : mstate) (k : cont) :
  isSome (run ml (Alts (map Lit kws)) st k) =
  existsb (fun kw =>
             startsWith (rest st) kw &&
             isSome (k (MState (lastChar (prev st) kw)
                          (dropChars (String.length kw) (rest st)) (caps st))))
          kws.
Proof.
  induction kws as [|kw kws IH].
  - cbn. unfold char_matcher. now destruct (rest st).
  - assert (Hkw : isSome (run ml (Lit kw) st k) =
                  startsWith (rest st) kw &&
                  isSome (k (MState (lastChar (prev st) kw)
                               (dropChars (String.length kw) (rest st))
                               (caps st)))).
    { rewrite erun_Lit. now destruct (startsWith (rest st) kw). }
    cbn [existsb]. rewrite <- Hkw, <- IH.
    destruct kws as [|kw' kws].
    + cbn [map Alts].
      assert (Hfail : run ml Fail st k = None)
        by (unfold Fail; rewrite run_Class; unfold char_matcher;
            now destruct (rest st)).
      now rewrite Hfail, orb_false_r.
    + cbn [map Alts]. rewrite run_Alt.
      now destruct (run ml (Lit kw) st k).
Qed.

(** A string that begins with a keyword begins with a word character. *)
Lemma keyword_first (s : string) :
  existsb (fun kw => startsWith s kw &&
                     negb (isWordAfter (dropChars (String.length kw) s)))
          keywords = true ->
  isWordAfter s = true.
Proof.
  intros H. apply existsb_exists in H as (kw & Hin & Hkw).
  apply andb_true_iff in Hkw as [Hs _].
  destruct s as [|c s]; [|cbn [isWordAfter]].
  - cbn in Hin. repeat destruct Hin as [<- | Hin]; try discriminate.
    contradiction.
  - cbn in Hin.
    repeat destruct Hin as [<- | Hin];
      try (rewrite startsWith_cons in Hs; apply andb_true_iff in Hs as [Hc _];
           apply Ascii.eqb_eq in Hc; subst c; reflexivity).
    contradiction.
Qed.

(** The pattern at one position. *)
Lemma match_here_keyword (p : option ascii) (s : string) :
  isSome (match_here false complexityRe p s) = keywordHere p s.
Proof.
  unfold match_here, complexityRe. cbn [Seq].
  rewrite erun_Cat, run_WordBoundary. cbn [prev rest].
  assert (Hgroup :
    isSome (run false (Cat (Group 1 (Alts (map Lit keywords))) WordBoundary)
              (MState p s []) (fun st => Some st)) =
    existsb (fun kw => startsWith s kw &&
                       negb (isWordAfter (dropChars (String.length kw) s)))
            keywords).
  { rewrite erun_Cat, erun_Group, run_Alts_Lit. cbn [prev rest caps].
    unfold keywords. cbn [existsb]. rewrite !run_WordBoundary.
    cbn [prev rest lastChar isWordBefore].
    change (isWordChar "f") with true. change (isWordChar "r") with true.
    change (isWordChar "e") with true. change (isWordChar "h") with true.
    change (isWordChar "n") with true. change (isWordChar "s") with true.
    repeat match goal with
    | |- context [isWordAfter (dropChars ?n s)] =>
        destruct (isWordAfter (dropChars n s))
    end; reflexivity. }
  unfold keywordHere.
  destruct (existsb _ keywords) eqn:He.
  - rewrite (keyword_first s He).
    destruct (isWordBefore p); cbn [xorb negb andb]; [reflexivity|].
    exact Hgroup.
  - rewrite andb_false_r.
    destruct (xorb (isWordBefore p) (isWordAfter s)); [exact Hgroup|].
    reflexivity.
Qed.

Lemma exec_from_keyword (s : string) (p : option ascii) :
  isSome (exec_from false complexityRe p s) = keywordFrom p s.
Proof.
  revert p; induction s as [|c s IH]; intros p; cbn [exec_from keywordFrom];
    rewrite <- match_here_keyword;
    destruct (match_here false complexityRe p _); cbn [isSome orb];
    [reflexivity | reflexivity | reflexivity | apply IH].
Qed.

Lemma startsWith_self (w s : string) : startsWith (w ++ s) w = true.
Proof.
  induction w as [|a w IH]; [apply startsWith_nil|].
  cbn [append]. now rewrite startsWith_cons, Ascii.eqb_refl.
Qed.

(** Somewhere in a string: the shape of the string. *)
Lemma keywordFrom_shape (s : string) (p : option ascii) :
  keywordFrom p s = true <->
  exists pre kw post,
    s = pre ++ kw ++ post /\ In kw keywords /\
    isWordBefore (lastChar p pre) = false /\ isWordAfter post = false.
Proof.
  assert (Hhere : forall q t,
    keywordHere q t = true <->
    exists kw post, t = kw ++ post /\ In kw keywords /\
                    isWordBefore q = false /\ isWordAfter post = false).
  { intros q t. unfold keywordHere. rewrite andb_true_iff, negb_true_iff.
    rewrite existsb_exists. split.
    - intros (Hq & kw & Hin & Hkw). apply andb_true_iff in Hkw as [Hs Hpost].
      apply negb_true_iff in Hpost.
      exists kw, (dropChars (String.length kw) t).
      split; [now apply startsWith_split | now repeat split].
    - intros (kw & post & -> & Hin & Hq & Hpost). split; [exact Hq|].
      exists kw. split; [exact Hin|].
      now rewrite startsWith_self, dropChars_append, Hpost. }
  revert p; induction s as [|c s IH]; intros p; cbn [keywordFrom];
    rewrite orb_true_iff, Hhere.
  - split.
    + intros [(kw & post & E & H) | H]; [|discriminate].
      now exists "", kw, post.
    + intros (pre & kw & post & E & H). left.
      destruct pre; [|discriminate]. now exists kw, post.
  - rewrite IH. split.
    + intros [(kw & post & E & H) | (pre & kw & post & E & H)].
      * now exists "", kw, post.
      * exists (String c pre), kw, post. rewrite E. now split.
    + intros (pre & kw & post & E & H). destruct pre as [|c' pre].
      * left. now exists kw, post.
      * right. cbn [append] in E. injection E as -> ->.
        now exists pre, kw, post.
Qed.

Lemma complexityStep_fold (lines : list string) (acc : Z) :
  fold_left complexityStep lines acc =
  acc + Z.of_nat (length (filter (test false complexityRe) lines)).
Proof.
  revert acc; induction lines as [|l lines IH]; intros acc;
    cbn [fold_left filter].
  - cbn. lia.
  - rewrite IH. unfold complexityStep.
    destruct (test false complexityRe l); cbn [length]; lia.
Qed.

Lemma split_lines_append (p1 p2 : string) :
  split_lines (p1 ++ String LF p2) =
  (split_lines p1 ++ split_lines p2)%list.
Proof.
  induction p1 as [|c p1 IH]; [reflexivity|].
  cbn [append split_lines]. rewrite IH.
  pose proof (split_lines_nonempty p1) as Hne.
  destruct (Ascii.eqb c LF); [reflexivity|].
  now destruct (split_lines p1).
Qed.

End ComplexityFacts.

Import ComplexityFacts.

(** X18. The complexity of a patch is the number of its lines that hold one
    of the seven keywords as a whole word: a line counts exactly when it
    reads [pre kw post] with [kw] a keyword, [pre] empty or ending with a
    character that is no word character, and [post] empty or beginning
    with one. Added, deleted and context lines count alike. *)
Theorem complexity_counts_keyword_lines (patch0 : string) :
  Complexity.getFileComplexity patch0 =
    Z.of_nat (length (filter (RegexExt.test false Complexity.complexityRe)
                             (split_lines patch0))) /\
  forall line,
    RegexExt.test false Complexity.complexityRe line = true <->
    exists pre kw post,
      line = pre ++ kw ++ post /\ In kw Complexity.keywords /\
      RegexExt.isWordBefore (lastChar None pre) = false /\
      RegexExt.isWordAfter post = false.
Proof.
  split.
  - unfold Complexity.getFileComplexity. now rewrite complexityStep_fold.
  - intros line. rewrite <- keywordFrom_shape, <- exec_from_keyword.
    unfold RegexExt.test, RegexExt.exec.
    now destruct (RegexExt.exec_from false Complexity.complexityRe None line).
Qed.

(** X19. The complexity of two patches put one after the other is the sum
    of their complexities, and the complexity of a patch lies between 0 and
    the number of its lines. *)
Theorem complexity_is_additive (patch1 patch2 : string) :
  Complexity.getFileComplexity (patch1 ++ String LF patch2) =
    Complexity.getFileComplexity patch1 +
    Complexity.getFileComplexity patch2 /\
  0 <= Complexity.getFileComplexity patch1 <=
    Z.of_nat (length (split_lines patch1)).
Proof.
  unfold Complexity.getFileComplexity.
  rewrite split_lines_append, !complexityStep_fold, filter_app, length_app.
  split; [lia|].
  pose proof (filter_length_le (RegexExt.test false Complexity.complexityRe)
                (split_lines patch1)).
  lia.
Qed.

(* ================================================================== *)
(** * parsePRUrl *)
(* ================================================================== *)

Module PRUrlFacts.

Import RegexExt RegexExtFacts PRUrl.

Lemma digits_allOf (s : string) : allOf isDigit s = digits s.
Proof. induction s as [|c s IH]; cbn; [reflexivity | now rewrite IH]. Qed.

Lemma exec_of_match_here (ml : bool) (r : regex) (s : string) (st : mstate) :
  match_here ml r None s = Some st -> exec ml r s = Some st.
Proof. intros H. unfold exec. destruct s; cbn [exec_from]; now rewrite H. Qed.

(** The pattern from the colon on. *)
Lemma url_tail_matches (owner repo ds rest0 : string) (p : option ascii) :
  owner <> "" -> allOf notSlash owner = true ->
  repo <> "" -> allOf notSlash repo = true ->
  ds <> "" -> digits ds = true -> notDigitFirst rest0 = true ->
  run false
    (Seq [Lit "://github.com/"; Group 1 (Plus (NotChr "/")); Chr "/";
          Group 2 (Plus (NotChr "/")); Chr "/"; Lit "pull"; Chr "/";
          Group 3 (Plus Digit)])
    (MState p ("://github.com/" ++ owner ++ "/" ++ repo ++ "/pull/" ++
               ds ++ rest0) [])
    (fun st => Some st) =
  Some (MState (lastChar (Some "/"%char) ds) rest0
          [(3%nat, ds); (2%nat, repo); (1%nat, owner)]).
Proof.
  intros Ho Hos Hr Hrs Hd Hds Hrest. cbn [Seq].
  rewrite erun_Cat, erun_Lit. cbn [rest prev caps append].
  rewrite !startsWith_cons, startsWith_nil.
  cbn [Ascii.eqb Bool.eqb andb String.length dropChars lastChar].
  rewrite erun_Cat, erun_Group. unfold NotChr.
  apply (plus_class false notSlash); try assumption; [reflexivity|].
  cbn [rest prev caps]. rewrite take_append.
  rewrite erun_Cat. unfold Chr at 1. rewrite run_Class.
  unfold char_matcher at 1. cbn [rest caps append].
  change (("/" =? "/")%char) with true. cbv iota.
  rewrite erun_Cat, erun_Group.
  apply (plus_class false notSlash); try assumption; [reflexivity|].
  cbn [rest prev caps]. rewrite take_append.
  rewrite erun_Cat. unfold Chr at 1. rewrite run_Class.
  unfold char_matcher at 1. cbn [rest caps append].
  change (("/" =? "/")%char) with true. cbv iota.
  rewrite erun_Cat, erun_Lit. cbn [rest prev caps append].
  rewrite !startsWith_cons, startsWith_nil.
  cbn [Ascii.eqb Bool.eqb andb String.length dropChars lastChar].
  rewrite erun_Cat. unfold Chr at 1. rewrite run_Class.
  unfold char_matcher at 1. cbn [rest caps append].
  change (("/" =? "/")%char) with true. cbv iota.
  rewrite erun_Group. unfold Digit.
  apply (plus_class false isDigit); try assumption.
  { now rewrite digits_allOf. }
  cbn [rest prev caps]. now rewrite take_append.
Qed.

End PRUrlFacts.

Import PRUrlFacts.

(** X20. [parsePRUrl] reads back the address of a pull request: for an
    owner and a repository name that are not empty and hold no slash, and
    a number [n] of at most [2 ^ 53] (the range in which [parseInt] is
    exact), the address [http(s)://github.com/owner/repo/pull/n], followed
    by anything that does not begin with a digit, is parsed into the owner,
    the repository and [n]. *)
Theorem parsePRUrl_reads_pull_url
        (secure : bool) (owner repo rest0 : string) (n : nat) :
  owner <> "" -> allOf notSlash owner = true ->
  repo <> "" -> allOf notSlash repo = true ->
  notDigitFirst rest0 = true ->
  Z.of_nat n <= exactLimit ->
  PRUrl.parsePRUrl (pullUrl secure owner repo n ++ rest0) =
  Some (PRUrl.mkPRRef owner repo (Z.of_nat n)).
Proof.
  intros Ho Hos Hr Hrs Hrest _.
  destruct (showNat_digits n) as [Hne Hdig].
  assert (Hurl : forall p,
    RegexExt.run false
      (RegexExt.Seq [RegexExt.Lit "://github.com/";
                     RegexExt.Group 1 (RegexExt.Plus (RegexExt.NotChr "/"));
                     RegexExt.Chr "/";
                     RegexExt.Group 2 (RegexExt.Plus (RegexExt.NotChr "/"));
                     RegexExt.Chr "/"; RegexExt.Lit "pull"; RegexExt.Chr "/";
                     RegexExt.Group 3 (RegexExt.Plus RegexExt.Digit)])
      (MState p ("://github.com/" ++ owner ++ "/" ++ repo ++ "/pull/" ++
                 PRReviewService.showNat n ++ rest0) [])
      (fun st => Some st) =
    Some (MState (lastChar (Some "/"%char) (PRReviewService.showNat n)) rest0
            [(3%nat, PRReviewService.showNat n); (2%nat, repo);
             (1%nat, owner)])).
  { intros p. now apply url_tail_matches. }
  assert (Happ : forall a b c d e f g : string,
            (a ++ b ++ c ++ d ++ e ++ f) ++ g = a ++ b ++ c ++ d ++ e ++ f ++ g).
  { intros. now rewrite !append_assoc. }
  assert (Hm : RegexExt.exec false (PRUrl.urlPattern "pull")
                 (pullUrl secure owner repo n ++ rest0) =
               Some (MState (lastChar (Some "/"%char)
                               (PRReviewService.showNat n)) rest0
                       [(3%nat, PRReviewService.showNat n); (2%nat, repo);
                        (1%nat, owner)])).
  { apply exec_of_match_here. unfold RegexExt.match_here, PRUrl.urlPattern.
    unfold pullUrl.
    change ("http" ++ (if secure then "s" else "") ++ "://github.com/" ++
            owner ++ "/" ++ repo ++ "/pull/" ++ PRReviewService.showNat n)
      with ("http" ++ ((if secure then "s" else "") ++ "://github.com/" ++
            owner ++ "/" ++ repo ++ "/pull/" ++ PRReviewService.showNat n)).
    rewrite (append_assoc "http").
    change (RegexExt.Seq (RegexExt.Lit "http" :: RegexExt.Opt (RegexExt.Chr "s")
                            :: ?l))
      with (RegexExt.Cat (RegexExt.Lit "http")
              (RegexExt.Cat (RegexExt.Opt (RegexExt.Chr "s")) (RegexExt.Seq l))).
    rewrite RegexExtFacts.erun_Cat, RegexExtFacts.erun_Lit.
    cbn [rest prev caps]. rewrite startsWith_self.
    rewrite (dropChars_append "http"). cbn [lastChar].
    rewrite RegexExtFacts.erun_Cat, RegexExtFacts.erun_Opt.
    unfold RegexExt.Chr at 1. rewrite RegexExtFacts.run_Class.
    destruct secure.
    - rewrite !append_assoc. cbn [append]. unfold char_matcher at 1.
      cbn [rest caps]. change (("s" =? "s")%char) with true. cbv iota.
      change (String ":" (String "/" (String "/" ?x)))
        with ("://" ++ x).
      cbn [append]. 
      match goal with |- context [RegexExt.run false ?r (MState ?p ?u []) _] =>
        change u with ("://github.com/" ++ owner ++ "/" ++ repo ++ "/pull/" ++
                       PRReviewService.showNat n ++ rest0) end.
      now rewrite Hurl.
    - rewrite !append_assoc. cbn [append]. unfold char_matcher at 1.
      cbn [rest caps]. change (("s" =? ":")%char) with false. cbv iota.
      match goal with |- RegexExt.run false ?r (MState ?p ?u []) _ = _ =>
        change u with ("://github.com/" ++ owner ++ "/" ++ repo ++ "/pull/" ++
                       PRReviewService.showNat n ++ rest0) end.
      apply Hurl. }
  unfold PRUrl.parsePRUrl, PRUrl.patterns. cbn [PRUrl.firstMatch].
  rewrite Hm. cbn [caps capture Nat.eqb].
  now rewrite parseInt_showNat.
Qed.

Lemma parsePRUrl_reads_pull_url_witness :
  PRUrl.parsePRUrl (pullUrl true "octo" "repo" 123 ++ "/files") =
  Some (PRUrl.mkPRRef "octo" "repo" (Z.of_nat 123)).
Proof.
  refine (parsePRUrl_reads_pull_url true "octo" "repo" "/files" 123
            _ eq_refl _ eq_refl eq_refl _).
  - discriminate.
  - discriminate.
  - vm_compute. discriminate.
Defined.

(** X21. An address without [http] in it is refused: [parsePRUrl] returns
    null for every string that does not hold the word [http]. *)
Theorem parsePRUrl_needs_scheme (url : string) :
  includes url "http" = false -> PRUrl.parsePRUrl url = None.
Proof.
  intros H. unfold PRUrl.parsePRUrl, PRUrl.patterns, PRUrl.urlPattern.
  cbn [PRUrl.firstMatch RegexExt.Seq]. unfold RegexExt.exec.
  now rewrite !(RegexExtFacts.exec_from_needs_word false "http" _ url None H).
Qed.

Lemma parsePRUrl_needs_scheme_witness :
  PRUrl.parsePRUrl "github.com/octo/repo/pull/123" = None.
Proof. exact (parsePRUrl_needs_scheme "github.com/octo/repo/pull/123" eq_refl). Defined.

(* ================================================================== *)
(** * The text fallback of the issue finder *)
(* ================================================================== *)

Module TextAnalysisFacts.

Import TextAnalysis.

(** The walk over the lines keeps one issue per marker line seen, the one
    being filled included, each with the default tags. *)
Lemma textStep_fold (lines : list string)
      (st : list TextIssue * option TextIssue) :
  Forall defaultTags (pushCurrent (fst st) (snd st)) ->
  let st' := fold_left textStep lines st in
  Forall defaultTags (pushCurrent (fst st') (snd st')) /\
  length (pushCurrent (fst st') (snd st')) =
  (length (pushCurrent (fst st) (snd st)) +
   length (filter isMarkerLine lines))%nat.
Proof.
  revert st; induction lines as [|line lines IH]; intros [issues cur] Hst;
    cbn [fold_left filter].
  - cbv zeta. split; [exact Hst | cbn; lia].
  - cbv zeta. cbn [fst snd] in Hst.
    assert (Hstep :
      Forall defaultTags (pushCurrent (fst (textStep (issues, cur) line))
                                      (snd (textStep (issues, cur) line))) /\
      length (pushCurrent (fst (textStep (issues, cur) line))
                          (snd (textStep (issues, cur) line))) =
      (length (pushCurrent issues cur) +
       if isMarkerLine line then 1 else 0)%nat).
    { unfold textStep, isMarkerLine.
      destruct (RegexExt.test false markerRe (trim line)); cbn [fst snd].
      - cbn [pushCurrent]. split.
        + apply Forall_app. split; [exact Hst|].
          repeat constructor.
        + rewrite length_app. cbn. lia.
      - destruct cur as [issue|]; [|split; [exact Hst | cbn; lia]].
        destruct (JS.truthy (trim line)); cbn [fst snd];
          [|split; [exact Hst | cbn; lia]].
        cbn [pushCurrent] in *. apply Forall_app in Hst as [Hi Hc].
        inversion Hc as [|? ? [Hsev Hcat] _]; subst. split.
        + apply Forall_app. split; [exact Hi|].
          repeat constructor; assumption.
        + rewrite !length_app. cbn. lia. }
    destruct Hstep as [Hf Hl].
    destruct (IH _ Hf) as [Hf' Hl']. cbv zeta in Hf', Hl'.
    split; [exact Hf'|]. rewrite Hl', Hl.
    destruct (isMarkerLine line); cbn [length fst snd]; lia.
Qed.

Lemma parseTextAnalysis_issues (analysis : string) :
  Forall defaultTags (issues (parseTextAnalysis analysis)) /\
  length (issues (parseTextAnalysis analysis)) =
  length (filter isMarkerLine (split_lines analysis)).
Proof.
  unfold parseTextAnalysis.
  destruct (textStep_fold (split_lines analysis) ([], None) (Forall_nil _))
    as [Hf Hl].
  cbv zeta in Hf, Hl.
  destruct (fold_left textStep (split_lines analysis) ([], None))
    as [iss cur].
  cbn [issues fst snd] in *. split; [exact Hf | exact Hl].
Qed.

End TextAnalysisFacts.

(** X22. The text parser finds one issue per numbered line: the analysis
    has as many issues as the text has lines that, trimmed, begin with
    digits and a dot, and every issue is tagged 'info' and 'quality'; a
    text without such a line yields no issue. *)
Theorem text_issues_per_marker (analysis : string) :
  length (TextAnalysis.issues (TextAnalysis.parseTextAnalysis analysis)) =
    length (filter isMarkerLine (split_lines analysis)) /\
  Forall defaultTags
         (TextAnalysis.issues (TextAnalysis.parseTextAnalysis analysis)) /\
  (Forall (fun l => isMarkerLine l = false) (split_lines analysis) ->
   TextAnalysis.issues (TextAnalysis.parseTextAnalysis analysis) = []).
Proof.
  destruct (TextAnalysisFacts.parseTextAnalysis_issues analysis) as [Hf Hl].
  split; [exact Hl|]. split; [exact Hf|].
  intros Hnone.
  assert (Hz : filter isMarkerLine (split_lines analysis) = []).
  { clear - Hnone. induction Hnone as [|l ls Hl0 _ IH]; [reflexivity|].
    cbn [filter]. rewrite Hl0. exact IH. }
  rewrite Hz in Hl.
  destruct (TextAnalysis.issues (TextAnalysis.parseTextAnalysis analysis));
    [reflexivity | cbn in Hl; discriminate].
Qed.

Lemma text_issues_per_marker_witness :
  TextAnalysis.issues
    (TextAnalysis.parseTextAnalysis
       (join_lines ["The change looks fine."; "No numbered remarks."])) = [].
Proof.
  apply (proj2 (proj2 (text_issues_per_marker
           (join_lines ["The change looks fine."; "No numbered remarks."])))).
  vm_compute. repeat constructor.
Defined.

(** X23. Comments built from a text analysis all land on line 1: the
    issues of the text parser carry no line, so [parseAnalysisToComments]
    gives every one of them line 1, severity 'info' and the path of the
    file, one comment per numbered line of the text. *)
Theorem text_comments_on_line_one
        (formatComment : Issue.t -> string) (analysis : string)
        (file : FileInfo) :
  let comments :=
    PRReviewService.parseAnalysisToComments formatComment
      (TextAnalysis.asAnalysis (TextAnalysis.parseTextAnalysis analysis))
      file in
  length comments = length (filter isMarkerLine (split_lines analysis)) /\
  Forall (fun c => Comment.line c = JNumber 1 /\
                   Comment.severity c = JString "info" /\
                   Comment.path c = filename file) comments.
Proof.
  cbv zeta. rewrite parseAnalysisToComments_map.
  unfold TextAnalysis.asAnalysis. cbn [Analysis.issues].
  destruct (TextAnalysisFacts.parseTextAnalysis_issues analysis) as [Hf Hl].
  rewrite !length_map. split; [exact Hl|].
  apply Forall_map, Forall_map.
  eapply Forall_impl; [|exact Hf].
  intros issue [Hsev _]. unfold PRReviewService.commentOf, TextAnalysis.issueOf.
  cbn [Comment.line Comment.severity Comment.path Issue.line Issue.severity].
  rewrite Hsev. now repeat split.
Qed.

(* ================================================================== *)
(** * What a request of OpenAIService rejects with *)
(* ================================================================== *)

Section RequestFacts.

Variable World : Type.
Variable Response : Type.
Variable create :
  option string -> string -> string -> World -> (Thrown + Response) * World.
Variable getSystemPrompt : Context.t -> string.
Variable status : Error -> JSValue.
Variable typeError : Error.
Variable thisModel : option string.

Let makeOpenAIRequest :=
  OpenAIRequest.makeOpenAIRequest create getSystemPrompt status typeError
    thisModel.
Let tryFallbacks :=
  OpenAIRequest.tryFallbacks (World := World) (Response := Response) typeError.
Let modelFor := OpenAIRequest.modelFor thisModel.

(** The loop over the fallback models ends, with a response or an error
    object, when the requests for them do. *)
Lemma tryFallbacks_rejects_with_objects
      (request : string -> OpenAIRequest.State World ->
                 OpenAIRequest.Outcome World Response)
      (model : option string) (models : list string) :
  (forall fallbackModel st,
     In fallbackModel models ->
     exists outcome st',
       request fallbackModel st = Some (outcome, st') /\
       outcome <> inl Nullish) ->
  forall st, exists outcome st',
    tryFallbacks request model models st = Some (outcome, st') /\
    outcome <> inl Nullish.
Proof.
  induction models as [|fallbackModel models IH]; intros Hreq st.
  - cbn. eexists _, _. split; [reflexivity | discriminate].
  - assert (IH' : forall st, exists outcome st',
              tryFallbacks request model models st = Some (outcome, st') /\
              outcome <> inl Nullish).
    { apply IH. intros m st0 Hm. apply Hreq. now right. }
    unfold tryFallbacks. cbn [OpenAIRequest.tryFallbacks]. fold tryFallbacks.
    destruct (OpenAIRequest.differs fallbackModel model); [|apply IH'].
    destruct (Hreq fallbackModel
                (OpenAIRequest.log
                   (OpenAIRequest.Info
                      ("Trying fallback model: " ++ fallbackModel)) st))
      as (outcome & st' & -> & Hout); [now left|].
    destruct outcome as [[|fallbackError]|response].
    + now contradiction Hout.
    + apply IH'.
    + eexists _, _. split; [reflexivity | discriminate].
Qed.

(** A request for the fallback model itself makes one call of the client and
    has no model left to fall back on. *)
Lemma fallback_request_rejects_with_objects (fuel : nat) (prompt : string)
      (context : Context.t) (st : OpenAIRequest.State World) :
  exists outcome st',
    makeOpenAIRequest (S fuel) prompt context (Some "gpt-3.5-turbo") st =
      Some (outcome, st') /\
    outcome <> inl Nullish.
Proof.
  unfold makeOpenAIRequest. cbn [OpenAIRequest.makeOpenAIRequest].
  change (OpenAIRequest.modelFor thisModel (Some "gpt-3.5-turbo"))
    with (Some "gpt-3.5-turbo").
  cbv zeta.
  destruct (create _ _ _ _) as [[[|error]|response] w].
  - eexists _, _. split; [reflexivity | discriminate].
  - destruct (OpenAIRequest.modelUnavailable status error).
    + cbn. eexists _, _. split; [reflexivity | discriminate].
    + eexists _, _. split; [reflexivity | discriminate].
  - eexists _, _. split; [reflexivity | discriminate].
Qed.

(** X24. [makeOpenAIRequest] never rejects with [null] or [undefined],
    whatever the client rejects with: it makes its request, and the one for
    the fallback model when the model is not available, and ends with a
    response or with a value whose message can be read. When the client
    rejects with [null] or [undefined], the catch clause throws a
    [TypeError] on reading [error.status], and the logger is told nothing
    more. *)
Theorem request_rejects_with_objects (fuel : nat) (prompt : string)
        (context : Context.t) (modelToTry : option string)
        (st : OpenAIRequest.State World) :
  (exists outcome st',
     makeOpenAIRequest (S (S fuel)) prompt context modelToTry st =
       Some (outcome, st') /\
     outcome <> inl Nullish) /\
  (forall w : World,
     create (modelFor modelToTry) (getSystemPrompt context) prompt
            (OpenAIRequest.world st) = (inl Nullish, w) ->
     makeOpenAIRequest (S fuel) prompt context modelToTry st =
     Some (inl (Raised typeError),
           OpenAIRequest.mkState w
             (OpenAIRequest.logged st ++
              [OpenAIRequest.Info
                 ("Attempting to use model: " ++
                  OpenAIRequest.showModel (modelFor modelToTry))]))).
Proof.
  split.
  - unfold makeOpenAIRequest.
    cbn [OpenAIRequest.makeOpenAIRequest]. cbv zeta.
    destruct (create _ _ _ _) as [[[|error]|response] w].
    + eexists _, _. split; [reflexivity | discriminate].
    + destruct (OpenAIRequest.modelUnavailable status error).
      * apply tryFallbacks_rejects_with_objects.
        intros fallbackModel st0 [<-|[]].
        apply fallback_request_rejects_with_objects.
      * eexists _, _. split; [reflexivity | discriminate].
    + eexists _, _. split; [reflexivity | discriminate].
  - intros w Hnull. unfold makeOpenAIRequest.
    cbn [OpenAIRequest.makeOpenAIRequest]. cbv zeta.
    unfold modelFor in Hnull. cbn [OpenAIRequest.log OpenAIRequest.world].
    rewrite Hnull. reflexivity.
Qed.

End RequestFacts.

Lemma request_rejects_with_objects_witness :
  OpenAIRequest.makeOpenAIRequest OpenAIRequest.nullClient (fun _ => "system")
    (fun _ => JUndefined) (mkError "TypeError") (Some "gpt-4") 1 "prompt"
    (Context.mk "a.js" "javascript" "title" "" false false) None
    (OpenAIRequest.mkState tt []) =
  Some (inl (Raised (mkError "TypeError")),
        OpenAIRequest.mkState tt
          ([] ++ [OpenAIRequest.Info
                    ("Attempting to use model: " ++
                     OpenAIRequest.showModel
                       (OpenAIRequest.modelFor (Some "gpt-4") None))])).
Proof.
  exact (proj2 (request_rejects_with_objects unit string
                  OpenAIRequest.nullClient (fun _ => "system")
                  (fun _ => JUndefined) (mkError "TypeError") (Some "gpt-4")
                  0 "prompt"
                  (Context.mk "a.js" "javascript" "title" "" false false)
                  None (OpenAIRequest.mkState tt []))
           tt eq_refl).
Defined.
